(** * Figure extraction pipeline of pdf-to-quiz-generator

    A shallow embedding of [1.extract_pdf2img_excessive.py]: the geometry
    helpers, the Candidate Merger, the Caption Locator, the Content
    Classifier, the perceptual deduplicator, the Context Locator and the
    orchestration loop, followed by the properties established about them.

    Conventions of the embedding.
    - Python floats are modelled by exact rationals ([Q]); comparisons
      are the exact ones.  No example below sits on a rounding boundary.
    - A Python [str] is the list of its code points ([Str]).
    - The module-level tunables of the script are gathered in [Config];
      [default_config] holds the values written in the source.
    - What the script obtains from pdfplumber, PyPDF2, PIL and imagehash is
      data of the model: a [Page] carries its words, images and a renderer,
      an [Image] carries its size, edge mean and perceptual hash. *)

From Stdlib Require Import QArith Qminmax Qround Qabs Lqa.
From Stdlib Require Import ZArith NArith List Sorted Bool String Ascii Lia.
From Stdlib Require DecimalString.
Import ListNotations.

Open Scope string_scope.
Open Scope list_scope.
Open Scope Q_scope.

(* ================================================================= *)
(** ** Numbers *)

(** Strict comparison on rationals as a boolean. *)
Definition Qltb (x y : Q) : bool := negb (Qle_bool y x).

(* ================================================================= *)
(** ** Bounding boxes *)

(** The tuple [(x0, y0, x1, y1)], y growing downward. *)
Record BBox : Type := mkBBox { bx0 : Q; by0 : Q; bx1 : Q; by1 : Q }.

Definition _bbox_expand (b : BBox) (margin : Q) : BBox :=
  mkBBox (bx0 b - margin) (by0 b - margin) (bx1 b + margin) (by1 b + margin).

Definition _bbox_union (a b : BBox) : BBox :=
  mkBBox (Qmin (bx0 a) (bx0 b)) (Qmin (by0 a) (by0 b))
         (Qmax (bx1 a) (bx1 b)) (Qmax (by1 a) (by1 b)).

Definition _bbox_area (b : BBox) : Q :=
  Qmax 0 (bx1 b - bx0 b) * Qmax 0 (by1 b - by0 b).

(** [_bbox_dist] returns [(dx ** 2 + dy ** 2) ** 0.5].  The script only ever
    compares that root with a non-negative constant, so the model keeps the
    radicand and compares it with the square of the constant. *)
Definition _bbox_dist_sq (a b : BBox) : Q :=
  let dx := Qmax 0 (Qmax (bx0 b - bx1 a) (bx0 a - bx1 b)) in
  let dy := Qmax 0 (Qmax (by0 b - by1 a) (by0 a - by1 b)) in
  dx * dx + dy * dy.

(** [_bbox_dist(a, b) < t]: a root of a non-negative number is below [t]
    exactly when [t] is positive and the number is below its square. *)
Definition _bbox_dist_lt (a b : BBox) (t : Q) : bool :=
  Qltb 0 t && Qltb (_bbox_dist_sq a b) (t * t).

(** [_bbox_dist(a, b) <= t]. *)
Definition _bbox_dist_le (a b : BBox) (t : Q) : bool :=
  Qle_bool 0 t && Qle_bool (_bbox_dist_sq a b) (t * t).

(** [_clip_to_page(b, page)] with [page.bbox] passed in; [None] is Python's
    [None]. *)
Definition _clip_to_page (b pbox : BBox) : option BBox :=
  let x0 := Qmax (bx0 pbox) (Qmin (bx0 b) (bx1 pbox)) in
  let y0 := Qmax (by0 pbox) (Qmin (by0 b) (by1 pbox)) in
  let x1 := Qmax (bx0 pbox) (Qmin (bx1 b) (bx1 pbox)) in
  let y1 := Qmax (by0 pbox) (Qmin (by1 b) (by1 pbox)) in
  if Qle_bool (x1 - x0) 1 || Qle_bool (y1 - y0) 1 then None
  else Some (mkBBox x0 y0 x1 y1).

(** [a] lies inside [b], edges included. *)
Definition bbox_within (a b : BBox) : Prop :=
  bx0 b <= bx0 a /\ by0 b <= by0 a /\ bx1 a <= bx1 b /\ by1 a <= by1 b.

(* ================================================================= *)
(** ** Candidate Merger (lines 329-343 of [extract_images_and_captions]) *)

(** The area [inter] of the overlap of [b] and [cb]. *)
Definition inter_area (b cb : BBox) : Q :=
  let inter_x0 := Qmax (bx0 b) (bx0 cb) in
  let inter_y0 := Qmax (by0 b) (by0 cb) in
  let inter_x1 := Qmin (bx1 b) (bx1 cb) in
  let inter_y1 := Qmin (by1 b) (by1 cb) in
  Qmax 0 (inter_x1 - inter_x0) * Qmax 0 (inter_y1 - inter_y0).

(** [iou = inter / uni] with the [1e-6] guard of the source. *)
Definition iou (b cb : BBox) : Q :=
  let inter := inter_area b cb in
  let uni := _bbox_area b + _bbox_area cb - inter + 1e-6 in
  inter / uni.

(** The test of line 338. *)
Definition merge_test (b cb : BBox) : bool :=
  Qltb 0.3 (iou b cb) || _bbox_dist_lt b cb 10.

(** The inner [for i, cb in enumerate(candidates)] loop: the first candidate
    passing the test is replaced by its union with [b]; [None] when the loop
    ends with [merged = False]. *)
Fixpoint absorb (b : BBox) (candidates : list BBox) : option (list BBox) :=
  match candidates with
  | [] => None
  | cb :: rest =>
      if merge_test b cb then Some (_bbox_union cb b :: rest)
      else option_map (cons cb) (absorb b rest)
  end.

(** One turn of the outer loop. *)
Definition fold_box (candidates : list BBox) (b : BBox) : list BBox :=
  match absorb b candidates with
  | Some merged => merged
  | None => candidates ++ [b]
  end.

(** The whole merger on [raster_boxes + graphic_boxes]. *)
Definition merge_candidates (boxes : list BBox) : list BBox :=
  fold_left fold_box boxes [].

(** The same loops, each candidate also remembering the positions (in
    encounter order) of the input boxes it has absorbed.  The remembered
    positions never influence the boxes: see [merge_traced_boxes]. *)
Definition Traced : Type := (BBox * list nat)%type.

Fixpoint absorb_traced (b : BBox) (k : nat) (candidates : list Traced)
  : option (list Traced) :=
  match candidates with
  | [] => None
  | (cb, ks) :: rest =>
      if merge_test b cb then Some ((_bbox_union cb b, ks ++ [k]) :: rest)
      else option_map (cons (cb, ks)) (absorb_traced b k rest)
  end.

Definition fold_box_traced (candidates : list Traced) (bk : BBox * nat)
  : list Traced :=
  match absorb_traced (fst bk) (snd bk) candidates with
  | Some merged => merged
  | None => candidates ++ [(fst bk, [snd bk])]
  end.

(** Python's [enumerate]. *)
Fixpoint enumerate_from {A : Type} (start : nat) (l : list A) : list (A * nat) :=
  match l with
  | [] => []
  | x :: r => (x, start) :: enumerate_from (S start) r
  end.

Definition merge_traced (boxes : list BBox) : list Traced :=
  fold_left fold_box_traced (enumerate_from 0 boxes) [].

(** Input boxes [i] and [j] ended up in one candidate. *)
Definition same_candidate (boxes : list BBox) (i j : nat) : Prop :=
  exists c, In c (merge_traced boxes) /\ In i (snd c) /\ In j (snd c).

(** Example page: a box [boxC] on the left, then two strongly overlapping
    boxes [boxA] and [boxB] on the right, [boxB] reaching within 5 units of
    [boxC]. *)
Definition boxC : BBox := mkBBox 0 0 85 100.
Definition boxA : BBox := mkBBox 100 0 200 100.
Definition boxB : BBox := mkBBox 90 0 190 100.

(* ================================================================= *)
(** ** Strings *)

(** A Python [str]: its code points, in order. *)
Definition Str : Type := list N.

(** An ASCII literal as a [Str]. *)
Definition py (s : string) : Str := map N_of_ascii (list_ascii_of_string s).

Definition str_eqb (a b : Str) : bool :=
  if list_eq_dec N.eq_dec a b then true else false.

(** Code points of the CJK literals of the source. *)
Definition cjk_tu : N := 22270.           (* U+56FE, figure *)
Definition cjk_biao : N := 34920.         (* U+8868, table *)
Definition cjk_full_stop : N := 12290.    (* U+3002 *)
Definition fullwidth_full_stop : N := 65294.  (* U+FF0E *)
Definition fullwidth_semicolon : N := 65307.  (* U+FF1B *)

Definition in_range (lo hi c : N) : bool := (lo <=? c)%N && (c <=? hi)%N.

(** [str.isspace] on one code point, which is also [\s] of [re] on [str]
    patterns. *)
Definition is_space (c : N) : bool :=
  in_range 9 13 c || in_range 28 32 c || (c =? 133)%N || (c =? 160)%N
  || (c =? 5760)%N || in_range 8192 8202 c || (c =? 8232)%N || (c =? 8233)%N
  || (c =? 8239)%N || (c =? 8287)%N || (c =? 12288)%N.

(** The class [[0-9]]. *)
Definition is_ascii_digit (c : N) : bool := in_range 48 57 c.

(** Case folding as [re.I] applies it to the letters of the patterns: the
    ASCII capitals, and the four letters U+0130, U+0131, U+017F and U+212A
    that [re] equates with i, i, s and k. *)
Definition fold_case (c : N) : N :=
  if in_range 65 90 c then (c + 32)%N
  else if (c =? 304)%N || (c =? 305)%N then 105%N
  else if (c =? 383)%N then 115%N
  else if (c =? 8490)%N then 107%N
  else c.

(** A literal pattern character against an input character under [re.I]. *)
Definition ci_eqb (p c : N) : bool := (fold_case p =? fold_case c)%N.

(** The class [[0-9A-Za-z]] under [re.I]. *)
Definition is_alnum_ci (c : N) : bool :=
  is_ascii_digit c || in_range 97 122 (fold_case c).

(** [str.upper], exact on every code point an origin identifier can hold
    (ASCII, the four letters above, the CJK labels). *)
Definition upper_char (c : N) : N :=
  if in_range 97 122 c then (c - 32)%N
  else if (c =? 305)%N then 73%N
  else if (c =? 383)%N then 83%N
  else c.

Definition upper (s : Str) : Str := map upper_char s.

(** [str.lower] on ASCII capitals (used on file names only). *)
Definition lower_char (c : N) : N :=
  if in_range 65 90 c then (c + 32)%N else c.

Fixpoint lstrip (s : Str) : Str :=
  match s with
  | c :: r => if is_space c then lstrip r else s
  | [] => []
  end.

Definition rstrip (s : Str) : Str := rev (lstrip (rev s)).

(** [s.strip()]. *)
Definition strip (s : Str) : Str := rstrip (lstrip s).

(** [sep.join(parts)]. *)
Fixpoint join (sep : Str) (parts : list Str) : Str :=
  match parts with
  | [] => []
  | [p] => p
  | p :: rest => p ++ sep ++ join sep rest
  end.

(** [len(s)] as a Python integer. *)
Definition len (s : Str) : Z := Z.of_nat (List.length s).

(** Python truthiness of a [str]. *)
Definition nonempty (s : Str) : bool :=
  match s with [] => false | _ => true end.

(** [str(n)] for a non-negative integer. *)
Definition str_of_nat (n : nat) : Str :=
  py (DecimalString.NilEmpty.string_of_uint (Nat.to_uint n)).

(** If [s] starts with the literal [pat] (under [re.I]), the matched text and
    what follows it. *)
Fixpoint match_literal_ci (pat s : Str) : option (Str * Str) :=
  match pat, s with
  | [], _ => Some ([], s)
  | p :: pat', c :: s' =>
      if ci_eqb p c then
        match match_literal_ci pat' s' with
        | Some (m, rest) => Some (c :: m, rest)
        | None => None
        end
      else None
  | _ :: _, [] => None
  end.

(** [re.sub(r'\s+', ' ', s)]: every maximal run of white space becomes one
    space.  [in_run] tells that the previous character was white space. *)
Fixpoint collapse_spaces_from (in_run : bool) (s : Str) : Str :=
  match s with
  | [] => []
  | c :: r =>
      if is_space c then
        if in_run then collapse_spaces_from true r
        else 32%N :: collapse_spaces_from true r
      else c :: collapse_spaces_from false r
  end.

Definition collapse_spaces (s : Str) : Str := collapse_spaces_from false s.

(* ================================================================= *)
(** ** Sorting and maxima, as Python does them *)

(** [sorted] is stable: an element goes after every element that is not
    greater than it.  [lt] is the strict order of the keys. *)
Fixpoint insert_sorted {A : Type} (lt : A -> A -> bool) (x : A) (l : list A)
  : list A :=
  match l with
  | [] => [x]
  | y :: r => if lt x y then x :: y :: r else y :: insert_sorted lt x r
  end.

Definition sorted {A : Type} (lt : A -> A -> bool) (l : list A) : list A :=
  fold_left (fun acc x => insert_sorted lt x acc) l [].

(** [max(best :: l, key=key)]: a later element replaces the current best only
    when its key is strictly greater, so the first maximum is returned. *)
Fixpoint max_by {A : Type} (key : A -> Q) (best : A) (l : list A) : A :=
  match l with
  | [] => best
  | x :: r => if Qltb (key best) (key x) then max_by key x r
              else max_by key best r
  end.

(** [round(q)]: to the nearest integer, halves to the even one. *)
Definition py_round (q : Q) : Z :=
  let f := Qfloor q in
  match Qcompare (q - inject_Z f) 0.5 with
  | Lt => f
  | Gt => (f + 1)%Z
  | Eq => if Z.even f then f else (f + 1)%Z
  end.

(* ================================================================= *)
(** ** Configuration and page data *)

(** The tunables at the top of the script. *)
Record Config : Type := mkConfig {
  MIN_IMG_WIDTH : Z;
  MIN_IMG_HEIGHT : Z;
  HASH_THRESHOLD : Z;
  SEARCH_MARGIN : Q;
  LINE_GAP_STOP : Q;
  WORD_JOIN_GAP : Q;
  CAPTION_MIN_LEN : Z;
  MERGE_DIST : Q;
  MIN_GRAPHIC_W : Q;
  MIN_GRAPHIC_H : Q
}.

Definition default_config : Config :=
  {| MIN_IMG_WIDTH := 200; MIN_IMG_HEIGHT := 100;
     HASH_THRESHOLD := 5;
     SEARCH_MARGIN := 30; LINE_GAP_STOP := 18; WORD_JOIN_GAP := 6;
     CAPTION_MIN_LEN := 8;
     MERGE_DIST := 12; MIN_GRAPHIC_W := 120; MIN_GRAPHIC_H := 80 |}.

(** One entry of [page.extract_words()]. *)
Record Word : Type := mkWord {
  w_text : Str; w_x0 : Q; w_x1 : Q; w_top : Q; w_bottom : Q
}.

(** Primitive counts of a graphic cluster: the dict with the keys
    ["lines"], ["rects"] and ["curves"].  Every such dict of the script holds
    the three keys, so [.get(k, 0)] is a projection and the dict is truthy. *)
Record Stats : Type := mkStats { st_lines : Z; st_rects : Z; st_curves : Z }.

(** What the script reads off a rendered [PIL] image: its pixel size, the
    mean (0..255) of its edge-filtered grey version, and its perceptual hash
    (the bits of the fingerprint as a number). *)
Record Image : Type := mkImage {
  img_width : Z; img_height : Z; img_edge_mean : Q; img_phash : N
}.

(** What the script reads off a pdfplumber page.  [page_render b] is
    [page.within_bbox(b).to_image(resolution=180).original]; [None] stands for
    an exception raised there. *)
Record Page : Type := mkPage {
  page_bbox : BBox;
  page_width : Q;
  page_height : Q;
  page_words : list Word;
  page_images : list BBox;
  page_lines : list BBox;
  page_rects : list BBox;
  page_curves : list BBox;
  page_render : BBox -> option Image
}.

(* ================================================================= *)
(** ** Caption Locator *)

Definition _words_in_rect (words : list Word) (rect : BBox) : list Word :=
  filter (fun w => Qle_bool (bx0 rect) (w_x0 w) && Qle_bool (w_x1 w) (bx1 rect)
                   && Qle_bool (by0 rect) (w_top w)
                   && Qle_bool (w_bottom w) (by1 rect)) words.

(** Python's order on the key tuples [(int, float)] and [(float, float)]. *)
Definition key_ZQ_lt (a b : Z * Q) : bool :=
  (fst a <? fst b)%Z || ((fst a =? fst b)%Z && Qltb (snd a) (snd b)).

Definition key_QQ_lt (a b : Q * Q) : bool :=
  Qltb (fst a) (fst b) || (Qeq_bool (fst a) (fst b) && Qltb (snd a) (snd b)).

(** The key [(round(w["top"]/5)*5, w["x0"])]. *)
Definition line_key (w : Word) : Z * Q :=
  ((py_round (w_top w / 5) * 5)%Z, w_x0 w).

(** Loop state of [_join_words_linewise]: [lines], [current_line] (texts
    only) and [(last_top, last_x1)], absent before the first word. *)
Definition JoinState : Type := (list Str * list Str * option (Q * Q))%type.

Definition join_step (cfg : Config) (st : JoinState) (w : Word) : JoinState :=
  let '(lines, current_line, last) := st in
  match last with
  | None => (lines, [w_text w], Some (w_top w, w_x1 w))
  | Some (last_top, last_x1) =>
      if Qle_bool (Qabs (w_top w - last_top)) (WORD_JOIN_GAP cfg) then
        let spaced :=
          if Qltb (WORD_JOIN_GAP cfg) (w_x0 w - last_x1)
          then current_line ++ [py " "] else current_line in
        (lines, spaced ++ [w_text w], Some (last_top, w_x1 w))
      else
        (lines ++ [List.concat current_line], [w_text w], Some (w_top w, w_x1 w))
  end.

Definition _join_words_linewise (cfg : Config) (words : list Word) : Str :=
  match words with
  | [] => []
  | _ =>
      let words_sorted :=
        sorted (fun a b => key_ZQ_lt (line_key a) (line_key b)) words in
      let '(lines, current_line, _) :=
        fold_left (join_step cfg) words_sorted ([], [], None) in
      let lines :=
        match current_line with
        | [] => lines
        | _ => lines ++ [List.concat current_line]
        end in
      join (py " ") (map strip (filter (fun l => nonempty (strip l)) lines))
  end.

(** The prefixes of [LABEL_REGEX] in the order in which the regex engine
    tries them: [Fig(?:\.|ure)?], [Figs?], [Table], [Tab\.?] and the three
    CJK labels. *)
Definition label_alternatives : list Str :=
  [py "Fig."; py "Figure"; py "Fig"; py "Figs"; py "Fig"; py "Table";
   py "Tab."; py "Tab"; [cjk_tu; cjk_biao]; [cjk_tu]; [cjk_biao]].

Fixpoint take_while (f : N -> bool) (s : Str) : Str * Str :=
  match s with
  | c :: r => if f c then let (a, b) := take_while f r in (c :: a, b)
              else ([], s)
  | [] => ([], [])
  end.

Definition is_number_sep (c : N) : bool := (c =? 46)%N || (c =? 45)%N.

(** The text matched at the head of [s] by a starred group made of one
    separator followed by one or more members, such as [(?:\.\d+)*];
    [in_group] tells that the last character taken was a member. *)
Fixpoint repeated_groups (sep member : N -> bool) (in_group : bool) (s : Str)
  : Str :=
  match s with
  | [] => []
  | c :: r =>
      if in_group && member c then c :: repeated_groups sep member true r
      else if sep c then
        match r with
        | d :: _ => if member d then c :: repeated_groups sep member true r
                    else []
        | [] => []
        end
      else []
  end.

(** Group 1 of [LABEL_REGEX] at the head of [s]: ASCII digits, then any
    number of groups of a dot or hyphen followed by characters of
    [[0-9A-Za-z]]. *)
Definition label_number (s : Str) : option Str :=
  let (digits, rest) := take_while is_ascii_digit s in
  match digits with
  | [] => None
  | _ => Some (digits ++ repeated_groups is_number_sep is_alnum_ci false rest)
  end.

Fixpoint first_some {A B : Type} (f : A -> option B) (l : list A) : option B :=
  match l with
  | [] => None
  | x :: r => match f x with Some y => Some y | None => first_some f r end
  end.

(** [LABEL_REGEX.match(text)]: [Some] of group 1 on a match. *)
Definition LABEL_REGEX_match (text : Str) : option Str :=
  let s := lstrip text in
  first_some (fun alt =>
                match match_literal_ci alt s with
                | Some (_, rest) => label_number (lstrip rest)
                | None => None
                end) label_alternatives.

(** Group 1 of the second [re.match] of [_extract_origin_id_from_caption]:
    the label word alone, as written in the caption. *)
Definition label_prefix (caption : Str) : option Str :=
  first_some (fun alt => option_map fst (match_literal_ci alt (lstrip caption)))
             label_alternatives.

Definition _extract_origin_id_from_caption (caption : Str) : Str :=
  match LABEL_REGEX_match caption with
  | Some number =>
      match label_prefix caption with
      | Some prefix => prefix ++ py " " ++ number
      | None => []
      end
  | None => []
  end.

(** The key function [score] of [_pick_best_caption]. *)
Definition score (item : Str * Q) : Q :=
  let (text, dist) := item in
  let has_label := match LABEL_REGEX_match text with Some _ => 1 | None => 0 end in
  let length_penalty := inject_Z (Z.max 0 (len text - 260)) * 0.002 in
  (has_label * 10) - (dist * 0.01) - length_penalty.

Definition _pick_best_caption (candidates : list (Str * Q)) : Str :=
  match candidates with
  | [] => []
  | c :: r => fst (max_by score c r)
  end.

(** The character class of [_truncate_caption_like]: the ideographic and
    fullwidth full stops, [.], [!], [?], [;] and the fullwidth semicolon. *)
Definition is_sentence_end (c : N) : bool :=
  (c =? cjk_full_stop)%N || (c =? fullwidth_full_stop)%N || (c =? 46)%N
  || (c =? 33)%N || (c =? 63)%N || (c =? 59)%N || (c =? fullwidth_semicolon)%N.

(** First piece of the [re.split(..., maxsplit=1)] of
    [_truncate_caption_like]: the text before the first white space that
    follows such a mark. *)
Fixpoint split_head (after_mark : bool) (s : Str) : Str :=
  match s with
  | [] => []
  | c :: r => if after_mark && is_space c then []
              else c :: split_head (is_sentence_end c) r
  end.

Definition _truncate_caption_like (text : Str) : Str :=
  match text with
  | [] => []
  | _ => strip (split_head false text)
  end.

(** The keys of the [regions] dict, in insertion order. *)
Inductive Side : Type := Bottom | Top | Right | Left.

Definition region_sides : list Side := [Bottom; Top; Right; Left].

Definition is_vertical (side : Side) : bool :=
  match side with Bottom | Top => true | _ => false end.

(** [regions[side]]. *)
Definition region (cfg : Config) (page : Page) (bbox : BBox) (side : Side)
  : BBox :=
  let x0 := bx0 bbox in let y0 := by0 bbox in
  let x1 := bx1 bbox in let y1 := by1 bbox in
  let page_w := page_width page in
  let page_h := page_height page in
  let m := SEARCH_MARGIN cfg in
  match side with
  | Bottom => mkBBox x0 y1 x1 (Qmin page_h (y1 + 3 * m))
  | Top => mkBBox x0 (Qmax 0 (y0 - 3 * m)) x1 y0
  | Right => mkBBox x1 (Qmax 0 (y0 - m)) (Qmin page_w (x1 + 3 * m))
                    (Qmin page_h (y1 + m))
  | Left => mkBBox (Qmax 0 (x0 - 3 * m)) (Qmax 0 (y0 - m)) x0
                   (Qmin page_h (y1 + m))
  end.

(** The scan of [axis_sorted] that stops at the first gap above
    [LINE_GAP_STOP]. *)
Fixpoint scan_block (cfg : Config) (axis : Word -> Q) (last_axis : option Q)
  (ws : list Word) : list Str :=
  match ws with
  | [] => []
  | w :: r =>
      let cur_axis := axis w in
      match last_axis with
      | None => w_text w :: scan_block cfg axis (Some cur_axis) r
      | Some la =>
          if Qltb (LINE_GAP_STOP cfg) (Qabs (cur_axis - la)) then []
          else w_text w :: scan_block cfg axis (Some cur_axis) r
      end
  end.

(** The body of the loop over [regions.items()] for one side: the pair
    appended to [candidates], if any. *)
Definition side_candidate (cfg : Config) (page : Page) (words : list Word)
  (bbox : BBox) (side : Side) : option (Str * Q) :=
  let rect := region cfg page bbox side in
  let local_words := _words_in_rect words rect in
  match local_words with
  | [] => None
  | _ =>
      let text_full := _join_words_linewise cfg local_words in
      if negb (nonempty text_full) || (len text_full <? CAPTION_MIN_LEN cfg)%Z
      then None
      else
        let axis_sorted :=
          if is_vertical side
          then sorted (fun a b => key_QQ_lt (w_top a, w_x0 a) (w_top b, w_x0 b))
                      local_words
          else sorted (fun a b => key_QQ_lt (w_x0 a, w_top a) (w_x0 b, w_top b))
                      local_words in
        let lines :=
          scan_block cfg (if is_vertical side then w_top else w_x0) None
                     axis_sorted in
        let text_candidate := strip (collapse_spaces (join (py " ") lines)) in
        if (CAPTION_MIN_LEN cfg <=? len text_candidate)%Z then
          let dist :=
            match side with
            | Bottom => by0 rect - by1 bbox
            | Top => by0 bbox - by1 rect
            | Right => bx0 rect - bx1 bbox
            | Left => bx0 bbox - bx1 rect
            end in
          Some (text_candidate, Qmax 0 dist)
        else None
  end.

Definition option_to_list {A : Type} (o : option A) : list A :=
  match o with Some x => [x] | None => [] end.

(** The list [candidates] once the loop over the four sides is over. *)
Definition caption_candidates (cfg : Config) (page : Page) (words : list Word)
  (bbox : BBox) : list (Str * Q) :=
  flat_map (fun side => option_to_list (side_candidate cfg page words bbox side))
           region_sides.

Definition _find_caption_four_directions (cfg : Config) (page : Page)
  (words : list Word) (bbox : BBox) : Str :=
  let best := _pick_best_caption (caption_candidates cfg page words bbox) in
  if nonempty best then _truncate_caption_like best else best.

(* ================================================================= *)
(** ** Graphic Clusterer *)

Definition stats_add (a b : Stats) : Stats :=
  mkStats (st_lines a + st_lines b) (st_rects a + st_rects b)
          (st_curves a + st_curves b).

(** The inner loop of [_gather_graphic_boxes] over [clusters]. *)
Fixpoint absorb_primitive (cfg : Config) (bbox : BBox) (stat : Stats)
  (clusters : list (BBox * Stats)) : option (list (BBox * Stats)) :=
  match clusters with
  | [] => None
  | (cb, cstat) :: rest =>
      if _bbox_dist_le (_bbox_expand bbox (MERGE_DIST cfg)) cb (MERGE_DIST cfg)
      then Some ((_bbox_union cb bbox, stats_add cstat stat) :: rest)
      else option_map (cons (cb, cstat)) (absorb_primitive cfg bbox stat rest)
  end.

Definition _gather_graphic_boxes (cfg : Config) (page : Page)
  : list (BBox * Stats) :=
  let primitives :=
    map (fun b => (b, mkStats 1 0 0)) (page_lines page)
    ++ map (fun b => (b, mkStats 0 1 0)) (page_rects page)
    ++ map (fun b => (b, mkStats 0 0 1)) (page_curves page) in
  let clusters :=
    fold_left (fun clusters p =>
                 match absorb_primitive cfg (fst p) (snd p) clusters with
                 | Some merged => merged
                 | None => clusters ++ [p]
                 end) primitives [] in
  filter (fun c => let cb := fst c in
                   Qle_bool (MIN_GRAPHIC_W cfg) (bx1 cb - bx0 cb)
                   && Qle_bool (MIN_GRAPHIC_H cfg) (by1 cb - by0 cb)) clusters.

(* ================================================================= *)
(** ** Content Classifier *)

Definition _text_and_edge_score (words : list Word) (bbox : BBox)
  (pil_img : Image) : Q * Q :=
  let area := Qmax 1 ((bx1 bbox - bx0 bbox) * (by1 bbox - by0 bbox)) in
  let w_in := _words_in_rect words bbox in
  let text_area :=
    fold_left (fun acc w => acc + Qmax 0 (w_x1 w - w_x0 w)
                                  * Qmax 0 (w_bottom w - w_top w)) w_in 0 in
  let text_ratio := Qmin 1 (text_area / area) in
  let mean_edge := img_edge_mean pil_img / 255 in
  (text_ratio, mean_edge).

Definition _looks_like_plain_text (text_ratio mean_edge : Q)
  (stats_hint : option Stats) : bool :=
  match stats_hint with
  | Some st =>
      if (6 <=? st_lines st + st_curves st)%Z then false
      else if (3 <=? st_rects st)%Z then false
      else Qltb 0.55 text_ratio && Qltb mean_edge 0.10
  | None => Qltb 0.55 text_ratio && Qltb mean_edge 0.10
  end.

(** The override the classifier grants to a matching cluster. *)
Definition strong_vector_evidence (stats_hint : option Stats) : Prop :=
  exists st, stats_hint = Some st /\
             (6 <= st_lines st + st_curves st \/ 3 <= st_rects st)%Z.

(* ================================================================= *)
(** ** Perceptual Deduplicator *)

Fixpoint pos_popcount (p : positive) : Z :=
  match p with
  | xH => 1
  | xO q => pos_popcount q
  | xI q => (1 + pos_popcount q)%Z
  end.

Definition popcount (n : N) : Z :=
  match n with N0 => 0%Z | Npos p => pos_popcount p end.

(** [a - b] on two [ImageHash] values: the number of differing bits. *)
Definition hash_distance (a b : N) : Z := popcount (N.lxor a b).

(** The [any(...)] of line 381. *)
Definition near_duplicate (cfg : Config) (cur_hash : N) (kept_hashes : list N)
  : bool :=
  existsb (fun h => (Z.abs (hash_distance cur_hash h) <=? HASH_THRESHOLD cfg)%Z)
          kept_hashes.

(* ================================================================= *)
(** ** The extraction loop *)

(** An emitted record.  [fig_contexts] is absent until [find_contexts] sets
    the key.  The keys [figure_id] and [image_path], which only name the
    record and the PNG file and are read by nothing below, are left out, with
    the file naming of lines 385-392; writing the PNG is taken to succeed. *)
Record Figure : Type := mkFigure {
  fig_origin_id : Str;
  fig_page : nat;
  fig_caption : Str;
  fig_width : Z;
  fig_height : Z;
  fig_phash : N;
  fig_contexts : option (list Str)
}.

(** The lines printed by the loop, with the values they interpolate. *)
Inductive LogMsg : Type :=
| SkipSmall (origin_id : Str) (width height : Z)
| SkipPlainText (origin_id : Str) (text_ratio edge_score : Q)
| SkipDuplicate (origin_id : Str)
| WarnFailed (page_num : nat).

(** The mutable state of [extract_images_and_captions], plus what it has
    printed. *)
Record ExtractState : Type := mkState {
  figures : list Figure;
  kept_hashes : list N;
  printed : list LogMsg
}.

Definition initial_state : ExtractState := mkState [] [] [].

Definition say (st : ExtractState) (m : LogMsg) : ExtractState :=
  mkState (figures st) (kept_hashes st) (printed st ++ [m]).

(** The loop of lines 370-373. *)
Definition find_stats_hint (clipped : BBox) (graphic_boxes_stats : list (BBox * Stats))
  : option Stats :=
  option_map snd (find (fun g => _bbox_dist_lt clipped (fst g) 5)
                       graphic_boxes_stats).

(** The identifier used in the messages and stored in the record. *)
Definition origin_id_of (caption : Str) (page_num idx : nat) : Str :=
  let origin_id_raw :=
    if nonempty caption then _extract_origin_id_from_caption caption else [] in
  upper (if nonempty origin_id_raw then origin_id_raw
         else py "FIG_P" ++ str_of_nat page_num ++ py "_" ++ str_of_nat idx).

(** The body of the loop over [enumerate(candidates, start=1)]. *)
Definition process_candidate (cfg : Config) (page : Page) (page_num : nat)
  (words : list Word) (graphic_boxes_stats : list (BBox * Stats))
  (st : ExtractState) (c : BBox * nat) : ExtractState :=
  let (bbox, idx) := c in
  match _clip_to_page bbox (page_bbox page) with
  | None => st
  | Some clipped =>
      let caption := _find_caption_four_directions cfg page words clipped in
      let origin_id := origin_id_of caption page_num idx in
      match page_render page clipped with
      | None => say st (WarnFailed page_num)
      | Some pil_img =>
          if (img_width pil_img <? MIN_IMG_WIDTH cfg)%Z
             || (img_height pil_img <? MIN_IMG_HEIGHT cfg)%Z
          then say st (SkipSmall origin_id (img_width pil_img) (img_height pil_img))
          else
            let stats_hint := find_stats_hint clipped graphic_boxes_stats in
            let (txt_ratio, edge_score) :=
              _text_and_edge_score words clipped pil_img in
            if _looks_like_plain_text txt_ratio edge_score stats_hint
            then say st (SkipPlainText origin_id txt_ratio edge_score)
            else
              let cur_hash := img_phash pil_img in
              if near_duplicate cfg cur_hash (kept_hashes st)
              then say st (SkipDuplicate origin_id)
              else
                mkState
                  (figures st ++
                     [mkFigure origin_id page_num caption (img_width pil_img)
                               (img_height pil_img) cur_hash None])
                  (kept_hashes st ++ [cur_hash])
                  (printed st)
      end
  end.

(** The candidates of one page: lines 322-343. *)
Definition page_candidates (cfg : Config) (page : Page) : list BBox :=
  let raster_boxes := page_images page in
  let graphic_boxes := map fst (_gather_graphic_boxes cfg page) in
  merge_candidates (raster_boxes ++ graphic_boxes).

(** The body of the loop over [enumerate(pdf.pages, start=1)]. *)
Definition process_page (cfg : Config) (st : ExtractState) (p : Page * nat)
  : ExtractState :=
  let (page, page_num) := p in
  let words := page_words page in
  let graphic_boxes_stats := _gather_graphic_boxes cfg page in
  fold_left (process_candidate cfg page page_num words graphic_boxes_stats)
            (enumerate_from 1 (page_candidates cfg page)) st.

(** [extract_images_and_captions] on an opened document: the final state,
    whose [figures] is the returned list. *)
Definition extract_images_and_captions (cfg : Config) (pages : list Page)
  : ExtractState :=
  fold_left (process_page cfg) (enumerate_from 1 pages) initial_state.

(* ================================================================= *)
(** ** Context Locator *)

Definition is_sentence_mark (c : N) : bool :=
  (c =? 46)%N || (c =? 63)%N || (c =? 33)%N.

(** Where the scan of [split_sentences] stands: after ordinary text, right
    after one of [.?!], or inside a separator being consumed. *)
Inductive SplitMode : Type := Plain | AfterMark | InSeparator.

Definition mode_after (c : N) : SplitMode :=
  if is_sentence_mark c then AfterMark else Plain.

(** [re.split] with the pattern of [split_sentences].  A white-space
    character belongs to a separator when the separator may start or go on
    there and the next character exists and is not an ASCII digit (the
    lookahead); [cur] is the piece being read. *)
Fixpoint split_pieces (mode : SplitMode) (cur : Str) (s : Str) : list Str :=
  match s with
  | [] => [cur]
  | c :: r =>
      let consumable :=
        is_space c &&
        match r with d :: _ => negb (is_ascii_digit d) | [] => false end in
      match mode with
      | Plain => split_pieces (mode_after c) (cur ++ [c]) r
      | AfterMark =>
          if consumable then cur :: split_pieces InSeparator [] r
          else split_pieces (mode_after c) (cur ++ [c]) r
      | InSeparator =>
          if consumable then split_pieces InSeparator cur r
          else split_pieces (mode_after c) (cur ++ [c]) r
      end
  end.

Definition split_sentences (text : Str) : list Str :=
  map strip (filter (fun p => nonempty (strip p)) (split_pieces Plain [] text)).

Fixpoint drop_while (f : N -> bool) (s : Str) : Str :=
  match s with
  | c :: r => if f c then drop_while f r else s
  | [] => []
  end.

(** [re.findall(r'\d+(?:\.\d+)*', s)[0]], if any.  [is_decimal] is [\d] on
    [str]: the Unicode decimal digits. *)
Definition first_number (is_decimal : N -> bool) (s : Str) : option Str :=
  let (digits, rest) :=
    take_while is_decimal (drop_while (fun c => negb (is_decimal c)) s) in
  match digits with
  | [] => None
  | _ => Some (digits ++
                 repeated_groups (fun c => (c =? 46)%N) is_decimal false rest)
  end.

(** The label words of the two patterns of [find_contexts], each list in the
    order in which the engine tries them. *)
Definition figure_words : list Str :=
  [py "Figure"; py "Fig."; py "Fig"; [cjk_tu]; [cjk_tu; cjk_biao]].

Definition table_words : list Str :=
  [py "Table"; py "Tab."; py "Tab"; [cjk_biao]].

(** One of the patterns matches at the head of [s]: a label word, optional
    white space, then [num] literally. *)
Definition reference_at (label_words : list Str) (num : Str) (s : Str) : bool :=
  existsb (fun word =>
             match match_literal_ci word s with
             | Some (_, rest) =>
                 match match_literal_ci num (lstrip rest) with
                 | Some _ => true
                 | None => false
                 end
             | None => false
             end) label_words.

(** [re.search]: some suffix of [s] matches at its head. *)
Fixpoint search (at_head : Str -> bool) (s : Str) : bool :=
  at_head s || match s with [] => false | _ :: r => search at_head r end.

(** [any(re.search(p, s, re.I) for p in patterns)]. *)
Definition mentions (num : Str) (s : Str) : bool :=
  search (reference_at figure_words num) s
  || search (reference_at table_words num) s.

(** The window appended to [ranges] for a match at sentence [i]. *)
Definition window (total i : Z) : Z * Z :=
  let start := Z.max 0 (i - 2) in
  let end_ := Z.min total (i + 3) in
  let end_ := if (end_ - start <? 5)%Z
              then Z.min total (end_ + (5 - (end_ - start)))
              else end_ in
  (start, end_).

(** The list [ranges] after the loop over [enumerate(sentences)]. *)
Definition match_windows (num : Str) (sentences : list Str) : list (Z * Z) :=
  let total := Z.of_nat (List.length sentences) in
  flat_map (fun si => if mentions num (fst si)
                      then [window total (Z.of_nat (snd si))] else [])
           (enumerate_from 0 sentences).

(** Python's order on pairs of integers. *)
Definition key_ZZ_lt (a b : Z * Z) : bool :=
  (fst a <? fst b)%Z || ((fst a =? fst b)%Z && (snd a <? snd b)%Z).

(** One turn of the loop over [sorted(ranges)]: [r] is appended, or widens
    [merged[-1]]. *)
Fixpoint merge_range (merged : list (Z * Z)) (r : Z * Z) : list (Z * Z) :=
  match merged with
  | [] => [r]
  | [(ps, pe)] =>
      let (cs, ce) := r in
      if (cs <=? pe)%Z then [(ps, Z.max pe ce)] else [(ps, pe); r]
  | x :: rest => x :: merge_range rest r
  end.

Definition merge_ranges (ranges : list (Z * Z)) : list (Z * Z) :=
  fold_left merge_range (sorted key_ZZ_lt ranges) [].

(** [l[s:e]] for indices that are not negative. *)
Definition slice {A : Type} (l : list A) (s e : Z) : list A :=
  firstn (Z.to_nat e - Z.to_nat s) (skipn (Z.to_nat s) l).

(** The value stored under ["contexts"] for one figure. *)
Definition contexts_of (is_decimal : N -> bool) (sentences : list Str)
  (fig : Figure) : list Str :=
  let ranges :=
    match first_number is_decimal
            (fig_origin_id fig ++ py " " ++ fig_caption fig) with
    | Some num => match_windows num sentences
    | None => []
    end in
  map (fun r => join (py " ") (slice sentences (fst r) (snd r)))
      (merge_ranges ranges).

Definition set_contexts (fig : Figure) (ctx : list Str) : Figure :=
  mkFigure (fig_origin_id fig) (fig_page fig) (fig_caption fig)
           (fig_width fig) (fig_height fig) (fig_phash fig) (Some ctx).

Definition find_contexts (is_decimal : N -> bool) (figs : list Figure)
  (full_text : Str) : list Figure :=
  let sentences := split_sentences full_text in
  map (fun fig => set_contexts fig (contexts_of is_decimal sentences fig)) figs.

(* ================================================================= *)
(** ** Orchestration *)

(** A directory entry of [PDF_DIR] as the two readers see it.
    [pdf_reader] is [PdfReader(path).pages] with, for each page, the result of
    [extract_text()] ([None] when it raises or returns nothing); [pdf_plumber]
    is [pdfplumber.open(path).pages].  [None] at the top means that the file
    cannot be opened or decoded: the constructor raises.  A [Some] stands
    for a file whose pages can all be read; creating the output directory
    and writing the JSON file are taken to succeed.  The script can raise
    outside a [try] at those places too ([reader.pages], the reads of a page
    before the candidate loop, [os.makedirs], [json.dump]), and the model
    does not follow these exceptions: what holds of every successful run is
    stated under the hypothesis that the run succeeded. *)
Record PdfFile : Type := mkPdfFile {
  pdf_name : Str;
  pdf_reader : option (list (option Str));
  pdf_plumber : option (list Page)
}.

Inductive Failure : Type := ReaderRaised | PlumberRaised.

(** [extract_text]: the joined text of the pages, a page that fails
    contributing the empty string. *)
Definition extract_text (pages : list (option Str)) : Str :=
  join (py (String (ascii_of_nat 10) EmptyString))
       (map (fun t => match t with Some x => x | None => [] end) pages).

(** Index of the last [.] of [name], if any. *)
Fixpoint rfind_dot (name : Str) (pos : nat) (found : option nat) : option nat :=
  match name with
  | [] => found
  | c :: r => rfind_dot r (S pos) (if (c =? 46)%N then Some pos else found)
  end.

(** [Path(name).stem] for a bare file name. *)
Definition stem (name : Str) : Str :=
  match rfind_dot name 0 None with
  | Some i => if (0 <? i)%nat && (i <? List.length name - 1)%nat
              then firstn i name else name
  | None => name
  end.

(** [name.lower().endswith('.pdf')]. *)
Definition is_pdf_name (name : Str) : bool :=
  let n := List.length name in
  str_eqb (map lower_char (skipn (n - 4) name)) (py ".pdf") && (4 <=? n)%nat.

(** The JSON document written by [process_pdf], and what was printed while
    extracting. *)
Record Output : Type := mkOutput {
  paper_id : Str;
  out_figures : list Figure;
  out_printed : list LogMsg
}.

(** [process_pdf]: the document written, or the exception that escapes. *)
Definition process_pdf (cfg : Config) (is_decimal : N -> bool) (f : PdfFile)
  : Output + Failure :=
  match pdf_reader f with
  | None => inr ReaderRaised
  | Some text_pages =>
      let full_text := extract_text text_pages in
      match pdf_plumber f with
      | None => inr PlumberRaised
      | Some pages =>
          let st := extract_images_and_captions cfg pages in
          inl (mkOutput (stem (pdf_name f))
                        (find_contexts is_decimal (figures st) full_text)
                        (printed st))
      end
  end.

(** What a run of the script leaves: the documents written, in order, and
    the uncaught exception that ended it, if any, with the file it came
    from. *)
Record Run : Type := mkRun {
  written : list Output;
  uncaught : option (Str * Failure)
}.

(** The loop under [if __name__ == "__main__"] over [os.listdir(PDF_DIR)]. *)
Fixpoint main (cfg : Config) (is_decimal : N -> bool) (listing : list PdfFile)
  : Run :=
  match listing with
  | [] => mkRun [] None
  | f :: rest =>
      if is_pdf_name (pdf_name f) then
        match process_pdf cfg is_decimal f with
        | inl out =>
            let r := main cfg is_decimal rest in
            mkRun (out :: written r) (uncaught r)
        | inr e => mkRun [] (Some (pdf_name f, e))
        end
      else main cfg is_decimal rest
  end.

(* ================================================================= *)
(** ** Predicates and example inputs used by the properties *)

(** Any two entries of a list of hashes differ in more than
    [HASH_THRESHOLD] bits. *)
Definition pairwise_far (cfg : Config) (hashes : list N) : Prop :=
  forall i j a b, (i < j)%nat ->
    nth_error hashes i = Some a -> nth_error hashes j = Some b ->
    (HASH_THRESHOLD cfg < hash_distance a b)%Z.

Definition large_enough (cfg : Config) (fig : Figure) : Prop :=
  (MIN_IMG_WIDTH cfg <= fig_width fig)%Z
  /\ (MIN_IMG_HEIGHT cfg <= fig_height fig)%Z.

(** What holds of the state of the extraction loop at every moment: the
    ledger lists the hashes of the records emitted so far, in order; they are
    pairwise far apart; every record is large enough. *)
Definition state_ok (cfg : Config) (st : ExtractState) : Prop :=
  kept_hashes st = map fig_phash (figures st)
  /\ pairwise_far cfg (kept_hashes st)
  /\ Forall (large_enough cfg) (figures st).

(** Every candidate contains the boxes it has absorbed, and every box read
    so far sits in some candidate. *)
Definition merger_invariant (boxes : list BBox) (n : nat) (st : list Traced)
  : Prop :=
  (forall c k, In c st -> In k (snd c) ->
               exists b, nth_error boxes k = Some b /\ bbox_within b (fst c))
  /\ (forall k, (k < n)%nat -> exists c, In c st /\ In k (snd c)).

(** A 600 x 800 page holding one raster image at [fig_box], the given words,
    and a renderer that returns [img] whatever the box. *)
Definition fig_box : BBox := mkBBox 100 100 300 300.

Definition sample_page (words : list Word) (img : Image) : Page :=
  mkPage (mkBBox 0 0 600 800) 600 800 words [fig_box] [] [] []
         (fun _ => Some img).

Definition word_at (text : string) (x0 x1 : Q) : Word :=
  mkWord (py text) x0 x1 310 320.

(** A line of text just below [fig_box] whose first word ends a sentence. *)
Definition words_fig_dot : list Word :=
  [word_at "Fig." 100 120; word_at "1" 124 130; word_at "shows" 140 170;
   word_at "it" 171 180].

(** A labelled caption just below [fig_box]. *)
Definition words_figure_3 : list Word :=
  [word_at "Figure" 100 130; word_at "3" 134 140; word_at "Overview" 144 190].

(** Rendered images: an ordinary one, a second one far from it in hash, a
    third one 1 bit from the first, and one below the minimum size. *)
Definition image_plain : Image := mkImage 500 500 50 0.
Definition image_other : Image := mkImage 500 500 50 255.
Definition image_near : Image := mkImage 500 500 50 1.
Definition image_small : Image := mkImage 150 90 50 0.

(** A document of four pages: two distinct figures, a near copy of the
    first, and a figure rendered too small. *)
Definition sample_document : list Page :=
  [sample_page words_fig_dot image_plain;
   sample_page words_figure_3 image_other;
   sample_page [] image_near;
   sample_page words_figure_3 image_small].

(** A labelled caption of 5300 characters, and a short unlabelled one. *)
Definition long_labelled : Str := py "Figure 1 " ++ repeat 120%N (Z.to_nat 5291).
Definition short_plain : Str := py "plain text".

(** Position of a side in the insertion order of [regions]. *)
Definition side_index (side : Side) : nat :=
  match side with Bottom => 0 | Top => 1 | Right => 2 | Left => 3 end.

Definition side_before (s1 s2 : Side) : Prop :=
  (side_index s1 < side_index s2)%nat.

(** Unlabelled text of the same length above and below [fig_box]. *)
Definition words_both_sides : list Word :=
  [mkWord (py "above") 100 130 80 90; mkWord (py "the") 134 150 80 90;
   mkWord (py "figure") 154 190 80 90;
   word_at "below" 100 130; word_at "the" 134 150; word_at "figure" 154 190].

(** [merge_range] seen from the end of the list: the same turn of the loop on
    the reversed list, where [merged[-1]] is the head. *)
Definition merge_range_rev (racc : list (Z * Z)) (r : Z * Z) : list (Z * Z) :=
  match racc with
  | [] => [r]
  | (ps, pe) :: rest =>
      let (cs, ce) := r in
      if (cs <=? pe)%Z then (ps, Z.max pe ce) :: rest
      else r :: (ps, pe) :: rest
  end.

(** Sentence [x] lies in one of the half-open ranges of [l]. *)
Definition covered (x : Z) (l : list (Z * Z)) : Prop :=
  exists r, In r l /\ (fst r <= x < snd r)%Z.

(** A non-empty range of sentence indices of a document. *)
Definition within_doc (total : Z) (r : Z * Z) : Prop :=
  (0 <= fst r /\ fst r < snd r /\ snd r <= total)%Z.

(** The order in which [sorted(ranges)] leaves two ranges. *)
Definition range_le (a b : Z * Z) : Prop := key_ZZ_lt b a = false.

(** What the reversed list of merged ranges satisfies all along: neighbours
    are separated by a gap, and every range lies within the document. *)
Definition gapped_rev (total : Z) (racc : list (Z * Z)) : Prop :=
  Sorted (fun b a => (snd a < fst b)%Z) racc
  /\ Forall (within_doc total) racc.

(** A document of 20 sentences of which only the last mentions figure 1, and
    a record for that figure. *)
Definition twenty_sentences : list Str :=
  repeat (py "Filler sentence.") 19 ++ [py "See Figure 1 for details."].

Definition figure_one : Figure :=
  mkFigure (py "FIGURE 1") 1 (py "Figure 1.") 500 500 0 None.

(** The same document as one text, and a document of three sentences whose
    middle one mentions figure 1. *)
Definition twenty_text : Str := join (py " ") twenty_sentences.

Definition three_sentences : list Str :=
  [py "Intro."; py "See Figure 1."; py "End."].

(** Two entries of [PDF_DIR]: a file that no reader can open, and a sound
    one-page document. *)
Definition unreadable_pdf : PdfFile := mkPdfFile (py "a.pdf") None None.

Definition readable_pdf : PdfFile :=
  mkPdfFile (py "b.pdf") (Some [Some (py "Intro. See Figure 3 here. End.")])
            (Some [sample_page words_figure_3 image_other]).

(* ================================================================= *)
(** ** More of the script: helpers outside the main loop *)

Definition _bbox_center (b : BBox) : Q * Q :=
  ((bx0 b + bx1 b) * 0.5, (by0 b + by1 b) * 0.5).

(** The two boxes share a point: their spans meet on both axes. *)
Definition boxes_meet (a b : BBox) : Prop :=
  bx0 b <= bx1 a /\ bx0 a <= bx1 b /\ by0 b <= by1 a /\ by0 a <= by1 b.

(** The thresholds of the type heuristics. *)
Definition CHART_LINE_MIN : Z := 6.
Definition BAR_RECT_MIN : Z := 3.
Definition GRID_HV_MIN : Z * Z := (3, 3)%Z.

Definition _is_likely_chart (stats : Stats) : bool :=
  (CHART_LINE_MIN <=? st_lines stats + st_curves stats)%Z.

Definition _is_likely_barchart (stats : Stats) : bool :=
  (BAR_RECT_MIN <=? st_rects stats)%Z.

Definition _is_likely_table (stats : Stats) : bool :=
  (fst GRID_HV_MIN + snd GRID_HV_MIN <=? st_lines stats)%Z
  || ((fst GRID_HV_MIN <=? st_lines stats)%Z
      && (snd GRID_HV_MIN <=? st_rects stats)%Z).

(** The characters [_sanitize_for_filename] replaces: backslash, slash,
    star, question mark, colon, double quote, angle brackets and bar. *)
Definition is_forbidden (c : N) : bool :=
  existsb (N.eqb c) [92; 47; 42; 63; 58; 34; 60; 62; 124]%N.

Definition _sanitize_for_filename (name : Str) : Str :=
  map (fun c => if is_forbidden c then 95%N else c) name.

Fixpoint starts_with (pat s : Str) : bool :=
  match pat, s with
  | [], _ => true
  | p :: pat', c :: s' => (p =? c)%N && starts_with pat' s'
  | _ :: _, [] => false
  end.

(** [s.replace(old, new)] for a non-empty [old]: occurrences are replaced
    from the left and do not overlap; [skip] counts the characters of an
    occurrence still to pass over. *)
Fixpoint replace_from (old new : Str) (skip : nat) (s : Str) : Str :=
  match s with
  | [] => []
  | c :: r =>
      match skip with
      | S k => replace_from old new k r
      | O => if starts_with old s
             then new ++ replace_from old new (List.length old - 1) r
             else c :: replace_from old new 0 r
      end
  end.

Definition str_replace (old new s : Str) : Str := replace_from old new 0 s.

(** The label words of the third pattern of [_normalize_label_for_filename],
    in the order in which the engine tries them. *)
Definition english_alternatives : list Str :=
  [py "Fig."; py "Figure"; py "Fig"; py "Figs"; py "Fig"; py "Table";
   py "Tab."; py "Tab"].

(** That pattern, anchored at both ends, matches [prefix]; the closing
    anchor also accepts one final newline. *)
Definition is_english_label (prefix : Str) : bool :=
  existsb (fun alt =>
             match match_literal_ci alt prefix with
             | Some (_, []) => true
             | Some (_, [c]) => (c =? 10)%N
             | _ => false
             end) english_alternatives.

Definition _normalize_label_for_filename (caption : Str) : Str :=
  match caption with
  | [] => []
  | _ =>
      match LABEL_REGEX_match caption with
      | None => []
      | Some number =>
          match label_prefix caption with
          | None => []
          | Some prefix =>
              if is_english_label prefix then
                let prefix_norm :=
                  str_replace (py "TAB.") (py "TABLE")
                    (str_replace (py "FIG.") (py "FIG") (upper prefix)) in
                let prefix_norm :=
                  if str_eqb prefix_norm (py "FIGS") then py "FIGURES"
                  else prefix_norm in
                prefix_norm ++ py " " ++ number
              else prefix ++ py " " ++ number
          end
      end
  end.

(** [file_tail] and [img_name] of lines 385-391. *)
Definition file_tail (caption origin_id : Str) : Str :=
  let label_for_name := _normalize_label_for_filename caption in
  if nonempty label_for_name then _sanitize_for_filename label_for_name
  else _sanitize_for_filename origin_id.

Definition img_name (stem_ : Str) (page_num : nat) (caption origin_id : Str)
  : Str :=
  stem_ ++ py "_p" ++ str_of_nat page_num ++ py "_"
  ++ file_tail caption origin_id ++ py ".png".

(** The list [primitives] of [_gather_graphic_boxes], one turn of its loop,
    and the list [clusters] before the size filter. *)
Definition page_primitives (page : Page) : list (BBox * Stats) :=
  map (fun b => (b, mkStats 1 0 0)) (page_lines page)
  ++ map (fun b => (b, mkStats 0 1 0)) (page_rects page)
  ++ map (fun b => (b, mkStats 0 0 1)) (page_curves page).

Definition cluster_step (cfg : Config) (clusters : list (BBox * Stats))
  (p : BBox * Stats) : list (BBox * Stats) :=
  match absorb_primitive cfg (fst p) (snd p) clusters with
  | Some merged => merged
  | None => clusters ++ [p]
  end.

Definition graphic_clusters (cfg : Config) (page : Page)
  : list (BBox * Stats) :=
  fold_left (cluster_step cfg) (page_primitives page) [].

(** Primitive counts summed over a list of clusters. *)
Definition stats_total (clusters : list (BBox * Stats)) : Stats :=
  fold_right (fun c acc => stats_add (snd c) acc) (mkStats 0 0 0) clusters.

(** The records of a list are in page order, with pages between 1 and [n]. *)
Definition paged_upto (n : nat) (figs : list Figure) : Prop :=
  StronglySorted (fun a b => (fig_page a <= fig_page b)%nat) figs
  /\ Forall (fun f => (1 <= fig_page f <= n)%nat) figs.

(** The number of candidates of a document. *)
Definition candidate_count (cfg : Config) (pages : list Page) : nat :=
  list_sum (map (fun p => List.length (page_candidates cfg p)) pages).

(** No box of the list passes the merge test with a box read before it. *)
Definition all_apart (boxes : list BBox) : Prop :=
  ForallOrdPairs (fun a b => merge_test b a = false) boxes.

(** Example inputs: a box reaching over the right edge of a 600 x 800 page,
    a second box far from [fig_box], and a page without words whose render
    fails. *)
Definition box_over_edge : BBox := mkBBox 500 100 700 300.
Definition page_box : BBox := mkBBox 0 0 600 800.
Definition far_box : BBox := mkBBox 400 500 500 700.

Definition unrenderable_page : Page :=
  mkPage page_box 600 800 [] [fig_box] [] [] [] (fun _ => None).

Definition blank_page : Page :=
  mkPage page_box 600 800 [] [] [] [] [] (fun _ => None).

(** The renderer of the page raises whatever the box. *)
Definition never_renders (page : Page) : Prop :=
  forall b, page_render page b = None.

Definition is_warning (m : LogMsg) : Prop := exists n, m = WarnFailed n.

(** A directory entry that is no PDF and cannot be read. *)
Definition notes_file : PdfFile := mkPdfFile (py "notes.txt") None None.

(* ================================================================= *)
(** ** The Content Classifier in the words of the specification *)

(** The box of a word. *)
Definition word_box (w : Word) : BBox :=
  mkBBox (w_x0 w) (w_top w) (w_x1 w) (w_bottom w).

(** The areas of the words lying inside the box, summed. *)
Definition word_area_sum (words : list Word) (box : BBox) : Q :=
  fold_right (fun w acc => _bbox_area (word_box w) + acc) 0
             (_words_in_rect words box).

(** The text-coverage ratio: that sum over the area of the box, capped at
    1. *)
Definition text_coverage (words : list Word) (box : BBox) : Q :=
  Qmin 1 (word_area_sum words box / _bbox_area box).

(** The edge density: the mean edge intensity, brought from 0..255 to
    0..1. *)
Definition edge_density (img : Image) : Q := img_edge_mean img / 255.

(** The statistics that match a candidate box: those of the first cluster of
    the list that is less than 5 units away from the box. *)
Definition matching_stats (box : BBox) (clusters : list (BBox * Stats))
  (s : Stats) : Prop :=
  exists before g after,
    clusters = before ++ g :: after
    /\ snd g = s
    /\ _bbox_dist_sq box (fst g) < 25
    /\ Forall (fun g' => 25 <= _bbox_dist_sq box (fst g')) before.

(** The loop body was left at the plain-text test: one line printed, nothing
    else changed. *)
Definition rejected_as_plain_text (st st' : ExtractState) : Prop :=
  exists origin_id text_ratio edge_score,
    st' = say st (SkipPlainText origin_id text_ratio edge_score).

(** Example inputs: a word covering three quarters of [fig_box], a rendered
    image with few edges, and a cluster of six lines on [fig_box]. *)
Definition words_body : list Word := [mkWord (py "text") 100 300 100 250].
Definition image_flat : Image := mkImage 500 500 10 0.
Definition cluster_of_lines : list (BBox * Stats) := [(fig_box, mkStats 6 0 0)].

(* ################################################################# *)
(** * Properties *)

(* ================================================================= *)
(** ** Rationals and boxes *)

Lemma Qltb_lt (x y : Q) : Qltb x y = true <-> x < y.
Proof.
  unfold Qltb. rewrite negb_true_iff.
  split; intro H.
  - apply Qnot_le_lt. intro Hle. apply Qle_bool_iff in Hle. congruence.
  - destruct (Qle_bool y x) eqn:E; [|reflexivity].
    apply Qle_bool_iff in E. exfalso. apply (Qlt_not_le _ _ H E).
Qed.

Lemma Qltb_ge (x y : Q) : Qltb x y = false <-> y <= x.
Proof.
  unfold Qltb. rewrite negb_false_iff. apply Qle_bool_iff.
Qed.

(** Case analysis on every [Qmax] and [Qmin] in sight. *)
Ltac split_minmax :=
  unfold Qmax, Qmin, GenericMinMax.gmax, GenericMinMax.gmin in *;
  repeat match goal with
         | |- context [ Qcompare ?a ?b ] =>
             destruct (Qcompare_spec a b)
         | H : context [ Qcompare ?a ?b ] |- _ =>
             destruct (Qcompare_spec a b)
         end.

Lemma Qmax0_nonneg (x : Q) : 0 <= Qmax 0 x.
Proof. split_minmax; lra. Qed.

Lemma Qmax0_pos (x : Q) : 0 < Qmax 0 x -> 0 < x.
Proof. split_minmax; lra. Qed.

Lemma Qmult_pos_factors (a b : Q) : 0 <= a -> 0 <= b -> 0 < a * b -> 0 < a /\ 0 < b.
Proof.
  intros Ha Hb Hab.
  split.
  - destruct (Qlt_le_dec 0 a) as [|Hle]; [assumption|].
    assert (a == 0) as E by lra. rewrite E in Hab. lra.
  - destruct (Qlt_le_dec 0 b) as [|Hle]; [assumption|].
    assert (b == 0) as E by lra. rewrite E in Hab. lra.
Qed.

Lemma inter_area_nonneg (a b : BBox) : 0 <= inter_area a b.
Proof.
  unfold inter_area. apply Qmult_le_0_compat; apply Qmax0_nonneg.
Qed.

(** A ratio above 0.3 needs a positive overlap. *)
Lemma iou_overlap (a b : BBox) : 0.3 < iou a b -> 0 < inter_area a b.
Proof.
  intro H.
  destruct (Qlt_le_dec 0 (inter_area a b)) as [|Hle]; [assumption|].
  exfalso.
  assert (inter_area a b == 0) as E
    by (pose proof (inter_area_nonneg a b); lra).
  unfold iou in H. cbv zeta in H. rewrite E in H.
  unfold Qdiv in H. rewrite Qmult_0_l in H. lra.
Qed.

(** Boxes that overlap on a positive area really interleave on both axes. *)
Lemma overlap_interleaved (a b : BBox) :
  0 < inter_area a b ->
  bx0 a < bx1 b /\ bx0 b < bx1 a /\ by0 a < by1 b /\ by0 b < by1 a.
Proof.
  unfold inter_area. cbv zeta. intro H.
  apply Qmult_pos_factors in H; try apply Qmax0_nonneg.
  destruct H as [Hx Hy].
  apply Qmax0_pos in Hx. apply Qmax0_pos in Hy.
  split_minmax; repeat split; lra.
Qed.

(** A box overlapping [a] is at distance zero of whatever contains [a]. *)
Lemma overlap_touches_container (b a ca : BBox) :
  0 < inter_area b a -> bbox_within a ca -> _bbox_dist_sq b ca == 0.
Proof.
  intros H (H0 & H1 & H2 & H3).
  apply overlap_interleaved in H. destruct H as (Ha & Hb & Hc & Hd).
  unfold _bbox_dist_sq. cbv zeta.
  assert (Qmax 0 (Qmax (bx0 ca - bx1 b) (bx0 b - bx1 ca)) == 0) as Ex
    by (split_minmax; lra).
  assert (Qmax 0 (Qmax (by0 ca - by1 b) (by0 b - by1 ca)) == 0) as Ey
    by (split_minmax; lra).
  rewrite Ex, Ey. lra.
Qed.

Lemma overlap_passes_test (b a ca : BBox) :
  0 < inter_area b a -> bbox_within a ca -> merge_test b ca = true.
Proof.
  intros H Hin. unfold merge_test, _bbox_dist_lt.
  apply orb_true_iff. right. apply andb_true_iff. split.
  - apply Qltb_lt. lra.
  - apply Qltb_lt. rewrite (overlap_touches_container _ _ _ H Hin). lra.
Qed.

Lemma within_refl (a : BBox) : bbox_within a a.
Proof. unfold bbox_within. repeat split; apply Qle_refl. Qed.

Lemma within_union_l (a c b : BBox) :
  bbox_within a c -> bbox_within a (_bbox_union c b).
Proof.
  unfold bbox_within, _bbox_union. simpl. intros (H0 & H1 & H2 & H3).
  split_minmax; repeat split; lra.
Qed.

Lemma within_union_r (c b : BBox) : bbox_within b (_bbox_union c b).
Proof.
  unfold bbox_within, _bbox_union. simpl.
  split_minmax; repeat split; lra.
Qed.

(* ================================================================= *)
(** ** Candidate Merger *)

(** Forgetting the remembered positions gives back the merger itself. *)
Lemma absorb_traced_boxes (b : BBox) (k : nat) (l : list Traced) :
  option_map (map fst) (absorb_traced b k l) = absorb b (map fst l).
Proof.
  induction l as [|[cb ks] rest IH]; simpl; [reflexivity|].
  destruct (merge_test b cb); simpl; [reflexivity|].
  rewrite <- IH. destruct (absorb_traced b k rest); reflexivity.
Qed.

Lemma fold_box_traced_boxes (l : list Traced) (bk : BBox * nat) :
  map fst (fold_box_traced l bk) = fold_box (map fst l) (fst bk).
Proof.
  unfold fold_box_traced, fold_box.
  rewrite <- (absorb_traced_boxes (fst bk) (snd bk) l).
  destruct (absorb_traced (fst bk) (snd bk) l); simpl; [reflexivity|].
  rewrite map_app. reflexivity.
Qed.

Lemma merge_traced_boxes (boxes : list BBox) :
  map fst (merge_traced boxes) = merge_candidates boxes.
Proof.
  unfold merge_traced, merge_candidates.
  change (@nil BBox) with (map fst (@nil Traced)).
  generalize (@nil Traced) as acc. generalize 0%nat as start.
  induction boxes as [|b rest IH]; intros start acc; simpl; [reflexivity|].
  rewrite IH, fold_box_traced_boxes. reflexivity.
Qed.

(** What the inner loop does, read off its result. *)
Lemma absorb_traced_some (b : BBox) (k : nat) (l l' : list Traced) :
  absorb_traced b k l = Some l' ->
  exists l1 cb ks l2,
    l = l1 ++ (cb, ks) :: l2 /\
    (forall c, In c l1 -> merge_test b (fst c) = false) /\
    merge_test b cb = true /\
    l' = l1 ++ (_bbox_union cb b, ks ++ [k]) :: l2.
Proof.
  revert l'. induction l as [|[cb ks] rest IH]; intros l' H; simpl in H.
  - discriminate.
  - destruct (merge_test b cb) eqn:E.
    + inversion H; subst. exists [], cb, ks, rest. simpl.
      repeat split; auto. intros c [].
    + destruct (absorb_traced b k rest) as [m|] eqn:Er; [|discriminate].
      simpl in H. inversion H; subst.
      destruct (IH m eq_refl) as (l1 & cb' & ks' & l2 & -> & Hf & Ht & ->).
      exists ((cb, ks) :: l1), cb', ks', l2. simpl.
      repeat split; auto. intros c [<-|Hc]; auto.
Qed.

Lemma absorb_traced_none (b : BBox) (k : nat) (l : list Traced) :
  absorb_traced b k l = None ->
  forall c, In c l -> merge_test b (fst c) = false.
Proof.
  induction l as [|[cb ks] rest IH]; intros H c Hc; simpl in *.
  - contradiction.
  - destruct (merge_test b cb) eqn:E; [discriminate|].
    destruct (absorb_traced b k rest); [discriminate|].
    destruct Hc as [<-|Hc]; auto.
Qed.

(** The first candidate passing the test is the one that absorbs. *)
Lemma absorb_traced_first (b : BBox) (k : nat) (l1 l2 : list Traced)
  (cb : BBox) (ks : list nat) :
  (forall c, In c l1 -> merge_test b (fst c) = false) ->
  merge_test b cb = true ->
  absorb_traced b k (l1 ++ (cb, ks) :: l2)
  = Some (l1 ++ (_bbox_union cb b, ks ++ [k]) :: l2).
Proof.
  induction l1 as [|[c0 k0] l1 IH]; intros Hf Ht; simpl.
  - rewrite Ht. reflexivity.
  - pose proof (Hf (c0, k0) (or_introl eq_refl)) as H0. simpl in H0.
    rewrite H0. rewrite IH; auto. intros c Hc. apply Hf. right. exact Hc.
Qed.

Lemma enumerate_from_app {A : Type} (l1 l2 : list A) (start : nat) :
  enumerate_from start (l1 ++ l2)
  = enumerate_from start l1 ++ enumerate_from (start + List.length l1) l2.
Proof.
  revert start. induction l1 as [|x l1 IH]; intro start; simpl.
  - rewrite Nat.add_0_r. reflexivity.
  - rewrite IH. do 3 f_equal. lia.
Qed.

(** Splitting the input at position [j]. *)
Lemma nth_error_split_at {A : Type} (l : list A) (j : nat) (x : A) :
  nth_error l j = Some x ->
  l = firstn j l ++ x :: skipn (S j) l /\ List.length (firstn j l) = j.
Proof.
  revert j. induction l as [|y l IH]; intros [|j] H; simpl in *;
    try discriminate.
  - inversion H. auto.
  - destruct (IH j H) as [E L]. split; [f_equal; exact E | f_equal; exact L].
Qed.

Lemma merge_traced_step (boxes : list BBox) (j : nat) (bj : BBox) :
  nth_error boxes j = Some bj ->
  merge_traced boxes
  = fold_left fold_box_traced (enumerate_from (S j) (skipn (S j) boxes))
      (fold_box_traced (merge_traced (firstn j boxes)) (bj, j)).
Proof.
  intro H. destruct (nth_error_split_at _ _ _ H) as [E L].
  unfold merge_traced at 1. rewrite E at 1.
  rewrite enumerate_from_app, fold_left_app. simpl.
  rewrite L. reflexivity.
Qed.

Lemma merger_invariant_step (boxes : list BBox) (n : nat) (st : list Traced)
  (b : BBox) :
  nth_error boxes n = Some b ->
  merger_invariant boxes n st ->
  merger_invariant boxes (S n) (fold_box_traced st (b, n)).
Proof.
  intros Hb [Hin Hall]. unfold fold_box_traced. simpl.
  destruct (absorb_traced b n st) as [m|] eqn:E.
  - apply absorb_traced_some in E.
    destruct E as (l1 & cb & ks & l2 & -> & _ & _ & ->).
    split.
    + intros c k Hc Hk. apply in_app_or in Hc.
      destruct Hc as [Hc|[<-|Hc]].
      * apply (Hin c k); auto. apply in_or_app. auto.
      * simpl in *. apply in_app_or in Hk. destruct Hk as [Hk|[<-|[]]].
        -- destruct (Hin (cb, ks) k) as (b' & Hb' & Hw); auto.
           { apply in_or_app. right. left. reflexivity. }
           exists b'. split; auto. apply within_union_l. exact Hw.
        -- exists b. split; auto. apply within_union_r.
      * apply (Hin c k); auto. apply in_or_app. right. right. exact Hc.
    + intros k Hk. destruct (Nat.eq_dec k n) as [->|Hne].
      * exists (_bbox_union cb b, ks ++ [n]). split.
        -- apply in_or_app. right. left. reflexivity.
        -- simpl. apply in_or_app. right. left. reflexivity.
      * destruct (Hall k) as (c & Hc & Hkc); [lia|].
        apply in_app_or in Hc. destruct Hc as [Hc|[<-|Hc]].
        -- exists c. split; auto. apply in_or_app. auto.
        -- exists (_bbox_union cb b, ks ++ [n]). split.
           ++ apply in_or_app. right. left. reflexivity.
           ++ simpl. apply in_or_app. left. exact Hkc.
        -- exists c. split; auto. apply in_or_app. right. right. exact Hc.
  - split.
    + intros c k Hc Hk. apply in_app_or in Hc. destruct Hc as [Hc|[<-|[]]].
      * apply (Hin c k); auto.
      * simpl in Hk. destruct Hk as [<-|[]]. exists b. split; auto.
        apply within_refl.
    + intros k Hk. destruct (Nat.eq_dec k n) as [->|Hne].
      * exists (b, [n]). split; [apply in_or_app; right; left; reflexivity|].
        simpl. auto.
      * destruct (Hall k) as (c & Hc & Hkc); [lia|].
        exists c. split; auto. apply in_or_app. auto.
Qed.

Lemma merger_invariant_prefix (boxes : list BBox) (n : nat) :
  (n <= List.length boxes)%nat ->
  merger_invariant boxes n (merge_traced (firstn n boxes)).
Proof.
  induction n as [|n IH]; intro Hn.
  - split; [intros c k []|intros k Hk; lia].
  - destruct (nth_error boxes n) as [b|] eqn:Hb.
    2: { apply nth_error_None in Hb. lia. }
    assert (nth_error (firstn (S n) boxes) n = Some b) as Hb'.
    { rewrite nth_error_firstn. destruct (Nat.ltb_spec n (S n)); [exact Hb|lia]. }
    rewrite (merge_traced_step _ _ _ Hb').
    rewrite firstn_firstn, Nat.min_l by lia.
    replace (skipn (S n) (firstn (S n) boxes)) with (@nil BBox).
    2: { symmetry. apply skipn_all2. rewrite length_firstn. lia. }
    simpl. apply merger_invariant_step; auto. apply IH. lia.
Qed.

(** Two positions that share a candidate keep sharing one. *)
Lemma together_step (i j : nat) (st : list Traced) (bk : BBox * nat) :
  (exists c, In c st /\ In i (snd c) /\ In j (snd c)) ->
  exists c, In c (fold_box_traced st bk) /\ In i (snd c) /\ In j (snd c).
Proof.
  intros (c & Hc & Hi & Hj). unfold fold_box_traced.
  destruct (absorb_traced (fst bk) (snd bk) st) as [m|] eqn:E.
  - apply absorb_traced_some in E.
    destruct E as (l1 & cb & ks & l2 & -> & _ & _ & ->).
    apply in_app_or in Hc. destruct Hc as [Hc|[<-|Hc]].
    + exists c. split; auto. apply in_or_app. auto.
    + exists (_bbox_union cb (fst bk), ks ++ [snd bk]). simpl in *.
      split; [apply in_or_app; right; left; reflexivity|].
      split; apply in_or_app; left; assumption.
    + exists c. split; auto. apply in_or_app. right. right. exact Hc.
  - exists c. split; auto. apply in_or_app. auto.
Qed.

Lemma together_fold (i j : nat) (l : list (BBox * nat)) (st : list Traced) :
  (exists c, In c st /\ In i (snd c) /\ In j (snd c)) ->
  exists c, In c (fold_left fold_box_traced l st)
            /\ In i (snd c) /\ In j (snd c).
Proof.
  revert st. induction l as [|bk l IH]; intros st H; simpl; [exact H|].
  apply IH. apply together_step. exact H.
Qed.

Lemma overlap_factor_sym (x y u v : Q) :
  Qmax 0 (Qmin x y - Qmax u v) == Qmax 0 (Qmin y x - Qmax v u).
Proof. split_minmax; lra. Qed.

Lemma inter_area_sym (a b : BBox) : inter_area a b == inter_area b a.
Proof.
  unfold inter_area. cbv zeta.
  rewrite (overlap_factor_sym (bx1 a) (bx1 b) (bx0 a) (bx0 b)).
  rewrite (overlap_factor_sym (by1 a) (by1 b) (by0 a) (by0 b)).
  reflexivity.
Qed.

(** Two boxes alone on a page, overlapping with a ratio above 0.3, give one
    candidate: their union. *)
Lemma two_overlapping_boxes_merge (a b : BBox) :
  0.3 < iou a b -> merge_candidates [a; b] = [_bbox_union a b].
Proof.
  intro H. unfold merge_candidates, fold_box. simpl.
  rewrite (overlap_passes_test b a a); [reflexivity| |apply within_refl].
  rewrite inter_area_sym. apply iou_overlap. exact H.
Qed.

(** C3, as the merger behaves.  Let input boxes [i] and [j], [i] read first,
    have an intersection-over-union above 0.3, and look at the candidate list
    just before box [j] is folded in (the traced lists carry the boxes of the
    merger itself).  Then: some candidate holds box [i]; every candidate
    holding box [i] passes the merge test with box [j]; box [j] is unioned
    into the first candidate of the list that passes the test and is not
    appended as a candidate of its own; and when the candidate holding box
    [i] has no candidate before it that passes the test, boxes [i] and [j]
    end in one candidate of the final list. *)
Theorem overlapping_box_joins_first_match
  (boxes : list BBox) (i j : nat) (bi bj : BBox) :
  (i < j)%nat ->
  nth_error boxes i = Some bi ->
  nth_error boxes j = Some bj ->
  0.3 < iou bi bj ->
  let before := merge_traced (firstn j boxes) in
  map fst before = merge_candidates (firstn j boxes)
  /\ map fst (merge_traced boxes) = merge_candidates boxes
  /\ (exists c, In c before /\ In i (snd c))
  /\ (forall c, In c before -> In i (snd c) -> merge_test bj (fst c) = true)
  /\ (exists l1 cb ks l2,
         before = l1 ++ (cb, ks) :: l2
         /\ (forall c, In c l1 -> merge_test bj (fst c) = false)
         /\ merge_test bj cb = true
         /\ fold_box_traced before (bj, j)
            = l1 ++ (_bbox_union cb bj, ks ++ [j]) :: l2)
  /\ (forall l1 c l2,
         before = l1 ++ c :: l2 -> In i (snd c) ->
         (forall c', In c' l1 -> merge_test bj (fst c') = false) ->
         same_candidate boxes i j).
Proof.
  intros Hij Hi Hj Hiou before.
  assert (j < List.length boxes)%nat as Hlen
    by (apply nth_error_Some; congruence).
  destruct (merger_invariant_prefix boxes j) as [Hin Hall]; [lia|].
  fold before in Hin, Hall.
  assert (0 < inter_area bj bi) as Hov
    by (rewrite inter_area_sym; apply iou_overlap; exact Hiou).
  assert (forall c, In c before -> In i (snd c) -> merge_test bj (fst c) = true)
    as Hpass.
  { intros c Hc Hk. destruct (Hin c i Hc Hk) as (b & Hb & Hw).
    assert (b = bi) by congruence. subst b.
    apply (overlap_passes_test bj bi); assumption. }
  destruct (Hall i Hij) as (c & Hc & Hk).
  split; [apply merge_traced_boxes|]. split; [apply merge_traced_boxes|].
  split; [exists c; auto|]. split; [exact Hpass|]. split.
  - unfold fold_box_traced. simpl.
    destruct (absorb_traced bj j before) as [m|] eqn:E.
    + destruct (absorb_traced_some _ _ _ _ E)
        as (l1 & cb & ks & l2 & E1 & Hf & Ht & E2).
      exists l1, cb, ks, l2. auto.
    + pose proof (absorb_traced_none _ _ _ E c Hc) as Hn.
      rewrite (Hpass c Hc Hk) in Hn. discriminate.
  - intros l1 [cb ks] l2 E Hki Hf. simpl in Hki.
    unfold same_candidate. rewrite (merge_traced_step _ _ _ Hj).
    apply together_fold. fold before. unfold fold_box_traced. simpl.
    rewrite E, absorb_traced_first; auto.
    + exists (_bbox_union cb bj, ks ++ [j]). simpl.
      split; [apply in_or_app; right; left; reflexivity|].
      split; apply in_or_app; [left; exact Hki | right; left; reflexivity].
    + apply (Hpass (cb, ks)); auto. rewrite E. apply in_or_app.
      right. left. reflexivity.
Qed.

Lemma overlapping_box_joins_first_match_witness :
  (0 < 1)%nat /\ 0.3 < iou boxA boxB /\ same_candidate [boxA; boxB; boxC] 0 1.
Proof.
  assert (0.3 < iou boxA boxB) as Hiou by (unfold Qlt; vm_compute; reflexivity).
  split; [lia|]. split; [exact Hiou|].
  destruct (overlapping_box_joins_first_match [boxA; boxB; boxC] 0 1 boxA boxB)
    as (_ & _ & _ & _ & _ & H); [lia | reflexivity | reflexivity | exact Hiou |].
  apply (H [] (boxA, [0%nat]) []); [reflexivity | left; reflexivity |].
  intros c' [].
Defined.

(** C3 as worded fails: on the page [boxC; boxA; boxB] the boxes [boxA] and
    [boxB] overlap with a ratio near 0.82, yet [boxB] is unioned into [boxC],
    which comes first and lies 5 units from it, and [boxA] stays a candidate
    of its own; no output candidate even covers both. *)
Lemma merger_splits_overlapping_pair :
  0.3 < iou boxA boxB
  /\ merge_candidates [boxC; boxA; boxB] = [mkBBox 0 0 190 100; boxA]
  /\ ~ same_candidate [boxC; boxA; boxB] 1 2
  /\ ~ (exists c, In c (merge_candidates [boxC; boxA; boxB])
                  /\ bbox_within boxA c /\ bbox_within boxB c).
Proof.
  split; [unfold Qlt; vm_compute; reflexivity|].
  split; [vm_compute; reflexivity|].
  split.
  - intros (c & Hc & H1 & H2).
    assert (merge_traced [boxC; boxA; boxB]
            = [(mkBBox 0 0 190 100, [0; 2]%nat); (boxA, [1%nat])]) as E
      by (vm_compute; reflexivity).
    rewrite E in Hc. simpl in Hc.
    destruct Hc as [<-|[<-|[]]]; simpl in *; intuition lia.
  - intros (c & Hc & H1 & H2).
    assert (merge_candidates [boxC; boxA; boxB] = [mkBBox 0 0 190 100; boxA])
      as E by (vm_compute; reflexivity).
    rewrite E in Hc. simpl in Hc.
    destruct Hc as [<-|[<-|[]]].
    + destruct H1 as (_ & _ & H & _). simpl in H.
      unfold Qle in H. simpl in H. lia.
    + destruct H2 as (H & _). simpl in H. unfold Qle in H. simpl in H. lia.
Qed.

(* ================================================================= *)
(** ** The extraction loop *)

Lemma popcount_nonneg (n : N) : (0 <= popcount n)%Z.
Proof.
  destruct n as [|p]; cbn [popcount]; [lia|].
  induction p; cbn [pos_popcount]; lia.
Qed.

Lemma hash_distance_sym (a b : N) : hash_distance a b = hash_distance b a.
Proof. unfold hash_distance. rewrite N.lxor_comm. reflexivity. Qed.

Lemma hash_distance_nonneg (a b : N) : (0 <= hash_distance a b)%Z.
Proof. apply popcount_nonneg. Qed.

(** A hash that is no near-duplicate is far from every ledger entry. *)
Lemma not_near_duplicate_far (cfg : Config) (h : N) (kept : list N) :
  near_duplicate cfg h kept = false ->
  forall k, In k kept -> (HASH_THRESHOLD cfg < hash_distance k h)%Z.
Proof.
  intros H k Hk. unfold near_duplicate in H.
  destruct (Z.leb_spec (Z.abs (hash_distance h k)) (HASH_THRESHOLD cfg))
    as [Hle|Hgt].
  - exfalso. assert (existsb
      (fun h0 => (Z.abs (hash_distance h h0) <=? HASH_THRESHOLD cfg)%Z) kept
      = true) as E.
    { apply existsb_exists. exists k. split; auto. apply Z.leb_le. exact Hle. }
    congruence.
  - rewrite hash_distance_sym.
    pose proof (hash_distance_nonneg h k). lia.
Qed.

(** The two ways one candidate can leave the loop body: nothing emitted and
    the ledger untouched, or one record emitted for an image that is large
    enough and no near-duplicate, its hash appended to the ledger. *)
Lemma process_candidate_cases (cfg : Config) (page : Page) (page_num : nat)
  (words : list Word) (gbs : list (BBox * Stats)) (st : ExtractState)
  (c : BBox * nat) :
  let st' := process_candidate cfg page page_num words gbs st c in
  (figures st' = figures st /\ kept_hashes st' = kept_hashes st)
  \/ (exists clipped img fig,
        _clip_to_page (fst c) (page_bbox page) = Some clipped
        /\ page_render page clipped = Some img
        /\ (MIN_IMG_WIDTH cfg <= img_width img)%Z
        /\ (MIN_IMG_HEIGHT cfg <= img_height img)%Z
        /\ near_duplicate cfg (img_phash img) (kept_hashes st) = false
        /\ fig_width fig = img_width img
        /\ fig_height fig = img_height img
        /\ fig_phash fig = img_phash img
        /\ fig_caption fig
           = _find_caption_four_directions cfg page words clipped
        /\ figures st' = figures st ++ [fig]
        /\ kept_hashes st' = kept_hashes st ++ [img_phash img]).
Proof.
  destruct c as [bbox idx]. cbv zeta. unfold process_candidate. cbn [fst snd].
  destruct (_clip_to_page bbox (page_bbox page)) as [clipped|] eqn:Hclip;
    [|left; auto].
  destruct (page_render page clipped) as [img|] eqn:Hr; [|left; auto].
  destruct (Z.ltb_spec (img_width img) (MIN_IMG_WIDTH cfg)) as [|Hw];
    [left; auto|].
  destruct (Z.ltb_spec (img_height img) (MIN_IMG_HEIGHT cfg)) as [|Hh];
    [left; auto|].
  cbn [orb].
  destruct (_text_and_edge_score words clipped img) as [txt_ratio edge_score].
  destruct (_looks_like_plain_text txt_ratio edge_score
              (find_stats_hint clipped gbs)); [left; auto|].
  destruct (near_duplicate cfg (img_phash img) (kept_hashes st)) eqn:Hd;
    [left; auto|].
  right.
  exists clipped, img,
    (mkFigure
       (origin_id_of (_find_caption_four_directions cfg page words clipped)
                     page_num idx)
       page_num (_find_caption_four_directions cfg page words clipped)
       (img_width img) (img_height img) (img_phash img) None).
  split; [reflexivity|]. split; [exact Hr|].
  split; [exact Hw|]. split; [exact Hh|]. split; [exact Hd|].
  cbn [fig_width fig_height fig_phash fig_caption figures kept_hashes].
  repeat (split; [reflexivity|]). reflexivity.
Qed.

Lemma pairwise_far_snoc (cfg : Config) (l : list N) (h : N) :
  pairwise_far cfg l ->
  (forall k, In k l -> (HASH_THRESHOLD cfg < hash_distance k h)%Z) ->
  pairwise_far cfg (l ++ [h]).
Proof.
  intros Hl Hh i j a b Hij Ha Hb.
  destruct (Nat.lt_ge_cases j (List.length l)) as [Hj|Hj].
  - rewrite nth_error_app1 in Ha by lia. rewrite nth_error_app1 in Hb by lia.
    exact (Hl i j a b Hij Ha Hb).
  - rewrite (nth_error_app2 l [h] Hj) in Hb.
    destruct (j - List.length l)%nat as [|m] eqn:Em.
    + simpl in Hb. inversion Hb; subst b.
      assert (i < List.length l)%nat as Hi by lia.
      rewrite nth_error_app1 in Ha by exact Hi.
      apply Hh. eapply nth_error_In; eauto.
    + simpl in Hb. destruct m; discriminate.
Qed.

Lemma process_candidate_ok (cfg : Config) (page : Page) (page_num : nat)
  (words : list Word) (gbs : list (BBox * Stats)) (st : ExtractState)
  (c : BBox * nat) :
  state_ok cfg st ->
  state_ok cfg (process_candidate cfg page page_num words gbs st c).
Proof.
  intros (Hk & Hf & Hs).
  destruct (process_candidate_cases cfg page page_num words gbs st c)
    as [[E1 E2]|(clipped & img & fig & _ & _ & Hw & Hh & Hd & Ew & Eh & Ep
                 & _ & E1 & E2)].
  - unfold state_ok. rewrite E1, E2. auto.
  - unfold state_ok. rewrite E1, E2. split; [|split].
    + rewrite map_app, Hk. simpl. rewrite Ep. reflexivity.
    + apply pairwise_far_snoc; auto. apply not_near_duplicate_far. exact Hd.
    + apply Forall_app. split; auto. constructor; [|constructor].
      unfold large_enough. rewrite Ew, Eh. auto.
Qed.

Lemma fold_candidates_ok (cfg : Config) (page : Page) (page_num : nat)
  (words : list Word) (gbs : list (BBox * Stats)) (cs : list (BBox * nat))
  (st : ExtractState) :
  state_ok cfg st ->
  state_ok cfg (fold_left (process_candidate cfg page page_num words gbs) cs st).
Proof.
  revert st. induction cs as [|c cs IH]; intros st H; simpl; [exact H|].
  apply IH. apply process_candidate_ok. exact H.
Qed.

Lemma process_page_ok (cfg : Config) (st : ExtractState) (p : Page * nat) :
  state_ok cfg st -> state_ok cfg (process_page cfg st p).
Proof.
  destruct p as [page page_num]. unfold process_page.
  apply fold_candidates_ok.
Qed.

Lemma extract_ok (cfg : Config) (pages : list Page) :
  state_ok cfg (extract_images_and_captions cfg pages).
Proof.
  unfold extract_images_and_captions.
  assert (state_ok cfg initial_state) as H0.
  { split; [reflexivity|]. split; [|constructor].
    intros i j a b _ Ha _. destruct i; discriminate. }
  revert H0. generalize initial_state. generalize 1%nat.
  induction pages as [|p ps IH]; intros n st H; cbn [enumerate_from fold_left];
    [exact H|].
  apply IH. apply (process_page_ok cfg st (p, n)). exact H.
Qed.

(** A candidate rendered below the minimum size leaves the loop body with one
    printed line and nothing else changed. *)
Lemma small_candidate_skipped (cfg : Config) (page : Page) (page_num : nat)
  (words : list Word) (gbs : list (BBox * Stats)) (st : ExtractState)
  (bbox : BBox) (idx : nat) (clipped : BBox) (img : Image) :
  _clip_to_page bbox (page_bbox page) = Some clipped ->
  page_render page clipped = Some img ->
  (img_width img < MIN_IMG_WIDTH cfg \/ img_height img < MIN_IMG_HEIGHT cfg)%Z ->
  process_candidate cfg page page_num words gbs st (bbox, idx)
  = say st (SkipSmall
              (origin_id_of (_find_caption_four_directions cfg page words clipped)
                            page_num idx)
              (img_width img) (img_height img)).
Proof.
  intros Hc Hr Hs. unfold process_candidate. rewrite Hc, Hr.
  assert ((img_width img <? MIN_IMG_WIDTH cfg)%Z
          || (img_height img <? MIN_IMG_HEIGHT cfg)%Z = true) as E.
  { apply orb_true_iff. destruct Hs; [left|right]; apply Z.ltb_lt; assumption. }
  rewrite E. reflexivity.
Qed.

(** C1.  In the list of records emitted for a document, any two records have
    perceptual hashes more than [HASH_THRESHOLD] bits apart (in either
    order); and a candidate whose hash is within the threshold of some ledger
    entry emits no record and appends nothing to the ledger. *)
Theorem emitted_hashes_pairwise_far (cfg : Config) :
  (forall pages i j fi fj,
      (i < j)%nat ->
      nth_error (figures (extract_images_and_captions cfg pages)) i = Some fi ->
      nth_error (figures (extract_images_and_captions cfg pages)) j = Some fj ->
      (HASH_THRESHOLD cfg < hash_distance (fig_phash fi) (fig_phash fj))%Z
      /\ (HASH_THRESHOLD cfg < hash_distance (fig_phash fj) (fig_phash fi))%Z)
  /\ (forall page page_num words gbs st bbox idx clipped img h,
         _clip_to_page bbox (page_bbox page) = Some clipped ->
         page_render page clipped = Some img ->
         In h (kept_hashes st) ->
         (hash_distance (img_phash img) h <= HASH_THRESHOLD cfg)%Z ->
         figures (process_candidate cfg page page_num words gbs st (bbox, idx))
         = figures st
         /\ kept_hashes (process_candidate cfg page page_num words gbs st
                           (bbox, idx))
            = kept_hashes st).
Proof.
  split.
  - intros pages i j fi fj Hij Hi Hj.
    destruct (extract_ok cfg pages) as (Hk & Hfar & _).
    assert (HASH_THRESHOLD cfg < hash_distance (fig_phash fi) (fig_phash fj))%Z
      as H.
    { apply (Hfar i j); auto; rewrite Hk, nth_error_map.
      - rewrite Hi. reflexivity.
      - rewrite Hj. reflexivity. }
    split; [exact H|]. rewrite hash_distance_sym. exact H.
  - intros page page_num words gbs st bbox idx clipped img h Hc Hr Hh Hd.
    destruct (process_candidate_cases cfg page page_num words gbs st (bbox, idx))
      as [H|(clipped' & img' & fig & Hc' & Hr' & _ & _ & Hn & _)];
      [exact H|].
    exfalso. simpl in Hc'. rewrite Hc in Hc'. inversion Hc'; subst clipped'.
    rewrite Hr in Hr'. inversion Hr'; subst img'.
    pose proof (not_near_duplicate_far cfg _ _ Hn h Hh) as Hfar.
    rewrite hash_distance_sym in Hfar. lia.
Qed.

Lemma emitted_hashes_pairwise_far_witness :
  (0 < 1)%nat
  /\ option_map fig_phash
       (nth_error (figures (extract_images_and_captions default_config
                              sample_document)) 0) = Some 0%N
  /\ option_map fig_phash
       (nth_error (figures (extract_images_and_captions default_config
                              sample_document)) 1) = Some 255%N
  /\ (HASH_THRESHOLD default_config < hash_distance 0 255)%Z.
Proof.
  split; [lia|]. split; [vm_compute; reflexivity|].
  split; [vm_compute; reflexivity|].
  apply (proj1 (emitted_hashes_pairwise_far default_config) sample_document
               0%nat 1%nat
               (mkFigure (py "FIG_P1_1") 1 (py "Fig.") 500 500 0 None)
               (mkFigure (py "FIGURE 3") 2 (py "Figure 3 Overview") 500 500 255
                         None));
    [lia | vm_compute; reflexivity | vm_compute; reflexivity].
Defined.

(** C2.  Every record emitted for a document is at least [MIN_IMG_WIDTH]
    wide and [MIN_IMG_HEIGHT] high; and a candidate whose rendered image is
    smaller on either axis emits no record. *)
Theorem emitted_records_large_enough (cfg : Config) :
  (forall pages fig,
      In fig (figures (extract_images_and_captions cfg pages)) ->
      (MIN_IMG_WIDTH cfg <= fig_width fig)%Z
      /\ (MIN_IMG_HEIGHT cfg <= fig_height fig)%Z)
  /\ (forall page page_num words gbs st bbox idx clipped img,
         _clip_to_page bbox (page_bbox page) = Some clipped ->
         page_render page clipped = Some img ->
         (img_width img < MIN_IMG_WIDTH cfg
          \/ img_height img < MIN_IMG_HEIGHT cfg)%Z ->
         figures (process_candidate cfg page page_num words gbs st (bbox, idx))
         = figures st).
Proof.
  split.
  - intros pages fig Hin.
    destruct (extract_ok cfg pages) as (_ & _ & Hall).
    rewrite Forall_forall in Hall. exact (Hall fig Hin).
  - intros page page_num words gbs st bbox idx clipped img Hc Hr Hs.
    rewrite (small_candidate_skipped _ _ _ _ _ _ _ _ _ _ Hc Hr Hs).
    reflexivity.
Qed.

Lemma emitted_records_large_enough_witness :
  In (mkFigure (py "FIGURE 3") 2 (py "Figure 3 Overview") 500 500 255 None)
     (figures (extract_images_and_captions default_config sample_document))
  /\ (MIN_IMG_WIDTH default_config <= 500)%Z
  /\ (MIN_IMG_HEIGHT default_config <= 500)%Z.
Proof.
  assert (In (mkFigure (py "FIGURE 3") 2 (py "Figure 3 Overview") 500 500 255
                       None)
             (figures (extract_images_and_captions default_config
                         sample_document))) as Hin
    by (vm_compute; right; left; reflexivity).
  split; [exact Hin|].
  exact (proj1 (emitted_records_large_enough default_config) sample_document
               _ Hin).
Defined.

(** C4, as the loop runs.  A candidate whose rendered image is below the
    minimum size is dropped by the size filter once its caption has been
    located and its origin identifier derived, and before the content
    classifier and the deduplicator: the loop body only prints the skip line,
    which carries that identifier; no record is emitted and no hash is
    stored, whatever the cluster statistics, the image content and the
    ledger. *)
Theorem small_candidate_filtered_after_caption
  (cfg : Config) (page : Page) (page_num : nat) (words : list Word)
  (gbs : list (BBox * Stats)) (st : ExtractState) (bbox : BBox) (idx : nat)
  (clipped : BBox) (img : Image) :
  _clip_to_page bbox (page_bbox page) = Some clipped ->
  page_render page clipped = Some img ->
  (img_width img < MIN_IMG_WIDTH cfg \/ img_height img < MIN_IMG_HEIGHT cfg)%Z ->
  let caption := _find_caption_four_directions cfg page words clipped in
  let st' := process_candidate cfg page page_num words gbs st (bbox, idx) in
  figures st' = figures st
  /\ kept_hashes st' = kept_hashes st
  /\ printed st'
     = printed st ++ [SkipSmall (origin_id_of caption page_num idx)
                                (img_width img) (img_height img)].
Proof.
  intros Hc Hr Hs caption st'. subst st'.
  rewrite (small_candidate_skipped _ _ _ _ _ _ _ _ _ _ Hc Hr Hs).
  repeat split; reflexivity.
Qed.

Lemma small_candidate_filtered_after_caption_witness :
  (150 < MIN_IMG_WIDTH default_config \/ 90 < MIN_IMG_HEIGHT default_config)%Z
  /\ figures (process_candidate default_config
                (sample_page words_figure_3 image_small) 1 words_figure_3 []
                initial_state (fig_box, 1%nat)) = []
  /\ kept_hashes (process_candidate default_config
                    (sample_page words_figure_3 image_small) 1 words_figure_3
                    [] initial_state (fig_box, 1%nat)) = [].
Proof.
  assert (150 < MIN_IMG_WIDTH default_config
          \/ 90 < MIN_IMG_HEIGHT default_config)%Z as Hs by (left; reflexivity).
  split; [exact Hs|].
  destruct (small_candidate_filtered_after_caption default_config
              (sample_page words_figure_3 image_small) 1 words_figure_3 []
              initial_state fig_box 1 fig_box image_small)
    as (H1 & H2 & _); [vm_compute; reflexivity | reflexivity | exact Hs |].
  split; [exact H1 | exact H2].
Defined.

(** C4 as worded fails: caption extraction has already run when the size
    filter drops a 150 x 90 candidate.  The line printed for the candidate
    names it [FIGURE 3] when the caption "Figure 3 Overview" lies below it
    and [FIG_P1_1] when the page has no words, so the outcome depends on the
    caption found. *)
Lemma small_candidate_outcome_depends_on_caption :
  printed (process_candidate default_config
             (sample_page words_figure_3 image_small) 1 words_figure_3 []
             initial_state (fig_box, 1%nat))
  = [SkipSmall (py "FIGURE 3") 150 90]
  /\ printed (process_candidate default_config
                (sample_page [] image_small) 1 [] [] initial_state
                (fig_box, 1%nat))
     = [SkipSmall (py "FIG_P1_1") 150 90]
  /\ _find_caption_four_directions default_config
       (sample_page words_figure_3 image_small) words_figure_3 fig_box
     = py "Figure 3 Overview"
  /\ process_candidate default_config
       (sample_page words_figure_3 image_small) 1 words_figure_3 []
       initial_state (fig_box, 1%nat)
     <> process_candidate default_config
          (sample_page [] image_small) 1 [] [] initial_state (fig_box, 1%nat).
Proof.
  split; [vm_compute; reflexivity|].
  split; [vm_compute; reflexivity|].
  split; [vm_compute; reflexivity|].
  intro H. apply (f_equal printed) in H. vm_compute in H. discriminate H.
Qed.

(* ================================================================= *)
(** ** Content Classifier *)

Lemma text_ratio_capped (words : list Word) (bbox : BBox) (img : Image) :
  fst (_text_and_edge_score words bbox img) <= 1.
Proof.
  unfold _text_and_edge_score. cbn [fst]. split_minmax; lra.
Qed.

(** The decision of [_looks_like_plain_text] on the numbers it is given. *)
Lemma looks_like_plain_text_iff (text_ratio mean_edge : Q)
  (stats_hint : option Stats) :
  _looks_like_plain_text text_ratio mean_edge stats_hint = true
  <-> 0.55 < text_ratio /\ mean_edge < 0.10
      /\ ~ strong_vector_evidence stats_hint.
Proof.
  unfold _looks_like_plain_text, strong_vector_evidence.
  destruct stats_hint as [st|].
  - destruct (Z.leb_spec 6 (st_lines st + st_curves st)) as [H6|H6].
    + split; [discriminate|]. intros (_ & _ & Hn). exfalso. apply Hn.
      exists st. auto.
    + destruct (Z.leb_spec 3 (st_rects st)) as [H3|H3].
      * split; [discriminate|]. intros (_ & _ & Hn). exfalso. apply Hn.
        exists st. auto.
      * rewrite andb_true_iff, !Qltb_lt. split.
        -- intros [H1 H2]. repeat split; auto.
           intros (st' & E & [H|H]); inversion E; subst st'; lia.
        -- intros (H1 & H2 & _). auto.
  - rewrite andb_true_iff, !Qltb_lt. split.
    + intros [H1 H2]. repeat split; auto. intros (st' & E & _). discriminate.
    + intros (H1 & H2 & _). auto.
Qed.

(** A box kept by [_clip_to_page] is more than one unit wide and high, so
    its area is above 1. *)
Lemma clipped_area (b pbox c : BBox) :
  _clip_to_page b pbox = Some c ->
  1 < (bx1 c - bx0 c) * (by1 c - by0 c)
  /\ _bbox_area c == (bx1 c - bx0 c) * (by1 c - by0 c).
Proof.
  unfold _clip_to_page. cbv zeta.
  match goal with
  | |- context [Qle_bool ?w 1 || Qle_bool ?h 1] =>
      destruct (Qle_bool w 1) eqn:Ew; [discriminate|];
      destruct (Qle_bool h 1) eqn:Eh; [discriminate|]
  end.
  cbn [orb]. intro H. inversion H; subst c. clear H. cbn [bx0 bx1 by0 by1].
  assert (forall x, Qle_bool x 1 = false -> 1 < x) as Hlt.
  { intros x E. apply Qltb_lt. unfold Qltb. rewrite E. reflexivity. }
  apply Hlt in Ew. apply Hlt in Eh.
  unfold _bbox_area. cbn [bx0 bx1 by0 by1].
  revert Ew Eh.
  match goal with |- 1 < ?w -> 1 < ?h -> _ => generalize w, h end.
  intros w h Ew Eh.
  split; [nra|].
  rewrite (Q.max_r 0 w), (Q.max_r 0 h) by lra. reflexivity.
Qed.

(** The sum accumulated by the loop of [_text_and_edge_score] is the sum of
    the areas of the words. *)
Lemma text_area_sum (ws : list Word) (acc : Q) :
  fold_left (fun acc w => acc + Qmax 0 (w_x1 w - w_x0 w)
                                * Qmax 0 (w_bottom w - w_top w)) ws acc
  == acc + fold_right (fun w acc => _bbox_area (word_box w) + acc) 0 ws.
Proof.
  revert acc. induction ws as [|w ws IH]; intro acc; simpl.
  - ring.
  - rewrite IH. unfold _bbox_area, word_box. cbn [bx0 bx1 by0 by1]. ring.
Qed.

(** The words counted are those whose box lies inside the rectangle. *)
Lemma words_in_rect_inside (words : list Word) (rect : BBox) (w : Word) :
  In w (_words_in_rect words rect)
  <-> In w words /\ bbox_within (word_box w) rect.
Proof.
  unfold _words_in_rect, bbox_within, word_box. rewrite filter_In.
  cbn [bx0 bx1 by0 by1]. rewrite !andb_true_iff, !Qle_bool_iff. tauto.
Qed.

(** The text ratio of [_text_and_edge_score] on any box: the sum of the word
    areas over the product of the sides of the box, which counts as 1 when
    it is smaller, capped at 1. *)
Lemma text_ratio_formula (words : list Word) (box : BBox) (img : Image) :
  fst (_text_and_edge_score words box img)
  == Qmin 1 (word_area_sum words box
             / Qmax 1 ((bx1 box - bx0 box) * (by1 box - by0 box))).
Proof.
  unfold _text_and_edge_score, word_area_sum. cbn [fst].
  rewrite text_area_sum, Qplus_0_l. reflexivity.
Qed.

Lemma text_ratio_is_coverage (b pbox c : BBox) (words : list Word)
  (img : Image) :
  _clip_to_page b pbox = Some c ->
  fst (_text_and_edge_score words c img) == text_coverage words c.
Proof.
  intro Hc. destruct (clipped_area b pbox c Hc) as [H1 Ha].
  rewrite text_ratio_formula. unfold text_coverage.
  rewrite Ha, (Q.max_r 1 ((bx1 c - bx0 c) * (by1 c - by0 c))) by lra.
  reflexivity.
Qed.

(** The test of line 371 on the squared distance. *)
Lemma dist_below_5 (a b : BBox) :
  (_bbox_dist_lt a b 5 = true <-> _bbox_dist_sq a b < 25)
  /\ (_bbox_dist_lt a b 5 = false <-> 25 <= _bbox_dist_sq a b).
Proof.
  unfold _bbox_dist_lt.
  assert (Qltb 0 5 = true) as -> by reflexivity. cbn [andb]. split.
  - rewrite Qltb_lt. split; intro H; lra.
  - split; intro H.
    + apply Qltb_ge in H. lra.
    + destruct (Qltb (_bbox_dist_sq a b) (5 * 5)) eqn:E; [|reflexivity].
      apply Qltb_lt in E. lra.
Qed.

Lemma find_stats_hint_matching (clipped : BBox)
  (graphic_boxes_stats : list (BBox * Stats)) (s : Stats) :
  find_stats_hint clipped graphic_boxes_stats = Some s
  <-> matching_stats clipped graphic_boxes_stats s.
Proof.
  unfold find_stats_hint, matching_stats.
  induction graphic_boxes_stats as [|g0 rest IH]; simpl.
  - split; [discriminate|]. intros (before & g & after & E & _).
    destruct before; discriminate.
  - destruct (_bbox_dist_lt clipped (fst g0) 5) eqn:E.
    + apply (proj1 (dist_below_5 _ _)) in E. simpl. split.
      * intro H. inversion H. exists [], g0, rest. auto.
      * intros (before & g & after & El & Hs & Hd & Hb).
        destruct before as [|b0 before]; simpl in El; inversion El; subst.
        -- reflexivity.
        -- inversion Hb; subst. lra.
    + apply (proj2 (dist_below_5 _ _)) in E. split.
      * intro H. apply IH in H.
        destruct H as (before & g & after & El & Hs & Hd & Hb).
        exists (g0 :: before), g, after. subst rest. auto.
      * intros (before & g & after & El & Hs & Hd & Hb).
        destruct before as [|b0 before]; simpl in El; inversion El; subst.
        -- lra.
        -- apply IH. inversion Hb; subst. exists before, g, after. auto.
Qed.

(** The loop body for a candidate that was clipped, rendered and found large
    enough: the plain-text test, then the deduplicator. *)
Lemma process_candidate_classified (cfg : Config) (page : Page)
  (page_num idx : nat) (words : list Word)
  (graphic_boxes_stats : list (BBox * Stats)) (st : ExtractState)
  (bbox clipped : BBox) (pil_img : Image) :
  _clip_to_page bbox (page_bbox page) = Some clipped ->
  page_render page clipped = Some pil_img ->
  (MIN_IMG_WIDTH cfg <= img_width pil_img)%Z ->
  (MIN_IMG_HEIGHT cfg <= img_height pil_img)%Z ->
  let caption := _find_caption_four_directions cfg page words clipped in
  let origin_id := origin_id_of caption page_num idx in
  let scores := _text_and_edge_score words clipped pil_img in
  process_candidate cfg page page_num words graphic_boxes_stats st (bbox, idx)
  = if _looks_like_plain_text (fst scores) (snd scores)
         (find_stats_hint clipped graphic_boxes_stats)
    then say st (SkipPlainText origin_id (fst scores) (snd scores))
    else if near_duplicate cfg (img_phash pil_img) (kept_hashes st)
         then say st (SkipDuplicate origin_id)
         else mkState
                (figures st ++
                   [mkFigure origin_id page_num caption (img_width pil_img)
                             (img_height pil_img) (img_phash pil_img) None])
                (kept_hashes st ++ [img_phash pil_img])
                (printed st).
Proof.
  intros Hclip Hr Hw Hh. cbv zeta. unfold process_candidate.
  rewrite Hclip, Hr.
  apply Z.ltb_ge in Hw. apply Z.ltb_ge in Hh. rewrite Hw, Hh. cbn [orb].
  destruct (_text_and_edge_score words clipped pil_img) as [r e].
  reflexivity.
Qed.

(** C7.  For a candidate of the extraction loop that was clipped, rendered
    and found large enough, the two numbers the classifier thresholds are the
    text-coverage ratio of the words lying inside the clipped box (never
    above 1) and the edge density of the rendered image, and the hint is the
    statistics of the first cluster less than 5 units from the box.  (On any
    box the ratio divides by 1 when the sides of the box multiply to less
    than 1; a clipped box is never that small.)  The candidate is rejected
    as plain text exactly when the ratio is above 0.55, the edge density
    below 0.10, and the hint, if any, shows neither 6 lines and curves
    together nor 3 rectangles; a rejected candidate emits no record and
    stores no hash; with such a hint the candidate is never rejected here,
    and a candidate that is not rejected goes on to the deduplicator. *)
Theorem plain_text_rule (cfg : Config) (page : Page) (page_num idx : nat)
  (words : list Word) (graphic_boxes_stats : list (BBox * Stats))
  (st : ExtractState) (bbox clipped : BBox) (pil_img : Image) :
  _clip_to_page bbox (page_bbox page) = Some clipped ->
  page_render page clipped = Some pil_img ->
  (MIN_IMG_WIDTH cfg <= img_width pil_img)%Z ->
  (MIN_IMG_HEIGHT cfg <= img_height pil_img)%Z ->
  let stats_hint := find_stats_hint clipped graphic_boxes_stats in
  let st' := process_candidate cfg page page_num words graphic_boxes_stats st
                               (bbox, idx) in
  (forall w, In w (_words_in_rect words clipped)
             <-> In w words /\ bbox_within (word_box w) clipped)
  /\ (forall box img,
        fst (_text_and_edge_score words box img)
        == Qmin 1 (word_area_sum words box
                   / Qmax 1 ((bx1 box - bx0 box) * (by1 box - by0 box))))
  /\ fst (_text_and_edge_score words clipped pil_img)
     == text_coverage words clipped
  /\ snd (_text_and_edge_score words clipped pil_img) = edge_density pil_img
  /\ text_coverage words clipped <= 1
  /\ (forall s, stats_hint = Some s
                <-> matching_stats clipped graphic_boxes_stats s)
  /\ (rejected_as_plain_text st st'
      <-> 0.55 < text_coverage words clipped
          /\ edge_density pil_img < 0.10
          /\ ~ strong_vector_evidence stats_hint)
  /\ (rejected_as_plain_text st st' ->
      figures st' = figures st /\ kept_hashes st' = kept_hashes st)
  /\ (strong_vector_evidence stats_hint -> ~ rejected_as_plain_text st st')
  /\ (~ rejected_as_plain_text st st' ->
      if near_duplicate cfg (img_phash pil_img) (kept_hashes st)
      then exists origin_id, st' = say st (SkipDuplicate origin_id)
      else exists fig,
             st' = mkState (figures st ++ [fig])
                           (kept_hashes st ++ [img_phash pil_img])
                           (printed st)
             /\ fig_phash fig = img_phash pil_img
             /\ fig_page fig = page_num).
Proof.
  intros Hclip Hr Hw Hh stats_hint st'.
  pose proof (text_ratio_is_coverage _ _ _ words pil_img Hclip) as Hratio.
  pose proof (process_candidate_classified cfg page page_num idx words
                graphic_boxes_stats st bbox clipped pil_img Hclip Hr Hw Hh)
    as Hpc.
  cbv zeta in Hpc. fold st' in Hpc. fold stats_hint in Hpc.
  assert (snd (_text_and_edge_score words clipped pil_img)
          = edge_density pil_img) as Hedge by reflexivity.
  assert (_looks_like_plain_text
            (fst (_text_and_edge_score words clipped pil_img))
            (snd (_text_and_edge_score words clipped pil_img))
            stats_hint = true
          <-> 0.55 < text_coverage words clipped
              /\ edge_density pil_img < 0.10
              /\ ~ strong_vector_evidence stats_hint) as Hiff.
  { rewrite looks_like_plain_text_iff, Hedge.
    split; intros (H1 & H2 & H3); (split; [|split; assumption]).
    - rewrite <- Hratio. exact H1.
    - rewrite Hratio. exact H1. }
  assert (rejected_as_plain_text st st'
          <-> _looks_like_plain_text
                (fst (_text_and_edge_score words clipped pil_img))
                (snd (_text_and_edge_score words clipped pil_img))
                stats_hint = true) as Hrej.
  { rewrite Hpc.
    destruct (_looks_like_plain_text
                (fst (_text_and_edge_score words clipped pil_img))
                (snd (_text_and_edge_score words clipped pil_img))
                stats_hint).
    - split; [reflexivity|]. intros _. unfold rejected_as_plain_text. eauto.
    - split; [|discriminate]. intros (o & r & e & H). exfalso.
      destruct (near_duplicate cfg (img_phash pil_img) (kept_hashes st)).
      + apply (f_equal printed) in H. unfold say in H. cbn [printed] in H.
        apply app_inv_head in H. discriminate H.
      + apply (f_equal printed) in H. unfold say in H. cbn [printed] in H.
        apply (f_equal (@List.length LogMsg)) in H.
        rewrite List.length_app in H. simpl in H. lia. }
  split; [intro w; apply words_in_rect_inside|].
  split; [intros box img; apply text_ratio_formula|].
  split; [exact Hratio|]. split; [exact Hedge|].
  split; [rewrite <- Hratio; apply text_ratio_capped|].
  split; [intro s; apply find_stats_hint_matching|].
  split; [rewrite Hrej; exact Hiff|].
  split; [intros (o & r & e & ->); split; reflexivity|].
  split; [intros Hs Hrj; apply Hrej, Hiff in Hrj; tauto|].
  intro Hn. rewrite Hpc.
  destruct (_looks_like_plain_text
              (fst (_text_and_edge_score words clipped pil_img))
              (snd (_text_and_edge_score words clipped pil_img))
              stats_hint) eqn:E.
  - exfalso. apply Hn. apply Hrej. reflexivity.
  - destruct (near_duplicate cfg (img_phash pil_img) (kept_hashes st)).
    + eauto.
    + eexists. split; [reflexivity|]. split; reflexivity.
Qed.

(** The word of [words_body] makes the candidate at [fig_box] plain text;
    beside a cluster of six lines the same candidate is kept. *)
Lemma plain_text_rule_witness :
  _clip_to_page fig_box (page_bbox (sample_page words_body image_flat))
  = Some fig_box
  /\ rejected_as_plain_text initial_state
       (process_candidate default_config (sample_page words_body image_flat)
          1 words_body [] initial_state (fig_box, 1%nat))
  /\ figures
       (process_candidate default_config (sample_page words_body image_flat)
          1 words_body cluster_of_lines initial_state (fig_box, 1%nat))
     <> [].
Proof.
  assert (_clip_to_page fig_box (page_bbox (sample_page words_body image_flat))
          = Some fig_box) as Hclip by (vm_compute; reflexivity).
  assert (page_render (sample_page words_body image_flat) fig_box
          = Some image_flat) as Hr by reflexivity.
  assert (MIN_IMG_WIDTH default_config <= img_width image_flat)%Z as Hw
    by (vm_compute; discriminate).
  assert (MIN_IMG_HEIGHT default_config <= img_height image_flat)%Z as Hh
    by (vm_compute; discriminate).
  split; [exact Hclip|]. split.
  - destruct (plain_text_rule default_config
                (sample_page words_body image_flat) 1 1 words_body []
                initial_state fig_box fig_box image_flat Hclip Hr Hw Hh)
      as (_ & _ & _ & _ & _ & _ & Hrej & _).
    apply Hrej. split; [vm_compute; reflexivity|].
    split; [vm_compute; reflexivity|].
    intros (s & E & _). discriminate E.
  - destruct (plain_text_rule default_config
                (sample_page words_body image_flat) 1 1 words_body
                cluster_of_lines initial_state fig_box fig_box image_flat
                Hclip Hr Hw Hh)
      as (_ & _ & _ & _ & _ & _ & _ & _ & Hkeep & Hnext).
    assert (strong_vector_evidence (find_stats_hint fig_box cluster_of_lines))
      as Hs.
    { exists (mkStats 6 0 0). split; [vm_compute; reflexivity|].
      left. vm_compute. discriminate. }
    specialize (Hnext (Hkeep Hs)). cbv beta in Hnext.
    assert (near_duplicate default_config (img_phash image_flat)
                           (kept_hashes initial_state) = false) as Hd
      by reflexivity.
    rewrite Hd in Hnext. destruct Hnext as (fig & -> & _).
    cbn [figures initial_state app]. discriminate.
Defined.

(* ================================================================= *)
(** ** Caption Locator *)

(** [max_by] keeps the current best when nothing later beats it. *)
Lemma max_by_keeps {A : Type} (key : A -> Q) (x : A) (l : list A) :
  (forall y, In y l -> key y <= key x) -> max_by key x l = x.
Proof.
  induction l as [|y l IH]; intro H; simpl; [reflexivity|].
  assert (Qltb (key x) (key y) = false) as E
    by (apply Qltb_ge; apply H; left; reflexivity).
  rewrite E. apply IH. intros z Hz. apply H. right. exact Hz.
Qed.

(** An element that beats everything before it and is not beaten by anything
    after it is the maximum returned. *)
Lemma max_by_first_max {A : Type} (key : A -> Q) (best x : A)
  (pre post : list A) :
  key best < key x ->
  (forall y, In y pre -> key y < key x) ->
  (forall y, In y post -> key y <= key x) ->
  max_by key best (pre ++ x :: post) = x.
Proof.
  revert best. induction pre as [|y pre IH]; intros best Hb Hpre Hpost; simpl.
  - assert (Qltb (key best) (key x) = true) as E by (apply Qltb_lt; exact Hb).
    rewrite E. apply max_by_keeps. exact Hpost.
  - destruct (Qltb (key best) (key y)).
    + apply IH; auto. apply Hpre. left. reflexivity.
      intros z Hz. apply Hpre. right. exact Hz.
    + apply IH; auto. intros z Hz. apply Hpre. right. exact Hz.
Qed.

Lemma pick_first_max (pre post : list (Str * Q)) (x : Str * Q) :
  (forall y, In y pre -> score y < score x) ->
  (forall y, In y post -> score y <= score x) ->
  _pick_best_caption (pre ++ x :: post) = fst x.
Proof.
  intros Hpre Hpost. unfold _pick_best_caption.
  destruct pre as [|c pre]; simpl.
  - rewrite max_by_keeps; auto.
  - rewrite max_by_first_max; auto.
    + apply Hpre. left. reflexivity.
    + intros y Hy. apply Hpre. right. exact Hy.
Qed.

Lemma length_penalty_bounds (text : Str) :
  0 <= inject_Z (Z.max 0 (len text - 260)) * 0.002.
Proof.
  assert (0 <= inject_Z (Z.max 0 (len text - 260))) as H.
  { change 0 with (inject_Z 0). rewrite <- Zle_Qle. lia. }
  lra.
Qed.

Lemma score_plain (text : Str) (d : Q) :
  LABEL_REGEX_match text = None -> score (text, d) <= - (d * 0.01).
Proof.
  intro E. unfold score. rewrite E.
  pose proof (length_penalty_bounds text). lra.
Qed.

Lemma score_labelled (text : Str) (d : Q) :
  LABEL_REGEX_match text <> None -> (len text < 5260)%Z ->
  - (d * 0.01) < score (text, d).
Proof.
  intros E Hlen. unfold score.
  destruct (LABEL_REGEX_match text); [|congruence].
  assert (inject_Z (Z.max 0 (len text - 260)) <= inject_Z 4999) as H
    by (rewrite <- Zle_Qle; lia).
  change (inject_Z 4999) with 4999 in H. lra.
Qed.

(** C8, as the score is computed.  Of two caption strings at the same
    distance, one matching [LABEL_REGEX] and of fewer than 5260 characters,
    the other not matching, the labelled one is chosen, whichever comes first
    in the list. *)
Theorem labelled_caption_wins_tie (labelled plain : Str) (d : Q) :
  LABEL_REGEX_match labelled <> None ->
  LABEL_REGEX_match plain = None ->
  (len labelled < 5260)%Z ->
  _pick_best_caption [(labelled, d); (plain, d)] = labelled
  /\ _pick_best_caption [(plain, d); (labelled, d)] = labelled.
Proof.
  intros Hl Hp Hlen.
  pose proof (score_plain plain d Hp) as H1.
  pose proof (score_labelled labelled d Hl Hlen) as H2.
  split.
  - apply (pick_first_max [] [(plain, d)] (labelled, d)).
    + intros y [].
    + intros y [<-|[]]. lra.
  - apply (pick_first_max [(plain, d)] [] (labelled, d)).
    + intros y [<-|[]]. lra.
    + intros y [].
Qed.

Lemma labelled_caption_wins_tie_witness :
  LABEL_REGEX_match (py "Figure 3 Overview") <> None
  /\ LABEL_REGEX_match short_plain = None
  /\ (len (py "Figure 3 Overview") < 5260)%Z
  /\ _pick_best_caption [(short_plain, 0); (py "Figure 3 Overview", 0)]
     = py "Figure 3 Overview".
Proof.
  assert (LABEL_REGEX_match (py "Figure 3 Overview") <> None) as Hl
    by (vm_compute; discriminate).
  assert (LABEL_REGEX_match short_plain = None) as Hp
    by (vm_compute; reflexivity).
  assert (len (py "Figure 3 Overview") < 5260)%Z as Hlen
    by (vm_compute; reflexivity).
  split; [exact Hl|]. split; [exact Hp|]. split; [exact Hlen|].
  exact (proj2 (labelled_caption_wins_tie (py "Figure 3 Overview") short_plain
                  0 Hl Hp Hlen)).
Defined.

(** C8 as worded fails: a labelled caption of 5300 characters carries a
    length penalty of 10.08, above the label bonus of 10, and loses to a short
    unlabelled caption at the same distance. *)
Lemma long_labelled_caption_loses_tie :
  LABEL_REGEX_match long_labelled = Some (py "1")
  /\ LABEL_REGEX_match short_plain = None
  /\ len long_labelled = 5300%Z
  /\ _pick_best_caption [(long_labelled, 0); (short_plain, 0)] = short_plain
  /\ _pick_best_caption [(short_plain, 0); (long_labelled, 0)] = short_plain.
Proof.
  repeat split; vm_compute; reflexivity.
Qed.

Lemma caption_candidates_split (cfg : Config) (page : Page) (words : list Word)
  (bbox : BBox) (s : Side) (c : Str * Q) :
  side_candidate cfg page words bbox s = Some c ->
  exists pre post,
    caption_candidates cfg page words bbox = pre ++ c :: post
    /\ (forall y, In y pre ->
          exists s', side_before s' s
                     /\ side_candidate cfg page words bbox s' = Some y)
    /\ (forall y, In y post ->
          exists s', side_candidate cfg page words bbox s' = Some y).
Proof.
  intro H. unfold caption_candidates, region_sides.
  set (f := fun side => option_to_list (side_candidate cfg page words bbox side)).
  assert (forall l y, In y (flat_map f l) ->
            exists s', In s' l /\ side_candidate cfg page words bbox s' = Some y)
    as Hflat.
  { intros l y Hy. apply in_flat_map in Hy. destruct Hy as (s' & Hs' & Hy).
    exists s'. split; [exact Hs'|]. unfold f in Hy.
    destruct (side_candidate cfg page words bbox s'); simpl in Hy.
    - destruct Hy as [<-|[]]. reflexivity.
    - contradiction. }
  assert (f s = [c]) as Ef by (unfold f; rewrite H; reflexivity).
  destruct s.
  - exists (flat_map f []), (flat_map f [Top; Right; Left]).
    split; [simpl; rewrite Ef, app_nil_r; reflexivity|]. split.
    + intros y [].
    + intros y Hy. destruct (Hflat _ _ Hy) as (s' & _ & E). eauto.
  - exists (flat_map f [Bottom]), (flat_map f [Right; Left]).
    split; [simpl; rewrite Ef, !app_nil_r; reflexivity|]. split.
    + intros y Hy. destruct (Hflat _ _ Hy) as (s' & Hs & E).
      exists s'. split; [|exact E].
      destruct Hs as [<-|[]]. unfold side_before. simpl. lia.
    + intros y Hy. destruct (Hflat _ _ Hy) as (s' & _ & E). eauto.
  - exists (flat_map f [Bottom; Top]), (flat_map f [Left]).
    split; [simpl; rewrite Ef, !app_nil_r, <- app_assoc; reflexivity|]. split.
    + intros y Hy. destruct (Hflat _ _ Hy) as (s' & Hs & E).
      exists s'. split; [|exact E].
      destruct Hs as [<-|[<-|[]]]; unfold side_before; simpl; lia.
    + intros y Hy. destruct (Hflat _ _ Hy) as (s' & _ & E). eauto.
  - exists (flat_map f [Bottom; Top; Right]), (flat_map f []).
    split; [simpl; rewrite Ef, !app_nil_r, <- !app_assoc; reflexivity|]. split.
    + intros y Hy. destruct (Hflat _ _ Hy) as (s' & Hs & E).
      exists s'. split; [|exact E].
      destruct Hs as [<-|[<-|[<-|[]]]]; unfold side_before; simpl; lia.
    + intros y [].
Qed.

(** C9.  Let a side yield a caption candidate whose score is not exceeded by
    the candidate of any side and is strictly above the candidate of every
    side that comes before it in the order bottom, top, right, left.  Then
    that side's text is the one picked, and the caption returned is its
    truncation: among the sides that reach the maximal score, the first in
    that order wins. *)
Theorem first_side_wins_ties (cfg : Config) (page : Page) (words : list Word)
  (bbox : BBox) (s : Side) (text : Str) (dist : Q) :
  side_candidate cfg page words bbox s = Some (text, dist) ->
  (forall s' c', side_candidate cfg page words bbox s' = Some c' ->
                 score c' <= score (text, dist)) ->
  (forall s' c', side_before s' s ->
                 side_candidate cfg page words bbox s' = Some c' ->
                 score c' < score (text, dist)) ->
  _pick_best_caption (caption_candidates cfg page words bbox) = text
  /\ _find_caption_four_directions cfg page words bbox
     = _truncate_caption_like text.
Proof.
  intros Hs Hmax Hfirst.
  destruct (caption_candidates_split _ _ _ _ _ _ Hs)
    as (pre & post & E & Hpre & Hpost).
  assert (_pick_best_caption (caption_candidates cfg page words bbox) = text)
    as Hpick.
  { rewrite E. apply (pick_first_max pre post (text, dist)).
    - intros y Hy. destruct (Hpre y Hy) as (s' & Hb & Hc).
      exact (Hfirst s' y Hb Hc).
    - intros y Hy. destruct (Hpost y Hy) as (s' & Hc). exact (Hmax s' y Hc). }
  split; [exact Hpick|].
  unfold _find_caption_four_directions. rewrite Hpick.
  destruct text; reflexivity.
Qed.

Lemma first_side_wins_ties_witness :
  side_candidate default_config (sample_page words_both_sides image_plain)
    words_both_sides fig_box Bottom = Some (py "below the figure", 0)
  /\ side_candidate default_config (sample_page words_both_sides image_plain)
       words_both_sides fig_box Top = Some (py "above the figure", 0)
  /\ score (py "above the figure", 0) == score (py "below the figure", 0)
  /\ _find_caption_four_directions default_config
       (sample_page words_both_sides image_plain) words_both_sides fig_box
     = py "below the figure".
Proof.
  split; [vm_compute; reflexivity|].
  split; [vm_compute; reflexivity|].
  split; [vm_compute; reflexivity|].
  refine (eq_trans
            (proj2 (first_side_wins_ties default_config
                      (sample_page words_both_sides image_plain)
                      words_both_sides fig_box Bottom (py "below the figure") 0
                      _ _ _)) _).
  - vm_compute; reflexivity.
  - intros s' c' H.
    destruct s'; vm_compute in H; inversion H; subst c';
      unfold Qle; vm_compute; discriminate.
  - intros s' c' Hb H. unfold side_before in Hb. simpl in Hb. lia.
  - vm_compute; reflexivity.
Defined.

Lemma max_by_spec {A : Type} (key : A -> Q) (best : A) (l : list A) :
  In (max_by key best l) (best :: l)
  /\ forall y, In y (best :: l) -> key y <= key (max_by key best l).
Proof.
  revert best. induction l as [|x l IH]; intro best; simpl.
  - split; [auto|]. intros y [<-|[]]. apply Qle_refl.
  - destruct (Qltb (key best) (key x)) eqn:E.
    + destruct (IH x) as [Hin Hmax]. split.
      * right. exact Hin.
      * intros y [<-|Hy]; [|exact (Hmax y Hy)].
        apply Qltb_lt in E. apply Qlt_le_weak in E.
        apply (Qle_trans _ _ _ E). apply Hmax. left. reflexivity.
    + destruct (IH best) as [Hin Hmax]. split.
      * simpl in Hin. tauto.
      * intros y [<-|[<-|Hy]].
        -- apply Hmax. left. reflexivity.
        -- apply Qltb_ge in E. apply (Qle_trans _ _ _ E).
           apply Hmax. left. reflexivity.
        -- apply Hmax. right. exact Hy.
Qed.

Lemma pick_best_member (candidates : list (Str * Q)) :
  candidates <> [] ->
  exists dist,
    In (_pick_best_caption candidates, dist) candidates
    /\ forall c, In c candidates ->
                 score c <= score (_pick_best_caption candidates, dist).
Proof.
  destruct candidates as [|c r]; [congruence|]. intros _.
  unfold _pick_best_caption.
  destruct (max_by_spec score c r) as [Hin Hmax].
  exists (snd (max_by score c r)).
  rewrite <- surjective_pairing. split; assumption.
Qed.

(** The length filter reads the text before truncation: every candidate
    handed to [_pick_best_caption] has at least [CAPTION_MIN_LEN]
    characters. *)
Lemma side_candidate_long_enough (cfg : Config) (page : Page)
  (words : list Word) (bbox : BBox) (s : Side) (c : Str * Q) :
  side_candidate cfg page words bbox s = Some c ->
  (CAPTION_MIN_LEN cfg <= len (fst c))%Z.
Proof.
  unfold side_candidate.
  destruct (_words_in_rect words (region cfg page bbox s)); [discriminate|].
  match goal with
  | |- context [if ?b then None else _] => destruct b; [discriminate|]
  end.
  match goal with
  | |- context [(CAPTION_MIN_LEN cfg <=? ?l)%Z] =>
      destruct (Z.leb_spec (CAPTION_MIN_LEN cfg) l) as [Hle|]; [|discriminate]
  end.
  intro H. inversion H; subst c. exact Hle.
Qed.

(** The first of the two length tests reads the text joined from all the
    words of the side. *)
Lemma side_text_full_long_enough (cfg : Config) (page : Page)
  (words : list Word) (bbox : BBox) (s : Side) (c : Str * Q) :
  side_candidate cfg page words bbox s = Some c ->
  (CAPTION_MIN_LEN cfg
   <= len (_join_words_linewise cfg
             (_words_in_rect words (region cfg page bbox s))))%Z.
Proof.
  unfold side_candidate. cbv zeta.
  destruct (_words_in_rect words (region cfg page bbox s)) as [|w ws];
    [discriminate|].
  destruct (nonempty (_join_words_linewise cfg (w :: ws)));
    [|discriminate].
  cbn [negb orb].
  destruct (Z.ltb_spec (len (_join_words_linewise cfg (w :: ws)))
                       (CAPTION_MIN_LEN cfg)) as [|Hle]; [discriminate|].
  intros _. exact Hle.
Qed.

(** Truncation comes last: what [_find_caption_four_directions] returns is
    nothing, or the truncation of the text of a side that gave a
    candidate. *)
Lemma caption_from_side (cfg : Config) (page : Page) (words : list Word)
  (bbox : BBox) :
  _find_caption_four_directions cfg page words bbox = []
  \/ exists side text dist,
       side_candidate cfg page words bbox side = Some (text, dist)
       /\ _find_caption_four_directions cfg page words bbox
          = _truncate_caption_like text.
Proof.
  unfold _find_caption_four_directions. cbv zeta.
  destruct (caption_candidates cfg page words bbox) as [|c r] eqn:E.
  - left. reflexivity.
  - assert (c :: r <> []) as Hne by discriminate.
    destruct (pick_best_member (c :: r) Hne) as (dist & Hin & _).
    destruct (_pick_best_caption (c :: r)) as [|x best] eqn:Eb.
    + left. reflexivity.
    + right. cbn [nonempty]. rewrite <- E in Hin.
      unfold caption_candidates in Hin. apply in_flat_map in Hin.
      destruct Hin as (side & _ & Hs).
      destruct (side_candidate cfg page words bbox side) as [c'|] eqn:Ec;
        simpl in Hs; [|contradiction].
      destruct Hs as [->|[]].
      exists side, (x :: best), dist. split; [exact Ec | reflexivity].
Qed.

(** C10.  The length filter comes before the truncation.  A side gives a
    candidate only when the text joined from its words and the block kept
    from it both have at least [CAPTION_MIN_LEN] characters; the caption
    returned is the truncation of the candidate picked, and nothing measures
    it again.  So a caption can be non-empty and shorter than the minimum: on
    the page holding the line "Fig. 1 shows it" below the figure box, the
    side text of 15 characters passes the minimum length of 8, is picked, and
    is then cut after "Fig.": the caption returned, and stored in the emitted
    record, has 4 characters. *)
Theorem caption_shorter_than_minimum :
  (forall cfg page words bbox side text dist,
      side_candidate cfg page words bbox side = Some (text, dist) ->
      (CAPTION_MIN_LEN cfg <= len text)%Z
      /\ (CAPTION_MIN_LEN cfg
          <= len (_join_words_linewise cfg
                    (_words_in_rect words (region cfg page bbox side))))%Z)
  /\ (forall cfg page words bbox,
        _find_caption_four_directions cfg page words bbox = []
        \/ exists side text dist,
             side_candidate cfg page words bbox side = Some (text, dist)
             /\ (CAPTION_MIN_LEN cfg <= len text)%Z
             /\ _find_caption_four_directions cfg page words bbox
                = _truncate_caption_like text)
  /\ exists (page : Page) (bbox : BBox) (fig : Figure),
       caption_candidates default_config page (page_words page) bbox
       = [(py "Fig. 1 shows it", 0)]
       /\ (CAPTION_MIN_LEN default_config <= len (py "Fig. 1 shows it"))%Z
       /\ _find_caption_four_directions default_config page (page_words page)
            bbox
          = py "Fig."
       /\ py "Fig." <> []
       /\ (len (py "Fig.") < CAPTION_MIN_LEN default_config)%Z
       /\ In fig (figures (extract_images_and_captions default_config [page]))
       /\ fig_caption fig = py "Fig.".
Proof.
  split; [|split].
  - intros cfg page words bbox side text dist H. split.
    + exact (side_candidate_long_enough _ _ _ _ _ _ H).
    + exact (side_text_full_long_enough _ _ _ _ _ _ H).
  - intros cfg page words bbox.
    destruct (caption_from_side cfg page words bbox)
      as [H|(side & text & dist & Hs & Hc)]; [left; exact H|].
    right. exists side, text, dist. split; [exact Hs|]. split; [|exact Hc].
    exact (side_candidate_long_enough _ _ _ _ _ _ Hs).
  - exists (sample_page words_fig_dot image_plain), fig_box,
           (mkFigure (py "FIG_P1_1") 1 (py "Fig.") 500 500 0 None).
    split; [vm_compute; reflexivity|].
    split; [vm_compute; discriminate|].
    split; [vm_compute; reflexivity|].
    split; [discriminate|].
    split; [vm_compute; reflexivity|].
    split; [vm_compute; left; reflexivity|].
    reflexivity.
Qed.

(* ================================================================= *)
(** ** Context Locator *)

Lemma key_ZZ_lt_iff (a b : Z * Z) :
  key_ZZ_lt a b = true
  <-> (fst a < fst b \/ (fst a = fst b /\ snd a < snd b))%Z.
Proof.
  unfold key_ZZ_lt.
  rewrite orb_true_iff, andb_true_iff, !Z.ltb_lt, Z.eqb_eq. reflexivity.
Qed.

Lemma range_le_iff (a b : Z * Z) :
  range_le a b <-> (fst a < fst b \/ (fst a = fst b /\ snd a <= snd b))%Z.
Proof.
  unfold range_le. rewrite <- not_true_iff_false, key_ZZ_lt_iff. lia.
Qed.

Lemma range_le_trans (a b c : Z * Z) :
  range_le a b -> range_le b c -> range_le a c.
Proof. rewrite !range_le_iff. lia. Qed.

Lemma insert_sorted_in {A : Type} (lt : A -> A -> bool) (x y : A) (l : list A) :
  In y (insert_sorted lt x l) <-> y = x \/ In y l.
Proof.
  induction l as [|z l IH]; simpl.
  - intuition congruence.
  - destruct (lt x z); simpl; [intuition congruence|].
    rewrite IH. intuition congruence.
Qed.

Lemma sorted_in {A : Type} (lt : A -> A -> bool) (y : A) (l : list A) :
  In y (sorted lt l) <-> In y l.
Proof.
  unfold sorted.
  assert (forall acc, In y (fold_left (fun acc x => insert_sorted lt x acc) l acc)
                      <-> In y acc \/ In y l) as H.
  { induction l as [|x l IH]; intro acc; simpl; [tauto|].
    rewrite IH, insert_sorted_in. intuition congruence. }
  rewrite H. simpl. tauto.
Qed.

Lemma insert_sorted_ranges (x : Z * Z) (l : list (Z * Z)) :
  StronglySorted range_le l ->
  StronglySorted range_le (insert_sorted key_ZZ_lt x l).
Proof.
  induction 1 as [|y l Hs IH Hall]; simpl.
  - constructor; constructor.
  - destruct (key_ZZ_lt x y) eqn:E.
    + constructor; [constructor; assumption|].
      assert (range_le x y) as Hxy
        by (apply range_le_iff; apply key_ZZ_lt_iff in E; lia).
      constructor; [exact Hxy|].
      rewrite Forall_forall in *. intros z Hz.
      apply (range_le_trans x y z); auto.
    + constructor; [exact IH|].
      rewrite Forall_forall in *. intros z Hz.
      apply insert_sorted_in in Hz. destruct Hz as [->|Hz]; auto.
Qed.

Lemma sorted_ranges (l : list (Z * Z)) :
  StronglySorted range_le (sorted key_ZZ_lt l).
Proof.
  unfold sorted.
  assert (forall acc, StronglySorted range_le acc ->
            StronglySorted range_le
              (fold_left (fun acc x => insert_sorted key_ZZ_lt x acc) l acc))
    as H.
  { induction l as [|x l IH]; intros acc Hacc; simpl; [exact Hacc|].
    apply IH. apply insert_sorted_ranges. exact Hacc. }
  apply H. constructor.
Qed.

Lemma merge_range_rev_snoc (racc : list (Z * Z)) (x r : Z * Z) :
  racc <> [] ->
  merge_range_rev (racc ++ [x]) r = merge_range_rev racc r ++ [x].
Proof.
  destruct racc as [|[ps pe] rest]; [congruence|]. intros _.
  destruct r as [cs ce]. simpl. destruct (cs <=? pe)%Z; reflexivity.
Qed.

Lemma merge_range_rev_spec (m : list (Z * Z)) (r : Z * Z) :
  merge_range m r = rev (merge_range_rev (rev m) r).
Proof.
  induction m as [|x m IH]; [reflexivity|].
  destruct m as [|y m].
  - destruct x as [ps pe], r as [cs ce]. simpl.
    destruct (cs <=? pe)%Z; reflexivity.
  - assert (merge_range (x :: y :: m) r = x :: merge_range (y :: m) r) as E
      by (destruct x; reflexivity).
    rewrite E, IH. change (rev (x :: y :: m)) with (rev (y :: m) ++ [x]).
    rewrite merge_range_rev_snoc.
    + rewrite rev_app_distr. reflexivity.
    + simpl. intro E'. apply app_eq_nil in E'. destruct E'. discriminate.
Qed.

Lemma fold_merge_range_rev (l m : list (Z * Z)) :
  fold_left merge_range l m = rev (fold_left merge_range_rev l (rev m)).
Proof.
  revert m. induction l as [|r l IH]; intro m; simpl.
  - rewrite rev_involutive. reflexivity.
  - rewrite IH, merge_range_rev_spec, rev_involutive. reflexivity.
Qed.

Lemma merge_range_rev_step (total : Z) (racc : list (Z * Z)) (r : Z * Z) :
  gapped_rev total racc -> within_doc total r ->
  (forall p, hd_error racc = Some p -> (fst p <= fst r)%Z) ->
  gapped_rev total (merge_range_rev racc r)
  /\ (forall p, hd_error (merge_range_rev racc r) = Some p ->
                (fst p <= fst r)%Z)
  /\ (forall x, covered x (merge_range_rev racc r)
                <-> covered x racc \/ (fst r <= x < snd r)%Z).
Proof.
  intros [Hs Hw] Hr Hhd.
  destruct racc as [|[ps pe] rest].
  - simpl. split.
    { split; [constructor; constructor|constructor; [exact Hr|constructor]]. }
    split; [intros p E; inversion E; lia|].
    intro x. unfold covered. simpl. split.
    + intros (q & [<-|[]] & Hq). right. exact Hq.
    + intros [(q & [] & _)|Hq]. exists r. auto.
  - unfold within_doc in Hr. destruct r as [cs ce]. simpl in *.
    pose proof (Hhd (ps, pe) eq_refl) as Hps. simpl in Hps.
    inversion Hs as [|? ? Hs' Hh]; subst.
    inversion Hw as [|? ? Hw1 Hw']; subst. unfold within_doc in Hw1.
    simpl in Hw1.
    destruct (Z.leb_spec cs pe) as [Hle|Hgt].
    + split; [split|split].
      * constructor; [exact Hs'|].
        destruct rest as [|q rest']; constructor.
        inversion Hh; subst. simpl. assumption.
      * constructor; [|exact Hw']. unfold within_doc. simpl. lia.
      * intros p E. inversion E; subst p. simpl. lia.
      * intro x. unfold covered. simpl. split.
        -- intros (q & [<-|Hq] & Hx); simpl in Hx.
           ++ destruct (Z.lt_ge_cases x pe).
              ** left. exists (ps, pe). simpl. split; [auto|lia].
              ** right. lia.
           ++ left. exists q. auto.
        -- intros [(q & [<-|Hq] & Hx)|Hx]; simpl in Hx.
           ++ exists (ps, Z.max pe ce). simpl. split; [auto|lia].
           ++ exists q. auto.
           ++ exists (ps, Z.max pe ce). simpl. split; [auto|lia].
    + split; [split|split].
      * constructor; [exact Hs|]. constructor. simpl. lia.
      * constructor; [|exact Hw]. unfold within_doc. simpl. lia.
      * intros p E. inversion E; subst p. simpl. lia.
      * intro x. unfold covered. simpl. split.
        -- intros (q & [<-|Hq] & Hx); [right; exact Hx|].
           left. exists q. auto.
        -- intros [(q & Hq & Hx)|Hx]; [exists q; auto|].
           exists (cs, ce). auto.
Qed.

Lemma merge_ranges_rev_fold (total : Z) (l racc : list (Z * Z)) :
  StronglySorted range_le l ->
  Forall (within_doc total) l ->
  gapped_rev total racc ->
  (forall p r, hd_error racc = Some p -> In r l -> (fst p <= fst r)%Z) ->
  gapped_rev total (fold_left merge_range_rev l racc)
  /\ (forall x, covered x (fold_left merge_range_rev l racc)
                <-> covered x racc \/ covered x l).
Proof.
  revert racc. induction l as [|r l IH]; intros racc Hsort Hw Hg Hhd; simpl.
  - split; [exact Hg|]. intro x. unfold covered at 3. simpl.
    split; [auto|]. intros [H|(q & [] & _)]. exact H.
  - inversion Hsort as [|? ? Hsort' Hall]; subst.
    inversion Hw as [|? ? Hr Hw']; subst.
    destruct (merge_range_rev_step total racc r Hg Hr) as (Hg' & Hhd' & Hcov).
    { intros p E. apply (Hhd p r E). left. reflexivity. }
    destruct (IH (merge_range_rev racc r) Hsort' Hw' Hg') as [Hg'' Hcov'].
    { intros p r' E Hr'. pose proof (Hhd' p E) as H1.
      rewrite Forall_forall in Hall. pose proof (Hall r' Hr') as H2.
      apply range_le_iff in H2. lia. }
    split; [exact Hg''|]. intro x. rewrite Hcov', Hcov.
    unfold covered at 4. simpl. split.
    + intros [[H|H]|(q & Hq & Hx)]; auto.
      * right. exists r. auto.
      * right. exists q. auto.
    + intros [H|(q & [<-|Hq] & Hx)]; auto.
      right. exists q. auto.
Qed.

Lemma sorted_neighbours {A : Type} (R : A -> A -> Prop) (x y : A)
  (l1 l2 : list A) :
  Sorted R (l1 ++ x :: y :: l2) -> R x y.
Proof.
  induction l1 as [|z l1 IH]; simpl; intro H.
  - inversion H as [|? ? _ Hh]; subst. inversion Hh; subst. assumption.
  - inversion H; subst. apply IH. assumption.
Qed.

(** The merged ranges of a list of windows of a document: neighbours are
    separated by a gap, every range lies within the document, and the
    sentences covered are those the windows cover. *)
Lemma merge_ranges_spec (total : Z) (ranges : list (Z * Z)) :
  Forall (within_doc total) ranges ->
  (forall l1 r1 r2 l2, merge_ranges ranges = l1 ++ r1 :: r2 :: l2 ->
                       (snd r1 < fst r2)%Z)
  /\ Forall (within_doc total) (merge_ranges ranges)
  /\ (forall x, covered x (merge_ranges ranges) <-> covered x ranges).
Proof.
  intro Hw. unfold merge_ranges. rewrite fold_merge_range_rev. simpl.
  destruct (merge_ranges_rev_fold total (sorted key_ZZ_lt ranges) [])
    as [[Hs Hf] Hcov].
  - apply sorted_ranges.
  - rewrite Forall_forall in *. intros r Hr. apply Hw.
    apply sorted_in in Hr. exact Hr.
  - split; constructor.
  - intros p r E. discriminate.
  - split; [|split].
    + intros l1 r1 r2 l2 E.
      apply (f_equal (@rev (Z * Z))) in E. rewrite rev_involutive in E.
      rewrite rev_app_distr in E. simpl in E. rewrite <- !app_assoc in E.
      simpl in E. rewrite E in Hs.
      apply (sorted_neighbours _ r2 r1 (rev l2) (rev l1)) in Hs. exact Hs.
    + rewrite Forall_forall in *. intros r Hr. apply Hf.
      apply in_rev. exact Hr.
    + intro x. unfold covered in *. split.
      * intros (r & Hr & Hx). apply in_rev in Hr.
        destruct (proj1 (Hcov x)) as [(q & [] & _)|(q & Hq & Hqx)].
        { exists r. auto. }
        exists q. split; [|exact Hqx]. apply sorted_in in Hq. exact Hq.
      * intros (r & Hr & Hx).
        destruct (proj2 (Hcov x)) as (q & Hq & Hqx).
        { right. exists r. split; [|exact Hx]. apply sorted_in. exact Hr. }
        exists q. split; [|exact Hqx]. apply in_rev.
        rewrite rev_involutive. exact Hq.
Qed.

Lemma in_enumerate_from {A : Type} (l : list A) (start : nat) (x : A) (k : nat) :
  In (x, k) (enumerate_from start l)
  <-> (start <= k)%nat /\ nth_error l (k - start) = Some x.
Proof.
  revert start. induction l as [|y l IH]; intro start; simpl.
  - split; [contradiction|]. intros [_ H]. destruct (k - start)%nat; discriminate.
  - rewrite IH. split.
    + intros [E|[Hle Hn]].
      * inversion E; subst. rewrite Nat.sub_diag. split; [lia|reflexivity].
      * split; [lia|]. replace (k - start)%nat with (S (k - S start)) by lia.
        exact Hn.
    + intros [Hle Hn]. destruct (Nat.eq_dec k start) as [->|Hne].
      * rewrite Nat.sub_diag in Hn. simpl in Hn. inversion Hn. left. reflexivity.
      * right. split; [lia|].
        replace (k - start)%nat with (S (k - S start)) in Hn by lia. exact Hn.
Qed.

Lemma window_spec (total i : Z) :
  (0 <= i < total)%Z ->
  fst (window total i) = Z.max 0 (i - 2)
  /\ (Z.min total (i + 3) <= snd (window total i) <= total)%Z
  /\ (fst (window total i) + 5 <= total ->
      snd (window total i) = fst (window total i) + 5)%Z
  /\ within_doc total (window total i).
Proof.
  intro H. unfold window, within_doc. cbv zeta.
  destruct (Z.ltb_spec (Z.min total (i + 3) - Z.max 0 (i - 2)) 5);
    cbn [fst snd]; lia.
Qed.

Lemma match_windows_in (num : Str) (sentences : list Str) (r : Z * Z) :
  In r (match_windows num sentences)
  <-> exists i s, nth_error sentences i = Some s /\ mentions num s = true
                  /\ r = window (Z.of_nat (List.length sentences)) (Z.of_nat i).
Proof.
  unfold match_windows. rewrite in_flat_map. split.
  - intros ([s i] & Hin & Hr). apply in_enumerate_from in Hin.
    destruct Hin as [_ Hn]. rewrite Nat.sub_0_r in Hn. cbn [fst snd] in Hr.
    destruct (mentions num s) eqn:E; [|contradiction].
    destruct Hr as [<-|[]]. exists i, s. auto.
  - intros (i & s0 & Hn & Hm & ->). exists (s0, i). split.
    + apply in_enumerate_from. rewrite Nat.sub_0_r. split; [lia|exact Hn].
    + cbn [fst snd]. rewrite Hm. left. reflexivity.
Qed.

Lemma match_windows_within (num : Str) (sentences : list Str) :
  Forall (within_doc (Z.of_nat (List.length sentences)))
         (match_windows num sentences).
Proof.
  rewrite Forall_forall. intros r Hr. apply match_windows_in in Hr.
  destruct Hr as (i & s0 & Hn & _ & ->). apply window_spec.
  assert (i < List.length sentences)%nat
    by (apply nth_error_Some; congruence).
  lia.
Qed.

(** C6 fails on the code at the end of a document.  In a document of 5
    sentences or more, the window of a match at one of its last two
    sentences starts two sentences before the match and ends with the
    document: it spans 3 or 4 sentences, although the last 5 sentences of
    the document hold the match.  The step of lines 435-436, meant to widen
    such a window, adds the missing sentences to [end] only, where the
    document is over, and so leaves the window as it was; at the start of the
    document the same step does reach 5 sentences. *)
Theorem window_not_widened_at_document_end (total i : Z) :
  (5 <= total)%Z -> (total - 2 <= i < total)%Z ->
  window total i = (i - 2, total)%Z
  /\ (3 <= snd (window total i) - fst (window total i) < 5)%Z
  /\ (Z.min total (Z.min total (i + 3)
                   + (5 - (Z.min total (i + 3) - Z.max 0 (i - 2))))
      = Z.min total (i + 3))%Z
  /\ within_doc total (total - 5, total)%Z
  /\ (total - 5 <= i < total)%Z
  /\ (forall j, (0 <= j <= 2)%Z -> window total j = (0, 5)%Z).
Proof.
  intros Ht Hi.
  assert (window total i = (i - 2, total)%Z) as Hw.
  { unfold window. cbv zeta.
    destruct (Z.ltb_spec (Z.min total (i + 3) - Z.max 0 (i - 2)) 5);
      f_equal; lia. }
  split; [exact Hw|]. rewrite Hw. cbn [fst snd].
  split; [lia|]. split; [lia|].
  split; [unfold within_doc; cbn [fst snd]; lia|].
  split; [lia|].
  intros j Hj. unfold window. cbv zeta.
  destruct (Z.ltb_spec (Z.min total (j + 3) - Z.max 0 (j - 2)) 5);
    f_equal; lia.
Qed.

Lemma window_not_widened_at_document_end_witness :
  window 20 19 = (17, 20)%Z /\ window 20 1 = (0, 5)%Z.
Proof.
  destruct (window_not_widened_at_document_end 20 19)
    as (H & _ & _ & _ & _ & Hs); [lia | lia |].
  split; [exact H | apply Hs; lia].
Defined.

(** The same on whole documents.  In a document of three sentences the
    window of the middle one is [(0, 3)], all there is; in the document of 20
    sentences whose last one mentions figure 1, the only window is
    [(17, 20)] and the only context string is made of the last three
    sentences. *)
Lemma window_near_edge_shorter_than_five :
  window 3 1 = (0, 3)%Z
  /\ split_sentences twenty_text = twenty_sentences
  /\ List.length twenty_sentences = 20%nat
  /\ match_windows (py "1") twenty_sentences = [(17, 20)%Z]
  /\ window 20 19 = (17, 20)%Z
  /\ (snd (window 20 19) - fst (window 20 19) < 5)%Z
  /\ map fig_contexts (find_contexts is_ascii_digit [figure_one] twenty_text)
     = [Some [py "Filler sentence. Filler sentence. See Figure 1 for details."]].
Proof.
  repeat split; vm_compute; reflexivity.
Qed.

(* ================================================================= *)
(** ** Orchestration *)

(** The loop over the directory stops at the first file that cannot be
    processed: the files before it have been written, the ones after it are
    never reached. *)
Lemma main_stops_at_first_failure (cfg : Config) (is_decimal : N -> bool)
  (before after : list PdfFile) (f : PdfFile) (e : Failure) :
  uncaught (main cfg is_decimal before) = None ->
  is_pdf_name (pdf_name f) = true ->
  process_pdf cfg is_decimal f = inr e ->
  main cfg is_decimal (before ++ f :: after)
  = mkRun (written (main cfg is_decimal before)) (Some (pdf_name f, e)).
Proof.
  intros Hb Hn He. induction before as [|g before IH]; simpl in *.
  - rewrite Hn, He. reflexivity.
  - destruct (is_pdf_name (pdf_name g)); [|exact (IH Hb)].
    destruct (process_pdf cfg is_decimal g) as [out|e']; simpl in *.
    + rewrite (IH Hb). reflexivity.
    + discriminate.
Qed.

(** C5 fails on the code.  Alone in the directory, [readable_pdf] is
    processed and its document written.  Listed after [unreadable_pdf], it is
    never reached: the exception raised while opening the first file leaves
    [process_pdf] and the loop, and the run ends with nothing written. *)
Theorem unreadable_pdf_aborts_run :
  written (main default_config is_ascii_digit [readable_pdf])
  = [mkOutput (py "b")
       [mkFigure (py "FIGURE 3") 1 (py "Figure 3 Overview") 500 500 255
                 (Some [py "Intro. See Figure 3 here. End."])]
       []]
  /\ uncaught (main default_config is_ascii_digit [readable_pdf]) = None
  /\ main default_config is_ascii_digit [unreadable_pdf; readable_pdf]
     = mkRun [] (Some (py "a.pdf", ReaderRaised)).
Proof.
  repeat split; vm_compute; reflexivity.
Qed.

(* ################################################################# *)
(** * Further properties of the script *)

(* ================================================================= *)
(** ** Geometry helpers *)

Lemma Qltb_compat (x x' y y' : Q) :
  x == x' -> y == y' -> Qltb x y = Qltb x' y'.
Proof. intros Hx Hy. unfold Qltb. rewrite Hx, Hy. reflexivity. Qed.

Lemma sq_sum_zero (x y : Q) :
  0 <= x -> 0 <= y -> (x * x + y * y == 0 <-> x == 0 /\ y == 0).
Proof.
  intros Hx Hy.
  pose proof (Qmult_le_0_compat x x Hx Hx) as Hxx.
  pose proof (Qmult_le_0_compat y y Hy Hy) as Hyy.
  split.
  - intro H.
    assert (x * x == 0) as Ex by lra. assert (y * y == 0) as Ey by lra.
    apply Qmult_integral in Ex. apply Qmult_integral in Ey. tauto.
  - intros [Ex Ey]. rewrite Ex, Ey. lra.
Qed.

Lemma axis_gap_nonneg (a0 a1 b0 b1 : Q) : 0 <= Qmax 0 (Qmax (b0 - a1) (a0 - b1)).
Proof. apply Qmax0_nonneg. Qed.

Lemma axis_gap_sym (a0 a1 b0 b1 : Q) :
  Qmax 0 (Qmax (b0 - a1) (a0 - b1)) == Qmax 0 (Qmax (a0 - b1) (b0 - a1)).
Proof. split_minmax; lra. Qed.

Lemma axis_gap_zero (a0 a1 b0 b1 : Q) :
  Qmax 0 (Qmax (b0 - a1) (a0 - b1)) == 0 <-> b0 <= a1 /\ a0 <= b1.
Proof. split; intro H; split_minmax; try split; lra. Qed.

Lemma bbox_dist_sq_sym (a b : BBox) : _bbox_dist_sq a b == _bbox_dist_sq b a.
Proof.
  unfold _bbox_dist_sq. cbv zeta.
  rewrite (axis_gap_sym (bx0 a) (bx1 a) (bx0 b) (bx1 b)).
  rewrite (axis_gap_sym (by0 a) (by1 a) (by0 b) (by1 b)).
  reflexivity.
Qed.

(** X1.  [_bbox_union] gives the smallest box containing both of its
    arguments: it contains each of them, and it lies within every box that
    contains both. *)
Theorem bbox_union_least (a b c : BBox) :
  bbox_within a (_bbox_union a b)
  /\ bbox_within b (_bbox_union a b)
  /\ (bbox_within a c -> bbox_within b c -> bbox_within (_bbox_union a b) c).
Proof.
  split; [apply within_union_l; apply within_refl|].
  split; [apply within_union_r|].
  unfold bbox_within, _bbox_union. simpl.
  intros (A0 & A1 & A2 & A3) (B0 & B1 & B2 & B3).
  split_minmax; repeat split; lra.
Qed.

Lemma bbox_union_least_witness :
  bbox_within fig_box page_box /\ bbox_within far_box page_box
  /\ bbox_within (_bbox_union fig_box far_box) page_box.
Proof.
  assert (bbox_within fig_box page_box) as Ha
    by (unfold bbox_within, Qle; simpl; lia).
  assert (bbox_within far_box page_box) as Hb
    by (unfold bbox_within, Qle; simpl; lia).
  split; [exact Ha|]. split; [exact Hb|].
  exact (proj2 (proj2 (bbox_union_least fig_box far_box page_box)) Ha Hb).
Defined.

(** X2.  The squared edge-to-edge distance of [_bbox_dist] is never
    negative, does not depend on the order of the two boxes, and is zero
    exactly when the boxes touch or overlap. *)
Theorem bbox_dist_zero_iff_meet (a b : BBox) :
  0 <= _bbox_dist_sq a b
  /\ _bbox_dist_sq a b == _bbox_dist_sq b a
  /\ (_bbox_dist_sq a b == 0 <-> boxes_meet a b).
Proof.
  pose proof (axis_gap_nonneg (bx0 a) (bx1 a) (bx0 b) (bx1 b)) as Hx.
  pose proof (axis_gap_nonneg (by0 a) (by1 a) (by0 b) (by1 b)) as Hy.
  split; [|split].
  - unfold _bbox_dist_sq. cbv zeta.
    pose proof (Qmult_le_0_compat _ _ Hx Hx).
    pose proof (Qmult_le_0_compat _ _ Hy Hy). lra.
  - apply bbox_dist_sq_sym.
  - unfold _bbox_dist_sq, boxes_meet. cbv zeta.
    rewrite (sq_sum_zero _ _ Hx Hy), !axis_gap_zero. tauto.
Qed.

Lemma iou_sym (a b : BBox) : iou a b == iou b a.
Proof.
  unfold iou. cbv zeta. rewrite (inter_area_sym a b).
  assert (_bbox_area a + _bbox_area b - inter_area b a + 1e-6
          == _bbox_area b + _bbox_area a - inter_area b a + 1e-6) as E by lra.
  rewrite E. reflexivity.
Qed.

(** X3.  The merge test of the Candidate Merger gives the same answer
    whichever of the two boxes is the new one. *)
Theorem merge_test_symmetric (a b : BBox) : merge_test a b = merge_test b a.
Proof.
  unfold merge_test, _bbox_dist_lt.
  rewrite (Qltb_compat 0.3 0.3 (iou a b) (iou b a));
    [|reflexivity|apply iou_sym].
  rewrite (Qltb_compat (_bbox_dist_sq a b) (_bbox_dist_sq b a)
                       (10 * 10) (10 * 10));
    [reflexivity|apply bbox_dist_sq_sym|reflexivity].
Qed.

Lemma clip_axis (lo hi p0 p1 : Q) :
  1 < Qmax p0 (Qmin hi p1) - Qmax p0 (Qmin lo p1) ->
  p0 <= Qmax p0 (Qmin lo p1) /\ Qmax p0 (Qmin hi p1) <= p1
  /\ lo <= Qmax p0 (Qmin lo p1) /\ Qmax p0 (Qmin hi p1) <= hi.
Proof. intro H. split_minmax; repeat split; lra. Qed.

(** X4.  A box that [_clip_to_page] keeps lies within the page, lies within
    the box that was clipped, and is more than one unit wide and high. *)
Theorem clip_to_page_inside (b pbox c : BBox) :
  _clip_to_page b pbox = Some c ->
  bbox_within c pbox /\ bbox_within c b
  /\ 1 < bx1 c - bx0 c /\ 1 < by1 c - by0 c.
Proof.
  unfold _clip_to_page. cbv zeta.
  match goal with
  | |- context [Qle_bool ?w 1 || Qle_bool ?h 1] =>
      destruct (Qle_bool w 1) eqn:Ew; [discriminate|];
      destruct (Qle_bool h 1) eqn:Eh; [discriminate|]
  end.
  cbn [orb]. intro H. inversion H; subst c. clear H.
  assert (forall x, Qle_bool x 1 = false -> 1 < x) as Hlt.
  { intros x E. apply Qltb_lt. unfold Qltb. rewrite E. reflexivity. }
  apply Hlt in Ew. apply Hlt in Eh.
  destruct (clip_axis _ _ _ _ Ew) as (X0 & X1 & X2 & X3).
  destruct (clip_axis _ _ _ _ Eh) as (Y0 & Y1 & Y2 & Y3).
  unfold bbox_within. cbn [bx0 bx1 by0 by1]. repeat split; assumption.
Qed.

Lemma clip_to_page_inside_witness :
  _clip_to_page box_over_edge page_box = Some (mkBBox 500 100 600 300)
  /\ bbox_within (mkBBox 500 100 600 300) page_box
  /\ bbox_within (mkBBox 500 100 600 300) box_over_edge.
Proof.
  assert (_clip_to_page box_over_edge page_box = Some (mkBBox 500 100 600 300))
    as H by (vm_compute; reflexivity).
  split; [exact H|].
  destruct (clip_to_page_inside _ _ _ H) as (H1 & H2 & _).
  split; [exact H1 | exact H2].
Defined.

(* ================================================================= *)
(** ** Candidate Merger, further *)

Lemma absorb_length (b : BBox) (l l' : list BBox) :
  absorb b l = Some l' -> List.length l' = List.length l.
Proof.
  revert l'. induction l as [|cb rest IH]; intros l' H; simpl in H.
  - discriminate.
  - destruct (merge_test b cb).
    + inversion H. reflexivity.
    + destruct (absorb b rest) as [m|]; [|discriminate].
      simpl in H. inversion H. simpl. rewrite (IH m eq_refl). reflexivity.
Qed.

Lemma fold_box_length (acc boxes : list BBox) :
  (List.length (fold_left fold_box boxes acc)
   <= List.length acc + List.length boxes)%nat.
Proof.
  revert acc. induction boxes as [|b rest IH]; intro acc; simpl; [lia|].
  specialize (IH (fold_box acc b)).
  assert (List.length (fold_box acc b) <= S (List.length acc))%nat as H.
  { unfold fold_box. destruct (absorb b acc) as [m|] eqn:E.
    - rewrite (absorb_length _ _ _ E). lia.
    - rewrite length_app. simpl. lia. }
  lia.
Qed.

(** X5.  The Candidate Merger loses no box and invents none: every input box
    lies within some output candidate, and there are never more candidates
    than input boxes. *)
Theorem merge_candidates_covers_inputs (boxes : list BBox) :
  (forall b, In b boxes ->
             exists c, In c (merge_candidates boxes) /\ bbox_within b c)
  /\ (List.length (merge_candidates boxes) <= List.length boxes)%nat.
Proof.
  split.
  - intros b Hb. apply In_nth_error in Hb. destruct Hb as [k Hk].
    assert (k < List.length boxes)%nat as Hlt
      by (apply nth_error_Some; congruence).
    destruct (merger_invariant_prefix boxes (List.length boxes) (Nat.le_refl _))
      as [Hin Hall].
    rewrite firstn_all in Hin, Hall.
    destruct (Hall k Hlt) as (c & Hc & Hkc).
    destruct (Hin c k Hc Hkc) as (b' & Hb' & Hw).
    assert (b' = b) by congruence. subst b'.
    exists (fst c). split; [|exact Hw].
    rewrite <- merge_traced_boxes. apply in_map. exact Hc.
  - unfold merge_candidates. apply (fold_box_length [] boxes).
Qed.

Lemma merge_candidates_covers_inputs_witness :
  In boxB [boxC; boxA; boxB]
  /\ exists c, In c (merge_candidates [boxC; boxA; boxB]) /\ bbox_within boxB c.
Proof.
  assert (In boxB [boxC; boxA; boxB]) as H by (right; right; left; reflexivity).
  split; [exact H|].
  exact (proj1 (merge_candidates_covers_inputs [boxC; boxA; boxB]) boxB H).
Defined.

Lemma absorb_none_when_apart (b : BBox) (l : list BBox) :
  (forall a, In a l -> merge_test b a = false) -> absorb b l = None.
Proof.
  induction l as [|cb rest IH]; intro H; simpl; [reflexivity|].
  rewrite (H cb (or_introl eq_refl)), IH; [reflexivity|].
  intros a Ha. apply H. right. exact Ha.
Qed.

Lemma fold_box_apart (boxes acc : list BBox) :
  all_apart boxes ->
  (forall a b, In a acc -> In b boxes -> merge_test b a = false) ->
  fold_left fold_box boxes acc = acc ++ boxes.
Proof.
  revert acc. induction boxes as [|b rest IH]; intros acc Hp Hacc; simpl.
  - rewrite app_nil_r. reflexivity.
  - inversion Hp as [|? ? Hb Hrest]; subst.
    unfold fold_box at 2. rewrite absorb_none_when_apart.
    + rewrite IH; [rewrite <- app_assoc; reflexivity|exact Hrest|].
      intros a b' Ha Hb'. apply in_app_or in Ha. destruct Ha as [Ha|[<-|[]]].
      * apply Hacc; [exact Ha|right; exact Hb'].
      * rewrite Forall_forall in Hb. apply Hb. exact Hb'.
    + intros a Ha. apply Hacc; [exact Ha|left; reflexivity].
Qed.

(** X6.  When no input box passes the merge test with a box read before it,
    the Candidate Merger returns the input boxes unchanged, in order. *)
Theorem merge_candidates_apart (boxes : list BBox) :
  all_apart boxes -> merge_candidates boxes = boxes.
Proof.
  intro H. unfold merge_candidates.
  rewrite (fold_box_apart boxes [] H); [reflexivity|]. intros a b [].
Qed.

Lemma merge_candidates_apart_witness :
  all_apart [fig_box; far_box]
  /\ merge_candidates [fig_box; far_box] = [fig_box; far_box].
Proof.
  assert (all_apart [fig_box; far_box]) as H.
  { unfold all_apart. constructor.
    - constructor; [vm_compute; reflexivity|constructor].
    - constructor; [constructor|constructor]. }
  split; [exact H|]. exact (merge_candidates_apart _ H).
Defined.

(* ================================================================= *)
(** ** Strings and captions, further *)

Lemma lstrip_suffix (s : Str) : exists pre, s = pre ++ lstrip s.
Proof.
  induction s as [|c r [pre IH]]; [exists []; reflexivity|]. simpl.
  destruct (is_space c).
  - exists (c :: pre). simpl. f_equal. exact IH.
  - exists []. reflexivity.
Qed.

Lemma lstrip_fixed_iff (s : Str) :
  lstrip s = s <-> match s with [] => True | c :: _ => is_space c = false end.
Proof.
  destruct s as [|c r]; [tauto|]. simpl. destruct (is_space c) eqn:E.
  - split; [|discriminate]. intro H.
    destruct (lstrip_suffix r) as [pre Hp].
    apply (f_equal (@List.length N)) in H. rewrite Hp in H at 2.
    simpl in H. rewrite length_app in H. lia.
  - tauto.
Qed.

Lemma lstrip_idem (s : Str) : lstrip (lstrip s) = lstrip s.
Proof.
  induction s as [|c r IH]; [reflexivity|]. simpl.
  destruct (is_space c) eqn:E; [exact IH|]. simpl. rewrite E. reflexivity.
Qed.

Lemma lstrip_snoc (x : Str) (c : N) :
  is_space c = false -> exists y, lstrip (x ++ [c]) = y ++ [c].
Proof.
  intro Hc. induction x as [|a x [y IH]]; simpl.
  - rewrite Hc. exists []. reflexivity.
  - destruct (is_space a); [exists y; exact IH|].
    exists (a :: x). reflexivity.
Qed.

Lemma rstrip_prefix (s : Str) : exists post, s = rstrip s ++ post.
Proof.
  unfold rstrip. destruct (lstrip_suffix (rev s)) as [pre H].
  exists (rev pre). rewrite <- rev_app_distr, <- H, rev_involutive. reflexivity.
Qed.

Lemma rstrip_idem (s : Str) : rstrip (rstrip s) = rstrip s.
Proof. unfold rstrip. rewrite rev_involutive, lstrip_idem. reflexivity. Qed.

Lemma rstrip_keeps_head (u : Str) : lstrip u = u -> lstrip (rstrip u) = rstrip u.
Proof.
  intro H. destruct u as [|c u']; [reflexivity|].
  apply lstrip_fixed_iff in H.
  unfold rstrip. simpl rev.
  destruct (lstrip_snoc (rev u') c H) as [y Hy]. rewrite Hy.
  rewrite rev_app_distr. simpl. rewrite H. reflexivity.
Qed.

Lemma strip_fixed (s : Str) : lstrip (strip s) = strip s /\ rstrip (strip s) = strip s.
Proof.
  unfold strip. split.
  - apply rstrip_keeps_head. apply lstrip_idem.
  - apply rstrip_idem.
Qed.

Lemma strip_idem (s : Str) : strip (strip s) = strip s.
Proof.
  destruct (strip_fixed s) as [H1 H2].
  unfold strip at 1. rewrite H1. exact H2.
Qed.

Lemma lstrip_length (s : Str) : (List.length (lstrip s) <= List.length s)%nat.
Proof.
  destruct (lstrip_suffix s) as [pre H].
  rewrite H at 2. rewrite length_app. lia.
Qed.

Lemma strip_length (s : Str) : (List.length (strip s) <= List.length s)%nat.
Proof.
  unfold strip, rstrip. rewrite length_rev.
  pose proof (lstrip_length (rev (lstrip s))) as H. rewrite length_rev in H.
  pose proof (lstrip_length s). lia.
Qed.

Lemma split_head_idem (b : bool) (s : Str) :
  split_head b (split_head b s) = split_head b s.
Proof.
  revert b. induction s as [|c r IH]; intro b; [reflexivity|]. simpl.
  destruct (b && is_space c) eqn:E; [reflexivity|].
  simpl. rewrite E, IH. reflexivity.
Qed.

Lemma split_head_weaken (b : bool) (s : Str) :
  split_head b s = s -> split_head false s = s.
Proof.
  destruct s as [|c r]; [reflexivity|]. simpl.
  destruct (b && is_space c); [discriminate|]. tauto.
Qed.

Lemma split_head_fixed_suffix (b : bool) (p q : Str) :
  split_head b (p ++ q) = p ++ q -> split_head false q = q.
Proof.
  revert b. induction p as [|c p IH]; intro b; simpl.
  - apply split_head_weaken.
  - destruct (b && is_space c); [discriminate|].
    intro H. injection H as H'. exact (IH _ H').
Qed.

Lemma split_head_fixed_prefix (b : bool) (p q : Str) :
  split_head b (p ++ q) = p ++ q -> split_head b p = p.
Proof.
  revert b. induction p as [|c p IH]; intro b; simpl; [reflexivity|].
  destruct (b && is_space c); [discriminate|].
  intro H. injection H as H'. f_equal. exact (IH _ H').
Qed.

Lemma split_head_length (b : bool) (s : Str) :
  (List.length (split_head b s) <= List.length s)%nat.
Proof.
  revert b. induction s as [|c r IH]; intro b; simpl; [lia|].
  destruct (b && is_space c); simpl; [lia|].
  specialize (IH (is_sentence_end c)). lia.
Qed.

(** X7.  Truncating a caption twice changes nothing more, and the truncated
    caption is never longer than the text it was cut from. *)
Theorem truncate_caption_idempotent (text : Str) :
  _truncate_caption_like (_truncate_caption_like text)
  = _truncate_caption_like text
  /\ (len (_truncate_caption_like text) <= len text)%Z.
Proof.
  split.
  - destruct text as [|c t]; [reflexivity|].
    unfold _truncate_caption_like at 2 3.
    set (h := split_head false (c :: t)).
    assert (split_head false (strip h) = strip h) as Hfix.
    { assert (split_head false h = h) as Hh by apply split_head_idem.
      destruct (lstrip_suffix h) as [pre Hp].
      destruct (rstrip_prefix (lstrip h)) as [post Hq].
      rewrite Hp in Hh. apply split_head_fixed_suffix in Hh.
      rewrite Hq in Hh. apply split_head_fixed_prefix in Hh. exact Hh. }
    assert (forall r, split_head false r = r -> strip r = r ->
                      _truncate_caption_like r = r) as Hgen.
    { intros r H1 H2. destruct r; [reflexivity|].
      unfold _truncate_caption_like. rewrite H1. exact H2. }
    apply Hgen; [exact Hfix|apply strip_idem].
  - unfold len. apply inj_le.
    destruct text as [|c t]; [simpl; lia|].
    unfold _truncate_caption_like.
    pose proof (strip_length (split_head false (c :: t))).
    pose proof (split_head_length false (c :: t)). lia.
Qed.

Lemma is_forbidden_underscore : is_forbidden 95 = false.
Proof. reflexivity. Qed.

Lemma sanitize_clean (name : Str) :
  Forall (fun c => is_forbidden c = false) (_sanitize_for_filename name).
Proof.
  unfold _sanitize_for_filename. rewrite Forall_forall. intros c Hc.
  apply in_map_iff in Hc. destruct Hc as (x & <- & _).
  destruct (is_forbidden x) eqn:E; [reflexivity|exact E].
Qed.

(** X8.  [_sanitize_for_filename] keeps the length of a name, leaves none of
    the nine forbidden characters in it, changes nothing when applied again,
    and returns a name without forbidden characters as it is. *)
Theorem sanitize_for_filename_clean (name : Str) :
  List.length (_sanitize_for_filename name) = List.length name
  /\ Forall (fun c => is_forbidden c = false) (_sanitize_for_filename name)
  /\ _sanitize_for_filename (_sanitize_for_filename name)
     = _sanitize_for_filename name
  /\ (Forall (fun c => is_forbidden c = false) name ->
      _sanitize_for_filename name = name).
Proof.
  unfold _sanitize_for_filename.
  split; [apply length_map|].
  assert (Forall (fun c => is_forbidden c = false)
                 (map (fun c => if is_forbidden c then 95%N else c) name)) as Hc.
  { rewrite Forall_forall. intros c Hc. apply in_map_iff in Hc.
    destruct Hc as (x & <- & _).
    destruct (is_forbidden x) eqn:E; [reflexivity|exact E]. }
  assert (forall l, Forall (fun c => is_forbidden c = false) l ->
                    map (fun c => if is_forbidden c then 95%N else c) l = l)
    as Hid.
  { induction 1 as [|x l Hx _ IH]; simpl; [reflexivity|].
    rewrite Hx, IH. reflexivity. }
  split; [exact Hc|]. split; [apply Hid; exact Hc|apply Hid].
Qed.

Lemma sanitize_for_filename_clean_witness :
  Forall (fun c => is_forbidden c = false) (py "FIGURE 2.1")
  /\ _sanitize_for_filename (py "FIGURE 2.1") = py "FIGURE 2.1".
Proof.
  assert (Forall (fun c => is_forbidden c = false) (py "FIGURE 2.1")) as H
    by (repeat constructor).
  split; [exact H|].
  exact (proj2 (proj2 (proj2 (sanitize_for_filename_clean (py "FIGURE 2.1")))) H).
Defined.

Lemma first_some_some {A B : Type} (f : A -> option B) (l : list A) (y : B) :
  first_some f l = Some y -> exists x, In x l /\ f x = Some y.
Proof.
  induction l as [|x l IH]; simpl; [discriminate|].
  destruct (f x) as [z|] eqn:E.
  - intro H. inversion H; subst. exists x. auto.
  - intro H. destruct (IH H) as (x' & Hx & Hf). exists x'. auto.
Qed.

Lemma first_some_defined {A B : Type} (f : A -> option B) (l : list A) (x : A) :
  In x l -> f x <> None -> first_some f l <> None.
Proof.
  induction l as [|a l IH]; simpl; [contradiction|].
  intros [->|Hx] Hf.
  - destruct (f x); [discriminate|congruence].
  - destruct (f a); [discriminate|]. apply IH; assumption.
Qed.

Lemma match_literal_ci_length (pat s m rest : Str) :
  match_literal_ci pat s = Some (m, rest) ->
  List.length m = List.length pat /\ s = m ++ rest.
Proof.
  revert s m rest. induction pat as [|p pat IH]; intros s m rest H.
  - destruct s; simpl in H; inversion H; auto.
  - destruct s as [|c s]; simpl in H; [discriminate|].
    destruct (ci_eqb p c); [|discriminate].
    destruct (match_literal_ci pat s) as [[m' r']|] eqn:E; [|discriminate].
    inversion H; subst. destruct (IH _ _ _ E) as [L ->].
    simpl. rewrite L. auto.
Qed.

Lemma label_alternatives_nonempty (alt : Str) :
  In alt label_alternatives -> alt <> [].
Proof.
  unfold label_alternatives. simpl.
  intros H; repeat (destruct H as [<-|H]; [discriminate|]); contradiction.
Qed.

Lemma label_number_digit (s n : Str) :
  label_number s = Some n ->
  exists d rest, n = d :: rest /\ is_ascii_digit d = true.
Proof.
  unfold label_number.
  destruct s as [|c r]; simpl; [discriminate|].
  destruct (is_ascii_digit c) eqn:E; [|discriminate].
  destruct (take_while is_ascii_digit r) as [a b].
  intro H. inversion H. eexists c, _. split; [reflexivity|exact E].
Qed.

(** X9.  Whenever [LABEL_REGEX] matches a caption, the second match of
    [_extract_origin_id_from_caption] succeeds as well (its [.group(1)] is
    never taken on [None]), and the identifier returned is the label word as
    written, one space, and the number, which starts with an ASCII digit. *)
Theorem origin_id_from_label (caption number : Str) :
  LABEL_REGEX_match caption = Some number ->
  exists prefix,
    label_prefix caption = Some prefix
    /\ prefix <> []
    /\ _extract_origin_id_from_caption caption = prefix ++ py " " ++ number
    /\ exists d rest, number = d :: rest /\ is_ascii_digit d = true.
Proof.
  intro H. pose proof H as H0. unfold LABEL_REGEX_match in H. cbv zeta in H.
  apply first_some_some in H. destruct H as (alt & Halt & Hf).
  destruct (match_literal_ci alt (lstrip caption)) as [[m rest]|] eqn:Em;
    [|discriminate].
  destruct (label_prefix caption) as [prefix|] eqn:Ep.
  - exists prefix. split; [reflexivity|]. split; [|split].
    + unfold label_prefix in Ep. apply first_some_some in Ep.
      destruct Ep as (alt' & Halt' & Hf').
      destruct (match_literal_ci alt' (lstrip caption)) as [[m' r']|] eqn:Em';
        [|discriminate].
      simpl in Hf'. inversion Hf'; subst m'.
      apply match_literal_ci_length in Em'. destruct Em' as [L _].
      pose proof (label_alternatives_nonempty alt' Halt') as Hne.
      destruct prefix; [|discriminate].
      destruct alt'; [congruence|discriminate].
    + unfold _extract_origin_id_from_caption. rewrite H0, Ep. reflexivity.
    + apply (label_number_digit _ _ Hf).
  - exfalso. unfold label_prefix in Ep. revert Ep.
    apply (first_some_defined _ _ alt Halt). rewrite Em. discriminate.
Qed.

Lemma origin_id_from_label_witness :
  LABEL_REGEX_match (py "Fig. 2.1 shows the loop") = Some (py "2.1")
  /\ _extract_origin_id_from_caption (py "Fig. 2.1 shows the loop")
     = py "Fig. 2.1".
Proof.
  assert (LABEL_REGEX_match (py "Fig. 2.1 shows the loop") = Some (py "2.1"))
    as H by (vm_compute; reflexivity).
  split; [exact H|].
  destruct (origin_id_from_label _ _ H) as (prefix & Hp & _ & E & _).
  rewrite E. vm_compute in Hp. inversion Hp. reflexivity.
Defined.

Lemma upper_char_idem (c : N) : upper_char (upper_char c) = upper_char c.
Proof.
  unfold upper_char at 2 3.
  destruct (in_range 97 122 c) eqn:E1.
  - unfold in_range in E1. apply andb_true_iff in E1. destruct E1 as [H1 H2].
    apply N.leb_le in H1. apply N.leb_le in H2.
    unfold upper_char, in_range.
    destruct (N.leb_spec 97 (c - 32)); [lia|]. cbn [andb].
    destruct (N.eqb_spec (c - 32) 305); [lia|].
    destruct (N.eqb_spec (c - 32) 383); [lia|]. reflexivity.
  - destruct (N.eqb_spec c 305); [reflexivity|].
    destruct (N.eqb_spec c 383); [reflexivity|].
    unfold upper_char. rewrite E1.
    destruct (N.eqb_spec c 305); [contradiction|].
    destruct (N.eqb_spec c 383); [contradiction|]. reflexivity.
Qed.

Lemma upper_idem (s : Str) : upper (upper s) = upper s.
Proof.
  unfold upper. rewrite map_map. apply map_ext. apply upper_char_idem.
Qed.

Lemma upper_char_digit (c : N) : is_ascii_digit c = true -> upper_char c = c.
Proof.
  unfold is_ascii_digit, upper_char, in_range. intro H.
  apply andb_true_iff in H. destruct H as [H1 H2].
  apply N.leb_le in H1. apply N.leb_le in H2.
  repeat match goal with
         | |- context [(?a <=? ?b)%N] => destruct (N.leb_spec a b)
         | |- context [(?a =? ?b)%N] => destruct (N.eqb_spec a b)
         end; cbn [andb]; try reflexivity; lia.
Qed.

Lemma str_of_nat_digits (n : nat) :
  Forall (fun c => is_ascii_digit c = true) (str_of_nat n).
Proof.
  unfold str_of_nat. generalize (Nat.to_uint n). intro d.
  induction d; simpl; constructor; try reflexivity; assumption.
Qed.

Lemma upper_digits (s : Str) :
  Forall (fun c => is_ascii_digit c = true) s -> upper s = s.
Proof.
  induction 1 as [|c s Hc _ IH]; simpl; [reflexivity|].
  rewrite (upper_char_digit c Hc). f_equal. exact IH.
Qed.

Lemma origin_id_of_nonempty (caption : Str) (page_num idx : nat) :
  origin_id_of caption page_num idx <> [].
Proof.
  unfold origin_id_of. cbv zeta.
  match goal with |- upper ?x <> [] => assert (x <> []) as H end.
  { match goal with
    | |- (if nonempty ?r then _ else _) <> [] => destruct r eqn:E
    end; simpl; discriminate. }
  unfold upper. intro E. apply map_eq_nil in E. contradiction.
Qed.

(** X10.  The origin identifier of a candidate is never empty and is already
    in upper case; when the caption carries no label it is the synthetic
    [FIG_P<page>_<index>]. *)
Theorem origin_id_of_shape (caption : Str) (page_num idx : nat) :
  origin_id_of caption page_num idx <> []
  /\ upper (origin_id_of caption page_num idx) = origin_id_of caption page_num idx
  /\ (LABEL_REGEX_match caption = None ->
      origin_id_of caption page_num idx
      = py "FIG_P" ++ str_of_nat page_num ++ py "_" ++ str_of_nat idx).
Proof.
  split; [apply origin_id_of_nonempty|].
  unfold origin_id_of. cbv zeta. split.
  - apply upper_idem.
  - intro Hn. unfold _extract_origin_id_from_caption. rewrite Hn.
    destruct (nonempty caption); cbn [nonempty].
    + unfold upper. rewrite !map_app.
      change (map upper_char (str_of_nat page_num))
        with (upper (str_of_nat page_num)).
      change (map upper_char (str_of_nat idx)) with (upper (str_of_nat idx)).
      rewrite (upper_digits _ (str_of_nat_digits page_num)),
        (upper_digits _ (str_of_nat_digits idx)). reflexivity.
    + unfold upper. rewrite !map_app.
      change (map upper_char (str_of_nat page_num))
        with (upper (str_of_nat page_num)).
      change (map upper_char (str_of_nat idx)) with (upper (str_of_nat idx)).
      rewrite (upper_digits _ (str_of_nat_digits page_num)),
        (upper_digits _ (str_of_nat_digits idx)). reflexivity.
Qed.

Lemma origin_id_of_shape_witness :
  LABEL_REGEX_match (py "Fig.") = None
  /\ origin_id_of (py "Fig.") 1 1 = py "FIG_P1_1".
Proof.
  assert (LABEL_REGEX_match (py "Fig.") = None) as H by (vm_compute; reflexivity).
  split; [exact H|].
  exact (proj2 (proj2 (origin_id_of_shape (py "Fig.") 1 1)) H).
Defined.

Lemma sanitize_nonempty (s : Str) : s <> [] -> _sanitize_for_filename s <> [].
Proof.
  intros H E. unfold _sanitize_for_filename in E.
  apply map_eq_nil in E. contradiction.
Qed.

(** X11.  The last part of an image file name holds none of the forbidden
    characters and is never empty for the identifier the loop passes; and the
    label used for the file name is empty exactly when the caption yields no
    origin identifier. *)
Theorem file_tail_valid (caption origin_id : Str) (page_num idx : nat) :
  Forall (fun c => is_forbidden c = false) (file_tail caption origin_id)
  /\ file_tail caption (origin_id_of caption page_num idx) <> []
  /\ (_normalize_label_for_filename caption = []
      <-> _extract_origin_id_from_caption caption = []).
Proof.
  split; [|split].
  - unfold file_tail. cbv zeta.
    destruct (nonempty (_normalize_label_for_filename caption));
      apply sanitize_clean.
  - unfold file_tail. cbv zeta.
    destruct (_normalize_label_for_filename caption) as [|c l] eqn:E;
      cbn [nonempty].
    + apply sanitize_nonempty. apply origin_id_of_nonempty.
    + apply sanitize_nonempty. discriminate.
  - unfold _normalize_label_for_filename, _extract_origin_id_from_caption.
    destruct caption as [|c0 rest]; [split; reflexivity|].
    destruct (LABEL_REGEX_match (c0 :: rest)) as [number|]; [|tauto].
    destruct (label_prefix (c0 :: rest)) as [prefix|]; [|tauto].
    destruct (is_english_label prefix); cbv zeta; split; intro H;
      apply app_eq_nil in H; destruct H as [_ H]; discriminate.
Qed.

(** X12.  From a non-empty list, [_pick_best_caption] returns the text of one
    of the candidates, and no candidate of the list has a higher score; from
    the empty list it returns the empty string. *)
Theorem pick_best_caption_maximal (candidates : list (Str * Q)) :
  candidates <> [] ->
  (exists dist,
      In (_pick_best_caption candidates, dist) candidates
      /\ forall c, In c candidates ->
                   score c <= score (_pick_best_caption candidates, dist))
  /\ _pick_best_caption [] = [].
Proof.
  intro H. split; [apply pick_best_member; exact H|reflexivity].
Qed.

Lemma pick_best_caption_maximal_witness :
  [(short_plain, 0); (py "Figure 3 Overview", 0)] <> []
  /\ exists dist,
       In (_pick_best_caption [(short_plain, 0); (py "Figure 3 Overview", 0)],
           dist)
          [(short_plain, 0); (py "Figure 3 Overview", 0)].
Proof.
  assert ([(short_plain, 0); (py "Figure 3 Overview", 0)] <> []) as H
    by discriminate.
  split; [exact H|].
  destruct (pick_best_caption_maximal _ H) as ((dist & Hin & _) & _).
  exists dist. exact Hin.
Defined.

(** X13.  The caption found around a box is either empty or the truncation
    of the text of one side, a text of at least [CAPTION_MIN_LEN]
    characters; on a page without words it is empty. *)
Theorem caption_is_truncated_side_text (cfg : Config) (page : Page)
  (words : list Word) (bbox : BBox) :
  (_find_caption_four_directions cfg page words bbox = []
   \/ exists side text dist,
        side_candidate cfg page words bbox side = Some (text, dist)
        /\ (CAPTION_MIN_LEN cfg <= len text)%Z
        /\ _find_caption_four_directions cfg page words bbox
           = _truncate_caption_like text)
  /\ _find_caption_four_directions cfg page [] bbox = [].
Proof.
  split; [|reflexivity].
  unfold _find_caption_four_directions. cbv zeta.
  destruct (caption_candidates cfg page words bbox) as [|c r] eqn:E.
  - left. reflexivity.
  - assert (c :: r <> []) as Hne by discriminate.
    destruct (pick_best_member (c :: r) Hne) as (dist & Hin & _).
    destruct (_pick_best_caption (c :: r)) as [|x best] eqn:Eb.
    + left. reflexivity.
    + right. cbn [nonempty]. rewrite <- E in Hin.
      unfold caption_candidates in Hin. apply in_flat_map in Hin.
      destruct Hin as (side & _ & Hs).
      destruct (side_candidate cfg page words bbox side) as [c'|] eqn:Ec;
        simpl in Hs; [|contradiction].
      destruct Hs as [->|[]].
      exists side, (x :: best), dist. split; [exact Ec|]. split.
      * apply (side_candidate_long_enough _ _ _ _ _ _ Ec).
      * reflexivity.
Qed.

(* ================================================================= *)
(** ** Content Classifier and type heuristics, further *)

Lemma text_area_nonneg (ws : list Word) (acc : Q) :
  0 <= acc ->
  0 <= fold_left (fun acc w => acc + Qmax 0 (w_x1 w - w_x0 w)
                                     * Qmax 0 (w_bottom w - w_top w)) ws acc.
Proof.
  revert acc. induction ws as [|w ws IH]; intros acc H; simpl; [exact H|].
  apply IH.
  pose proof (Qmult_le_0_compat _ _ (Qmax0_nonneg (w_x1 w - w_x0 w))
                                (Qmax0_nonneg (w_bottom w - w_top w))).
  lra.
Qed.

Lemma capped_ratio_nonneg (ta ar : Q) : 0 <= ta -> 0 <= Qmin 1 (ta / Qmax 1 ar).
Proof.
  intro H.
  assert (0 < Qmax 1 ar) as Hpos by (split_minmax; lra).
  assert (0 <= ta / Qmax 1 ar) as Hd.
  { apply Qle_shift_div_l; [exact Hpos|]. lra. }
  revert Hd. generalize (ta / Qmax 1 ar). intros q Hq. split_minmax; lra.
Qed.

(** X14.  The text ratio of [_text_and_edge_score] lies between 0 and 1, it
    is 0 when no word lies inside the box, and the edge score lies between 0
    and 1 when the mean edge intensity lies between 0 and 255. *)
Theorem text_and_edge_score_bounds (words : list Word) (bbox : BBox)
  (img : Image) :
  0 <= fst (_text_and_edge_score words bbox img)
  /\ fst (_text_and_edge_score words bbox img) <= 1
  /\ (_words_in_rect words bbox = [] ->
      fst (_text_and_edge_score words bbox img) == 0)
  /\ (0 <= img_edge_mean img /\ img_edge_mean img <= 255 ->
      0 <= snd (_text_and_edge_score words bbox img)
      /\ snd (_text_and_edge_score words bbox img) <= 1).
Proof.
  split; [|split; [apply text_ratio_capped|split]].
  - unfold _text_and_edge_score. cbn [fst].
    apply capped_ratio_nonneg. apply text_area_nonneg. lra.
  - intro E. unfold _text_and_edge_score. cbn [fst]. rewrite E. simpl fold_left.
    unfold Qdiv. rewrite Qmult_0_l. split_minmax; lra.
  - intros [H0 H1]. unfold _text_and_edge_score. cbn [snd]. split.
    + apply Qle_shift_div_l; lra.
    + apply Qle_shift_div_r; lra.
Qed.

Lemma text_and_edge_score_bounds_witness :
  _words_in_rect words_figure_3 fig_box = []
  /\ fst (_text_and_edge_score words_figure_3 fig_box image_plain) == 0.
Proof.
  assert (_words_in_rect words_figure_3 fig_box = []) as H
    by (vm_compute; reflexivity).
  split; [exact H|].
  exact (proj1 (proj2 (proj2 (text_and_edge_score_bounds words_figure_3 fig_box
                                image_plain))) H).
Defined.

(** X15.  With matching cluster statistics, the classifier rejects a
    candidate exactly when the text and edge test fails it and the statistics
    look neither like a chart nor like a bar chart; statistics that look like
    a table (with a count of curves that is not negative) look like a chart
    or a bar chart as well, so such a candidate is never rejected. *)
Theorem likely_graphics_never_plain_text (text_ratio mean_edge : Q)
  (st : Stats) :
  _looks_like_plain_text text_ratio mean_edge (Some st)
  = negb (_is_likely_chart st || _is_likely_barchart st)
    && (Qltb 0.55 text_ratio && Qltb mean_edge 0.10)
  /\ implb (_is_likely_table st && (0 <=? st_curves st)%Z)
           (_is_likely_chart st || _is_likely_barchart st) = true.
Proof.
  unfold _looks_like_plain_text, _is_likely_chart, _is_likely_barchart,
    _is_likely_table, CHART_LINE_MIN, BAR_RECT_MIN, GRID_HV_MIN.
  cbn [fst snd].
  split.
  - destruct (6 <=? st_lines st + st_curves st)%Z; [reflexivity|].
    destruct (3 <=? st_rects st)%Z; reflexivity.
  - destruct (Z.leb_spec (3 + 3) (st_lines st));
      destruct (Z.leb_spec 3 (st_lines st));
      destruct (Z.leb_spec 3 (st_rects st));
      destruct (Z.leb_spec 0 (st_curves st));
      destruct (Z.leb_spec 6 (st_lines st + st_curves st));
      cbn [andb orb implb]; try reflexivity; lia.
Qed.

(* ================================================================= *)
(** ** Graphic Clusterer, further *)

Section StatsSums.

(** A count read off the statistics, such as the number of lines. *)
Variable f : Stats -> Z.
Hypothesis f_add : forall a b, f (stats_add a b) = (f a + f b)%Z.
Hypothesis f_zero : f (mkStats 0 0 0) = 0%Z.

Lemma stats_total_app (l1 l2 : list (BBox * Stats)) :
  f (stats_total (l1 ++ l2))
  = (f (stats_total l1) + f (stats_total l2))%Z.
Proof.
  induction l1 as [|c l1 IH]; simpl.
  - rewrite f_zero. lia.
  - rewrite !f_add, IH. lia.
Qed.

Lemma absorb_primitive_total (cfg : Config) (bbox : BBox) (stat : Stats)
  (l l' : list (BBox * Stats)) :
  absorb_primitive cfg bbox stat l = Some l' ->
  f (stats_total l') = (f (stats_total l) + f stat)%Z.
Proof.
  revert l'. induction l as [|[cb cstat] rest IH]; intros l' H; simpl in H.
  - discriminate.
  - destruct (_bbox_dist_le (_bbox_expand bbox (MERGE_DIST cfg)) cb
                            (MERGE_DIST cfg)).
    + inversion H; subst. simpl. rewrite !f_add. lia.
    + destruct (absorb_primitive cfg bbox stat rest) as [m|];
        [|discriminate].
      simpl in H. inversion H; subst. simpl. rewrite !f_add.
      rewrite (IH m eq_refl). lia.
Qed.

Lemma cluster_step_total (cfg : Config) (l : list (BBox * Stats))
  (p : BBox * Stats) :
  f (stats_total (cluster_step cfg l p))
  = (f (stats_total l) + f (snd p))%Z.
Proof.
  unfold cluster_step.
  destruct (absorb_primitive cfg (fst p) (snd p) l) as [m|] eqn:E.
  - apply (absorb_primitive_total _ _ _ _ _ E).
  - rewrite stats_total_app. simpl. rewrite f_add, f_zero. lia.
Qed.

Lemma clusters_total (cfg : Config) (prims acc : list (BBox * Stats)) :
  f (stats_total (fold_left (cluster_step cfg) prims acc))
  = (f (stats_total acc) + f (stats_total prims))%Z.
Proof.
  revert acc. induction prims as [|p prims IH]; intro acc; simpl.
  - rewrite f_zero. lia.
  - rewrite IH, cluster_step_total, f_add. lia.
Qed.

Lemma tagged_total (s : Stats) (l : list BBox) :
  f (stats_total (map (fun b => (b, s)) l))
  = (Z.of_nat (List.length l) * f s)%Z.
Proof.
  induction l as [|b l IH]; [simpl; rewrite f_zero; lia|].
  change (f (stats_add s (stats_total (map (fun b0 => (b0, s)) l)))
          = (Z.of_nat (S (List.length l)) * f s)%Z).
  rewrite f_add, IH. lia.
Qed.

Lemma graphic_clusters_total (cfg : Config) (page : Page) :
  f (stats_total (graphic_clusters cfg page))
  = (Z.of_nat (List.length (page_lines page)) * f (mkStats 1 0 0)
     + Z.of_nat (List.length (page_rects page)) * f (mkStats 0 1 0)
     + Z.of_nat (List.length (page_curves page)) * f (mkStats 0 0 1))%Z.
Proof.
  unfold graphic_clusters, page_primitives.
  rewrite clusters_total, !stats_total_app, !tagged_total.
  simpl. rewrite f_zero. lia.
Qed.

End StatsSums.

Lemma absorb_primitive_length (cfg : Config) (bbox : BBox) (stat : Stats)
  (l l' : list (BBox * Stats)) :
  absorb_primitive cfg bbox stat l = Some l' ->
  List.length l' = List.length l.
Proof.
  revert l'. induction l as [|[cb cstat] rest IH]; intros l' H; simpl in H.
  - discriminate.
  - destruct (_bbox_dist_le (_bbox_expand bbox (MERGE_DIST cfg)) cb
                            (MERGE_DIST cfg)).
    + inversion H. reflexivity.
    + destruct (absorb_primitive cfg bbox stat rest) as [m|]; [|discriminate].
      simpl in H. inversion H. simpl. rewrite (IH m eq_refl). reflexivity.
Qed.

Lemma clusters_length (cfg : Config) (prims acc : list (BBox * Stats)) :
  (List.length (fold_left (cluster_step cfg) prims acc)
   <= List.length acc + List.length prims)%nat.
Proof.
  revert acc. induction prims as [|p prims IH]; intro acc; simpl; [lia|].
  specialize (IH (cluster_step cfg acc p)).
  assert (List.length (cluster_step cfg acc p) <= S (List.length acc))%nat.
  { unfold cluster_step.
    destruct (absorb_primitive cfg (fst p) (snd p) acc) as [m|] eqn:E.
    - rewrite (absorb_primitive_length _ _ _ _ _ E). lia.
    - rewrite length_app. simpl. lia. }
  lia.
Qed.

(** X16.  The Graphic Clusterer conserves the primitives: over the clusters
    built from a page, the counts of lines, rectangles and curves add up to
    the numbers of lines, rectangles and curves of the page, and there are
    never more clusters than primitives; the boxes returned are the clusters
    that reach the minimum width and height. *)
Theorem graphic_clusters_conserve_counts (cfg : Config) (page : Page) :
  st_lines (stats_total (graphic_clusters cfg page))
  = Z.of_nat (List.length (page_lines page))
  /\ st_rects (stats_total (graphic_clusters cfg page))
     = Z.of_nat (List.length (page_rects page))
  /\ st_curves (stats_total (graphic_clusters cfg page))
     = Z.of_nat (List.length (page_curves page))
  /\ (List.length (graphic_clusters cfg page)
      <= List.length (page_lines page) + List.length (page_rects page)
         + List.length (page_curves page))%nat
  /\ _gather_graphic_boxes cfg page
     = filter (fun c => Qle_bool (MIN_GRAPHIC_W cfg) (bx1 (fst c) - bx0 (fst c))
                        && Qle_bool (MIN_GRAPHIC_H cfg)
                                    (by1 (fst c) - by0 (fst c)))
              (graphic_clusters cfg page)
  /\ Forall (fun c => MIN_GRAPHIC_W cfg <= bx1 (fst c) - bx0 (fst c)
                      /\ MIN_GRAPHIC_H cfg <= by1 (fst c) - by0 (fst c))
            (_gather_graphic_boxes cfg page).
Proof.
  split; [|split; [|split; [|split; [|split]]]].
  - rewrite (graphic_clusters_total st_lines); simpl; intros; lia.
  - rewrite (graphic_clusters_total st_rects); simpl; intros; lia.
  - rewrite (graphic_clusters_total st_curves); simpl; intros; lia.
  - unfold graphic_clusters.
    pose proof (clusters_length cfg (page_primitives page) []) as H.
    unfold page_primitives in H at 2. rewrite !length_app, !length_map in H.
    simpl in H. lia.
  - reflexivity.
  - unfold _gather_graphic_boxes. cbv zeta. rewrite Forall_forall.
    intros c Hc. apply filter_In in Hc. destruct Hc as [_ Hc].
    apply andb_true_iff in Hc. destruct Hc as [H1 H2].
    apply Qle_bool_iff in H1. apply Qle_bool_iff in H2. auto.
Qed.

(* ================================================================= *)
(** ** The extraction loop, further *)

(** One candidate adds at most one record or one printed line, never both;
    a record added carries the page number and the identifier derived from
    its caption. *)
Lemma process_candidate_steps (cfg : Config) (page : Page) (page_num : nat)
  (words : list Word) (gbs : list (BBox * Stats)) (st : ExtractState)
  (c : BBox * nat) :
  (figures (process_candidate cfg page page_num words gbs st c) = figures st
   /\ (List.length (printed (process_candidate cfg page page_num words gbs st c))
       <= S (List.length (printed st)))%nat)
  \/ (exists fig,
        figures (process_candidate cfg page page_num words gbs st c)
        = figures st ++ [fig]
        /\ printed (process_candidate cfg page page_num words gbs st c)
           = printed st
        /\ fig_page fig = page_num
        /\ fig_contexts fig = None
        /\ fig_origin_id fig = origin_id_of (fig_caption fig) page_num (snd c)).
Proof.
  destruct c as [bbox idx]. unfold process_candidate.
  assert (forall m, figures (say st m) = figures st
                    /\ (List.length (printed (say st m))
                        <= S (List.length (printed st)))%nat) as Hsay.
  { intro m. simpl. rewrite length_app. simpl. split; [reflexivity|lia]. }
  destruct (_clip_to_page bbox (page_bbox page)) as [clipped|];
    [|left; split; [reflexivity|lia]].
  destruct (page_render page clipped) as [img|]; [|left; apply Hsay].
  destruct ((img_width img <? MIN_IMG_WIDTH cfg)%Z
            || (img_height img <? MIN_IMG_HEIGHT cfg)%Z); [left; apply Hsay|].
  destruct (_text_and_edge_score words clipped img) as [txt_ratio edge_score].
  destruct (_looks_like_plain_text txt_ratio edge_score
              (find_stats_hint clipped gbs)); [left; apply Hsay|].
  destruct (near_duplicate cfg (img_phash img) (kept_hashes st));
    [left; apply Hsay|].
  right. eexists. simpl. repeat split; reflexivity.
Qed.

Lemma strongly_sorted_snoc {A : Type} (R : A -> A -> Prop) (l : list A) (y : A) :
  StronglySorted R l -> (forall x, In x l -> R x y) ->
  StronglySorted R (l ++ [y]).
Proof.
  induction 1 as [|a l Hs IH Ha]; intro H; simpl.
  - constructor; constructor.
  - constructor.
    + apply IH. intros x Hx. apply H. right. exact Hx.
    + apply Forall_app. split; [exact Ha|].
      constructor; [|constructor]. apply H. left. reflexivity.
Qed.

Lemma paged_upto_succ (n : nat) (figs : list Figure) :
  paged_upto n figs -> paged_upto (S n) figs.
Proof.
  intros [Hs Hb]. split; [exact Hs|].
  rewrite Forall_forall in *. intros f Hf. specialize (Hb f Hf). lia.
Qed.

Lemma fold_candidates_paged (cfg : Config) (page : Page) (page_num : nat)
  (words : list Word) (gbs : list (BBox * Stats)) (cs : list (BBox * nat))
  (st : ExtractState) :
  (1 <= page_num)%nat ->
  paged_upto page_num (figures st) ->
  paged_upto page_num
    (figures (fold_left (process_candidate cfg page page_num words gbs) cs st)).
Proof.
  intro Hp. revert st. induction cs as [|c cs IH]; intros st H; simpl;
    [exact H|].
  apply IH.
  destruct (process_candidate_steps cfg page page_num words gbs st c)
    as [[E _]|(fig & E & _ & Epage & _)]; rewrite E; [exact H|].
  destruct H as [Hs Hb]. split.
  - apply strongly_sorted_snoc; [exact Hs|].
    rewrite Forall_forall in Hb. intros x Hx. specialize (Hb x Hx). lia.
  - apply Forall_app. split; [exact Hb|].
    constructor; [lia|constructor].
Qed.

Lemma fold_pages_paged (cfg : Config) (pages : list Page) (k : nat)
  (st : ExtractState) :
  (1 <= k)%nat ->
  paged_upto (k - 1) (figures st) ->
  paged_upto (k + List.length pages - 1)
    (figures (fold_left (process_page cfg) (enumerate_from k pages) st)).
Proof.
  revert k st. induction pages as [|p ps IH]; intros k st Hk H;
    cbn [enumerate_from fold_left List.length].
  - rewrite Nat.add_0_r. exact H.
  - replace (k + S (List.length ps) - 1)%nat
      with (S k + List.length ps - 1)%nat by lia.
    apply IH; [lia|].
    replace (S k - 1)%nat with k by lia.
    unfold process_page. apply fold_candidates_paged; [exact Hk|].
    replace k with (S (k - 1)) at 1 by lia. apply paged_upto_succ. exact H.
Qed.

(** X17.  The records of a document come in page order, and the page number
    of every record lies between 1 and the number of pages. *)
Theorem records_in_page_order (cfg : Config) (pages : list Page) :
  paged_upto (List.length pages)
             (figures (extract_images_and_captions cfg pages)).
Proof.
  unfold extract_images_and_captions.
  replace (List.length pages) with (1 + List.length pages - 1)%nat by lia.
  apply fold_pages_paged; [lia|].
  split; constructor.
Qed.

Lemma fold_candidates_count (cfg : Config) (page : Page) (page_num : nat)
  (words : list Word) (gbs : list (BBox * Stats)) (cs : list (BBox * nat))
  (st : ExtractState) :
  let st' := fold_left (process_candidate cfg page page_num words gbs) cs st in
  (List.length (figures st') + List.length (printed st')
   <= List.length (figures st) + List.length (printed st) + List.length cs)%nat.
Proof.
  revert st. induction cs as [|c cs IH]; intro st; simpl; [lia|].
  specialize (IH (process_candidate cfg page page_num words gbs st c)).
  simpl in IH.
  destruct (process_candidate_steps cfg page page_num words gbs st c)
    as [[E L]|(fig & E & Ep & _)].
  - rewrite E in IH. lia.
  - rewrite E, Ep, length_app in IH. simpl in IH. lia.
Qed.

Lemma enumerate_from_length {A : Type} (l : list A) (k : nat) :
  List.length (enumerate_from k l) = List.length l.
Proof.
  revert k. induction l as [|x l IH]; intro k; simpl; [reflexivity|].
  rewrite IH. reflexivity.
Qed.

Lemma process_page_count (cfg : Config) (st : ExtractState) (p : Page)
  (k : nat) :
  (List.length (figures (process_page cfg st (p, k)))
   + List.length (printed (process_page cfg st (p, k)))
   <= List.length (figures st) + List.length (printed st)
      + List.length (page_candidates cfg p))%nat.
Proof.
  unfold process_page.
  pose proof (fold_candidates_count cfg p k (page_words p)
                (_gather_graphic_boxes cfg p)
                (enumerate_from 1 (page_candidates cfg p)) st) as H.
  cbv zeta in H. rewrite enumerate_from_length in H. exact H.
Qed.

Lemma fold_pages_count (cfg : Config) (pages : list Page) (k : nat)
  (st : ExtractState) :
  (List.length (figures (fold_left (process_page cfg) (enumerate_from k pages) st))
   + List.length (printed (fold_left (process_page cfg)
                             (enumerate_from k pages) st))
   <= List.length (figures st) + List.length (printed st)
      + candidate_count cfg pages)%nat.
Proof.
  revert k st. induction pages as [|p ps IH]; intros k st;
    cbn [enumerate_from fold_left].
  - unfold candidate_count. simpl. lia.
  - specialize (IH (S k) (process_page cfg st (p, k))).
    pose proof (process_page_count cfg st p k) as H.
    change (candidate_count cfg (p :: ps))
      with (List.length (page_candidates cfg p) + candidate_count cfg ps)%nat.
    lia.
Qed.

(** X18.  A document never yields more records than it has candidates:
    records and printed lines together are at most one per candidate; and the
    ledger holds the hashes of the records, in order. *)
Theorem records_bounded_by_candidates (cfg : Config) (pages : list Page) :
  (List.length (figures (extract_images_and_captions cfg pages))
   + List.length (printed (extract_images_and_captions cfg pages))
   <= candidate_count cfg pages)%nat
  /\ kept_hashes (extract_images_and_captions cfg pages)
     = map fig_phash (figures (extract_images_and_captions cfg pages)).
Proof.
  split.
  - pose proof (fold_pages_count cfg pages 1 initial_state) as H.
    simpl in H. exact H.
  - apply (extract_ok cfg pages).
Qed.

Lemma fold_candidates_unrendered (cfg : Config) (page : Page) (page_num : nat)
  (words : list Word) (gbs : list (BBox * Stats)) (cs : list (BBox * nat))
  (st : ExtractState) :
  never_renders page ->
  figures st = [] /\ kept_hashes st = [] /\ Forall is_warning (printed st) ->
  let st' := fold_left (process_candidate cfg page page_num words gbs) cs st in
  figures st' = [] /\ kept_hashes st' = [] /\ Forall is_warning (printed st').
Proof.
  intro Hr. revert st. induction cs as [|[bbox idx] cs IH]; intros st H;
    simpl; [exact H|].
  apply IH. unfold process_candidate.
  destruct (_clip_to_page bbox (page_bbox page)) as [clipped|]; [|exact H].
  rewrite (Hr clipped). destruct H as (H1 & H2 & H3). simpl.
  split; [exact H1|]. split; [exact H2|].
  apply Forall_app. split; [exact H3|].
  constructor; [exists page_num; reflexivity|constructor].
Qed.

(** X19.  When the renderer fails on every page, extraction still runs to
    the end: no record is emitted, the ledger stays empty, and every printed
    line is the warning of a failed candidate. *)
Theorem render_failures_emit_nothing (cfg : Config) (pages : list Page) :
  Forall never_renders pages ->
  figures (extract_images_and_captions cfg pages) = []
  /\ kept_hashes (extract_images_and_captions cfg pages) = []
  /\ Forall is_warning (printed (extract_images_and_captions cfg pages)).
Proof.
  unfold extract_images_and_captions.
  assert (figures initial_state = [] /\ kept_hashes initial_state = []
          /\ Forall is_warning (printed initial_state)) as H0
    by (repeat split; constructor).
  revert H0. generalize initial_state. generalize 1%nat.
  induction pages as [|p ps IH]; intros k st H0 Hall;
    cbn [enumerate_from fold_left]; [exact H0|].
  inversion Hall as [|? ? Hp Hps]; subst.
  apply IH; [|exact Hps].
  unfold process_page. apply fold_candidates_unrendered; assumption.
Qed.

Lemma render_failures_emit_nothing_witness :
  Forall never_renders [unrenderable_page]
  /\ figures (extract_images_and_captions default_config [unrenderable_page])
     = []
  /\ printed (extract_images_and_captions default_config [unrenderable_page])
     = [WarnFailed 1].
Proof.
  assert (Forall never_renders [unrenderable_page]) as H
    by (constructor; [intro b; reflexivity|constructor]).
  split; [exact H|].
  split; [exact (proj1 (render_failures_emit_nothing default_config _ H))|].
  vm_compute. reflexivity.
Defined.

(** X20.  A page that holds no raster image and no vector primitive leaves
    the state of the extraction untouched, whatever its words. *)
Theorem page_without_graphics_adds_nothing (cfg : Config) (st : ExtractState)
  (page : Page) (page_num : nat) :
  page_images page = [] -> page_lines page = [] ->
  page_rects page = [] -> page_curves page = [] ->
  process_page cfg st (page, page_num) = st.
Proof.
  intros Hi Hl Hr Hc.
  unfold process_page, page_candidates, _gather_graphic_boxes.
  rewrite Hi, Hl, Hr, Hc. reflexivity.
Qed.

Lemma page_without_graphics_adds_nothing_witness :
  page_images blank_page = []
  /\ process_page default_config initial_state (blank_page, 1%nat)
     = initial_state.
Proof.
  split; [reflexivity|].
  apply page_without_graphics_adds_nothing; reflexivity.
Defined.

(* ================================================================= *)
(** ** Context Locator and orchestration, further *)

Lemma find_contexts_phash (is_decimal : N -> bool) (figs : list Figure)
  (text : Str) :
  map fig_phash (find_contexts is_decimal figs text) = map fig_phash figs.
Proof.
  unfold find_contexts. cbv zeta. rewrite map_map. apply map_ext.
  intro fig. reflexivity.
Qed.

(** X21.  The records written for a document are the extracted ones with
    their contexts set: each is large enough, their hashes are those of the
    ledger and pairwise more than [HASH_THRESHOLD] bits apart, none lacks its
    contexts, and the document is named after the stem of the file. *)
Theorem written_records_keep_invariants (cfg : Config) (is_decimal : N -> bool)
  (f : PdfFile) (out : Output) :
  process_pdf cfg is_decimal f = inl out ->
  Forall (large_enough cfg) (out_figures out)
  /\ pairwise_far cfg (map fig_phash (out_figures out))
  /\ Forall (fun fig => fig_contexts fig <> None) (out_figures out)
  /\ paper_id out = stem (pdf_name f)
  /\ exists pages,
       pdf_plumber f = Some pages
       /\ map fig_phash (out_figures out)
          = kept_hashes (extract_images_and_captions cfg pages).
Proof.
  unfold process_pdf.
  destruct (pdf_reader f) as [text_pages|]; [|discriminate].
  destruct (pdf_plumber f) as [pages|]; [|discriminate].
  intro H. inversion H; subst out. clear H. cbn [out_figures paper_id].
  destruct (extract_ok cfg pages) as (Hk & Hfar & Hall).
  split; [|split; [|split; [|split]]].
  - unfold find_contexts. cbv zeta. rewrite Forall_forall in *.
    intros fig Hin. apply in_map_iff in Hin.
    destruct Hin as (g & <- & Hg). exact (Hall g Hg).
  - rewrite find_contexts_phash, <- Hk. exact Hfar.
  - unfold find_contexts. cbv zeta. rewrite Forall_forall.
    intros fig Hin. apply in_map_iff in Hin.
    destruct Hin as (g & <- & _). discriminate.
  - reflexivity.
  - exists pages. split; [reflexivity|].
    rewrite find_contexts_phash. symmetry. exact Hk.
Qed.

Lemma written_records_keep_invariants_witness :
  process_pdf default_config is_ascii_digit readable_pdf
  = inl (mkOutput (py "b")
           [mkFigure (py "FIGURE 3") 1 (py "Figure 3 Overview") 500 500 255
                     (Some [py "Intro. See Figure 3 here. End."])]
           [])
  /\ Forall (large_enough default_config)
       [mkFigure (py "FIGURE 3") 1 (py "Figure 3 Overview") 500 500 255
                 (Some [py "Intro. See Figure 3 here. End."])].
Proof.
  assert (process_pdf default_config is_ascii_digit readable_pdf
          = inl (mkOutput (py "b")
                   [mkFigure (py "FIGURE 3") 1 (py "Figure 3 Overview") 500 500
                             255 (Some [py "Intro. See Figure 3 here. End."])]
                   [])) as H by (vm_compute; reflexivity).
  split; [exact H|].
  exact (proj1 (written_records_keep_invariants _ _ _ _ H)).
Defined.

Lemma insert_sorted_length {A : Type} (lt : A -> A -> bool) (x : A) (l : list A) :
  List.length (insert_sorted lt x l) = S (List.length l).
Proof.
  induction l as [|y l IH]; simpl; [reflexivity|].
  destruct (lt x y); simpl; [reflexivity|]. rewrite IH. reflexivity.
Qed.

Lemma sorted_length {A : Type} (lt : A -> A -> bool) (l : list A) :
  List.length (sorted lt l) = List.length l.
Proof.
  unfold sorted.
  assert (forall acc,
             List.length (fold_left (fun acc x => insert_sorted lt x acc) l acc)
             = (List.length acc + List.length l)%nat) as H.
  { induction l as [|x l IH]; intro acc; simpl; [lia|].
    rewrite IH, insert_sorted_length. lia. }
  rewrite H. reflexivity.
Qed.

Lemma merge_range_rev_length (racc : list (Z * Z)) (r : Z * Z) :
  (List.length (merge_range_rev racc r) <= S (List.length racc))%nat.
Proof.
  destruct racc as [|[ps pe] rest]; simpl; [lia|].
  destruct r as [cs ce]. destruct (cs <=? pe)%Z; simpl; lia.
Qed.

Lemma merge_ranges_length (ranges : list (Z * Z)) :
  (List.length (merge_ranges ranges) <= List.length ranges)%nat.
Proof.
  unfold merge_ranges. rewrite fold_merge_range_rev, length_rev.
  rewrite <- (sorted_length key_ZZ_lt ranges).
  generalize (sorted key_ZZ_lt ranges). intro l. simpl rev.
  assert (forall acc, (List.length (fold_left merge_range_rev l acc)
                       <= List.length acc + List.length l)%nat) as H.
  { induction l as [|r l IH]; intro acc; simpl; [lia|].
    specialize (IH (merge_range_rev acc r)).
    pose proof (merge_range_rev_length acc r). lia. }
  apply (H []).
Qed.

Lemma match_windows_length (num : Str) (sentences : list Str) :
  List.length (match_windows num sentences)
  = List.length (filter (mentions num) sentences).
Proof.
  unfold match_windows. generalize (Z.of_nat (List.length sentences)).
  intro total. generalize 0%nat.
  induction sentences as [|s l IH]; intro k; simpl; [reflexivity|].
  rewrite length_app, IH. destruct (mentions num s); reflexivity.
Qed.

(** X22.  A figure gets at most one context string per sentence that
    mentions its number, hence none when no sentence mentions it; a figure
    whose identifier and caption hold no number gets none at all. *)
Theorem contexts_bounded_by_mentions (is_decimal : N -> bool)
  (sentences : list Str) (fig : Figure) :
  match first_number is_decimal
          (fig_origin_id fig ++ py " " ++ fig_caption fig) with
  | Some num =>
      (List.length (contexts_of is_decimal sentences fig)
       <= List.length (filter (mentions num) sentences))%nat
  | None => contexts_of is_decimal sentences fig = []
  end.
Proof.
  unfold contexts_of.
  destruct (first_number is_decimal
              (fig_origin_id fig ++ py " " ++ fig_caption fig)) as [num|].
  - rewrite length_map, <- match_windows_length. apply merge_ranges_length.
  - reflexivity.
Qed.

(** X23.  Every sentence returned by [split_sentences] is non-empty and
    carries no white space at either end; the empty text has no sentence. *)
Theorem split_sentences_stripped (text : Str) :
  Forall (fun s => s <> [] /\ strip s = s) (split_sentences text)
  /\ split_sentences [] = [].
Proof.
  split; [|reflexivity].
  unfold split_sentences. rewrite Forall_forall. intros s Hs.
  apply in_map_iff in Hs. destruct Hs as (p & <- & Hp).
  apply filter_In in Hp. destruct Hp as [_ Hp].
  split; [|apply strip_idem].
  destruct (strip p); [discriminate|discriminate].
Qed.

Lemma rfind_dot_app (a b : Str) (pos : nat) (found : option nat) :
  rfind_dot (a ++ b) pos found
  = rfind_dot b (pos + List.length a) (rfind_dot a pos found).
Proof.
  revert pos found. induction a as [|c a IH]; intros pos found; simpl.
  - rewrite Nat.add_0_r. reflexivity.
  - rewrite IH. f_equal. lia.
Qed.

(** X24.  For a non-empty base name, the file [base.pdf] is recognised as a
    PDF, also with the extension in capitals, and its stem is the base name
    again, whatever dots the base name holds. *)
Theorem stem_of_pdf_name (base : Str) :
  base <> [] ->
  stem (base ++ py ".pdf") = base
  /\ is_pdf_name (base ++ py ".pdf") = true
  /\ is_pdf_name (base ++ py ".PDF") = true.
Proof.
  intro Hne.
  assert (0 < List.length base)%nat as Hlen
    by (destruct base; [congruence|simpl; lia]).
  assert (forall ext, List.length ext = 4%nat ->
                      skipn (List.length (base ++ ext) - 4) (base ++ ext) = ext)
    as Hskip.
  { intros ext He. rewrite length_app, He.
    replace (List.length base + 4 - 4)%nat with (List.length base) by lia.
    rewrite skipn_app, skipn_all, Nat.sub_diag. reflexivity. }
  split; [|split].
  - assert (rfind_dot (base ++ py ".pdf") 0 None = Some (List.length base))
      as E by (rewrite rfind_dot_app; reflexivity).
    assert ((0 <? List.length base)%nat
            && (List.length base <? List.length (base ++ py ".pdf") - 1)%nat
            = true) as Hc.
    { rewrite length_app. apply andb_true_iff.
      split; apply Nat.ltb_lt; simpl; lia. }
    unfold stem. rewrite E, Hc.
    rewrite firstn_app, firstn_all, Nat.sub_diag. apply app_nil_r.
  - unfold is_pdf_name. rewrite Hskip by reflexivity.
    apply andb_true_iff. split; [reflexivity|].
    apply Nat.leb_le. rewrite length_app. simpl. lia.
  - unfold is_pdf_name. rewrite Hskip by reflexivity.
    apply andb_true_iff. split; [reflexivity|].
    apply Nat.leb_le. rewrite length_app. simpl. lia.
Qed.

Lemma stem_of_pdf_name_witness :
  py "paper.v2" <> [] /\ stem (py "paper.v2" ++ py ".pdf") = py "paper.v2".
Proof.
  assert (py "paper.v2" <> []) as H by discriminate.
  split; [exact H|]. exact (proj1 (stem_of_pdf_name _ H)).
Defined.

(** X25.  A run that ends without an uncaught exception has written one
    document per directory entry with a PDF name, in directory order: each is
    what [process_pdf] gives for that entry and is named after the stem of
    its file name; the other directory entries are passed over. *)
Theorem completed_run_writes_every_pdf (cfg : Config) (is_decimal : N -> bool)
  (listing : list PdfFile) :
  uncaught (main cfg is_decimal listing) = None ->
  map (process_pdf cfg is_decimal)
      (filter (fun f => is_pdf_name (pdf_name f)) listing)
  = map inl (written (main cfg is_decimal listing))
  /\ map paper_id (written (main cfg is_decimal listing))
     = map (fun f => stem (pdf_name f))
           (filter (fun f => is_pdf_name (pdf_name f)) listing).
Proof.
  induction listing as [|f rest IH]; simpl; [auto|].
  destruct (is_pdf_name (pdf_name f)) eqn:E; [|exact IH].
  destruct (process_pdf cfg is_decimal f) as [out|e] eqn:Ep; simpl;
    [|discriminate].
  intro H. destruct (IH H) as [IH1 IH2]. split.
  - rewrite Ep, IH1. reflexivity.
  - rewrite IH2. f_equal. unfold process_pdf in Ep.
    destruct (pdf_reader f); [|discriminate].
    destruct (pdf_plumber f); [|discriminate].
    inversion Ep. reflexivity.
Qed.

Lemma completed_run_writes_every_pdf_witness :
  uncaught (main default_config is_ascii_digit [notes_file; readable_pdf])
  = None
  /\ map paper_id
       (written (main default_config is_ascii_digit [notes_file; readable_pdf]))
     = [py "b"].
Proof.
  assert (uncaught (main default_config is_ascii_digit
                         [notes_file; readable_pdf]) = None) as H
    by (vm_compute; reflexivity).
  split; [exact H|].
  destruct (completed_run_writes_every_pdf default_config is_ascii_digit _ H)
    as [_ H2].
  rewrite H2. vm_compute. reflexivity.
Defined.

(** X26.  The window of a match at sentence [i] of a document always holds
    sentence [i], never spans more than 5 sentences, and spans at least 3
    when the document has 3 sentences or more. *)
Theorem window_holds_match (total i : Z) :
  (0 <= i < total)%Z ->
  (fst (window total i) <= i < snd (window total i))%Z
  /\ (snd (window total i) - fst (window total i) <= 5)%Z
  /\ (3 <= total -> 3 <= snd (window total i) - fst (window total i))%Z.
Proof.
  intro H. unfold window. cbv zeta.
  destruct (Z.ltb_spec (Z.min total (i + 3) - Z.max 0 (i - 2)) 5);
    cbn [fst snd]; lia.
Qed.

Lemma window_holds_match_witness :
  (0 <= 19 < 20)%Z
  /\ (fst (window 20 19) <= 19 < snd (window 20 19))%Z.
Proof.
  assert (0 <= 19 < 20)%Z as H by lia.
  split; [exact H|]. exact (proj1 (window_holds_match 20 19 H)).
Defined.

(** X27.  Running [find_contexts] again on its own result, with the same
    text, changes nothing: the contexts of a record depend only on its
    identifier and caption, which the pass leaves as they are. *)
Theorem find_contexts_idempotent (is_decimal : N -> bool) (figs : list Figure)
  (text : Str) :
  find_contexts is_decimal (find_contexts is_decimal figs text) text
  = find_contexts is_decimal figs text
  /\ map fig_origin_id (find_contexts is_decimal figs text)
     = map fig_origin_id figs
  /\ map fig_caption (find_contexts is_decimal figs text) = map fig_caption figs
  /\ map fig_page (find_contexts is_decimal figs text) = map fig_page figs.
Proof.
  unfold find_contexts. cbv zeta.
  split; [|split; [|split]]; rewrite map_map; apply map_ext; intro fig;
    reflexivity.
Qed.

Lemma rstrip_fixed_iff (x : Str) : rstrip x = x <-> lstrip (rev x) = rev x.
Proof.
  unfold rstrip. split; intro H.
  - rewrite <- H at 2. rewrite rev_involutive. reflexivity.
  - rewrite H. apply rev_involutive.
Qed.

Lemma lstrip_fixed_app (x y : Str) :
  x <> [] -> lstrip x = x -> lstrip (x ++ y) = x ++ y.
Proof.
  intros Hne H. destruct x as [|c x]; [congruence|].
  apply lstrip_fixed_iff in H. apply lstrip_fixed_iff. exact H.
Qed.

Lemma join_nonempty (sep : Str) (parts : list Str) :
  parts <> [] -> Forall (fun p => p <> []) parts -> join sep parts <> [].
Proof.
  destruct parts as [|p rest]; [congruence|]. intros _ H.
  inversion H as [|? ? Hp _]; subst. simpl.
  destruct rest; [exact Hp|].
  intro E. apply app_eq_nil in E. destruct E. contradiction.
Qed.

Lemma join_stripped (sep : Str) (parts : list Str) :
  Forall (fun p => p <> [] /\ lstrip p = p /\ rstrip p = p) parts ->
  lstrip (join sep parts) = join sep parts
  /\ rstrip (join sep parts) = join sep parts.
Proof.
  induction 1 as [|p rest (Hne & Hl & Hr) Hrest IH]; [split; reflexivity|].
  destruct rest as [|q rest'].
  - simpl. auto.
  - change (join sep (p :: q :: rest'))
      with (p ++ sep ++ join sep (q :: rest')).
    split.
    + apply lstrip_fixed_app; assumption.
    + apply rstrip_fixed_iff. rewrite !rev_app_distr, <- app_assoc.
      apply lstrip_fixed_app.
      * intro E. apply (f_equal (@rev N)) in E.
        rewrite rev_involutive in E. change (rev []) with (@nil N) in E.
        revert E.
        apply join_nonempty; [discriminate|].
        rewrite Forall_forall in *. intros x Hx. apply (Hrest x Hx).
      * apply rstrip_fixed_iff. apply IH.
Qed.

(** X28.  The text that [_join_words_linewise] builds carries no white space
    at either end, and is empty when there is no word. *)
Theorem join_words_linewise_stripped (cfg : Config) (words : list Word) :
  strip (_join_words_linewise cfg words) = _join_words_linewise cfg words
  /\ _join_words_linewise cfg [] = [].
Proof.
  split; [|reflexivity].
  assert (forall lines,
             strip (join (py " ")
                      (map strip (filter (fun l => nonempty (strip l)) lines)))
             = join (py " ")
                 (map strip (filter (fun l => nonempty (strip l)) lines)))
    as Hgen.
  { intro lines.
    destruct (join_stripped (py " ")
                (map strip (filter (fun l => nonempty (strip l)) lines)))
      as [H1 H2].
    - rewrite Forall_forall. intros s Hs. apply in_map_iff in Hs.
      destruct Hs as (p & <- & Hp). apply filter_In in Hp.
      destruct Hp as [_ Hp]. destruct (strip_fixed p) as [A B].
      split; [|split; assumption].
      destruct (strip p); discriminate.
    - revert H1 H2. generalize (join (py " ")
        (map strip (filter (fun l => nonempty (strip l)) lines))).
      intros x H1 H2. unfold strip. rewrite H1. exact H2. }
  unfold _join_words_linewise. destruct words as [|w ws]; [reflexivity|].
  cbv zeta.
  destruct (fold_left (join_step cfg)
              (sorted (fun a b => key_ZQ_lt (line_key a) (line_key b))
                      (w :: ws)) ([], [], None)) as [[lines current_line] last].
  apply Hgen.
Qed.

(** X29.  For a figure whose identifier and caption hold a number, the
    windows are exactly those of the sentences that mention it; the merged
    ranges are separated by gaps, hence disjoint, not adjacent and in
    increasing order; they lie within the document, cover the same sentences
    as the windows, and each gives one context string, its sentences joined
    by single spaces. *)
Theorem context_ranges_merged (is_decimal : N -> bool) (sentences : list Str)
  (fig : Figure) (num : Str) :
  first_number is_decimal (fig_origin_id fig ++ py " " ++ fig_caption fig)
  = Some num ->
  let total := Z.of_nat (List.length sentences) in
  let ranges := match_windows num sentences in
  let merged := merge_ranges ranges in
  (forall r, In r ranges
             <-> exists i s, nth_error sentences i = Some s
                             /\ mentions num s = true
                             /\ r = window total (Z.of_nat i))
  /\ (forall l1 r1 r2 l2, merged = l1 ++ r1 :: r2 :: l2 ->
                          (snd r1 < fst r2)%Z)
  /\ (forall r, In r merged -> within_doc total r)
  /\ (forall x, covered x merged <-> covered x ranges)
  /\ contexts_of is_decimal sentences fig
     = map (fun r => join (py " ") (slice sentences (fst r) (snd r))) merged.
Proof.
  intros Hnum total ranges merged.
  destruct (merge_ranges_spec total ranges (match_windows_within num sentences))
    as (Hgap & Hin & Hcov).
  split; [apply match_windows_in|].
  split; [exact Hgap|].
  split; [apply Forall_forall; exact Hin|].
  split; [exact Hcov|].
  unfold contexts_of. rewrite Hnum. reflexivity.
Qed.

Lemma context_ranges_merged_witness :
  first_number is_ascii_digit
    (fig_origin_id figure_one ++ py " " ++ fig_caption figure_one)
  = Some (py "1")
  /\ match_windows (py "1") three_sentences = [(0, 3)%Z]
  /\ (covered 2 (merge_ranges (match_windows (py "1") three_sentences))
      <-> covered 2 (match_windows (py "1") three_sentences)).
Proof.
  assert (first_number is_ascii_digit
            (fig_origin_id figure_one ++ py " " ++ fig_caption figure_one)
          = Some (py "1")) as Hnum by (vm_compute; reflexivity).
  split; [exact Hnum|]. split; [vm_compute; reflexivity|].
  destruct (context_ranges_merged is_ascii_digit three_sentences figure_one
              (py "1") Hnum) as (_ & _ & _ & Hcov & _).
  exact (Hcov 2%Z).
Defined.
